(** * Link-definition organizer and extractor of the Markdown language service

    A shallow embedding of [languageFeatures/organizeLinkDefs.ts] and
    [languageFeatures/codeActions/extractLinkDef.ts], with the properties of
    the organizer, the block locator, the inserter and the extractor stated
    and proved over it.

    JavaScript numbers that hold line and character indices are modelled
    as [Z]; strings as [string]; arrays as [list]; the object used as a
    map by the edit builder and the definition set as [gmap]. *)

From Stdlib Require Import ZArith List String Ascii Lia Bool Sorted Permutation.
From Stdlib Require Import DecimalString DecimalNat.
From stdpp Require Import base gmap strings list.
From Equations Require Import Equations.
Import ListNotations.

Local Open Scope string_scope.
Local Open Scope Z_scope.

(** ** Protocol types ([vscode-languageserver-protocol]) *)

Module lsp.

Record Position := mkPosition { line : Z; character : Z }.

Record Range := mkRange { start : Position; end_ : Position }.

Module Range.
    (** [lsp.Range.create(startLine, startCharacter, endLine, endCharacter)] *)
Definition create (startLine startCharacter endLine endCharacter : Z) : Range :=
      {| start := {| line := startLine; character := startCharacter |};
         end_ := {| line := endLine; character := endCharacter |} |}.
End Range.

Record TextEdit := mkTextEdit { newText : string; range : Range }.

Module TextEdit.
    (** [lsp.TextEdit.replace(range, newText)] *)
Definition replace (r : Range) (t : string) : TextEdit :=
      {| newText := t; range := r |}.
    (** [lsp.TextEdit.insert(position, newText)]: an edit whose range is
        empty, both ends being [position]. *)
Definition insert (p : Position) (t : string) : TextEdit :=
      {| newText := t; range := {| start := p; end_ := p |} |}.
End TextEdit.

Record CancellationToken := { isCancellationRequested : bool }.

Record Command := mkCommand
    { command_title : string;
      command : string;
      (** the two arguments of the rename command: document and position *)
      arguments : string * Position }.

  (** [only] is [None] when the context does not restrict the kinds. *)
Record CodeActionContext := { only : option (list string) }.

  (** A workspace edit as the edit builder produces it: the text edits
      of each document, keyed by the document's URI string. *)
Record CodeAction := mkCodeAction
    { title : string;
      kind : string;
      disabled : option string;
      edit : option (gmap string (list TextEdit));
      action_command : option Command }.

Module CodeActionKind.
Definition Refactor : string := "refactor".
Definition RefactorExtract : string := "refactor.extract".
End CodeActionKind.

End lsp.

Global Instance Position_eq_dec : EqDecision lsp.Position.
Proof. solve_decision. Defined.
Global Instance Range_eq_dec : EqDecision lsp.Range.
Proof. solve_decision. Defined.
Global Instance TextEdit_eq_dec : EqDecision lsp.TextEdit.
Proof. solve_decision. Defined.

(** Modelled from the spec: [maxLspUInt] of util/number, the sentinel maximum
    for line and character bounds; it is the largest unsigned integer of the
    protocol, 2^31 - 1. *)
Definition maxLspUInt : Z := 2147483647.

(** ** Strings ([util/string]) *)

Definition LF : ascii := "010"%char.
Definition CR : ascii := "013"%char.
Definition newline : string := String LF "".

(** Modelled from the spec: the white-space class of the regular expression
    [\s] behind [isEmptyOrWhitespace] (util/string is not among the sources),
    restricted to the ASCII range: tab, line feed, vertical tab, form feed,
    carriage return and space. *)
Definition isWhitespaceChar (c : ascii) : bool :=
  let n := nat_of_ascii c in
  ((9 <=? n)%nat && (n <=? 13)%nat) || (n =? 32)%nat.

(** Modelled from the spec: [isEmptyOrWhitespace(str)] of util/string, true
    when the string is empty or made of white space only. *)
Fixpoint isEmptyOrWhitespace (str : string) : bool :=
  match str with
  | EmptyString => true
  | String c rest => isWhitespaceChar c && isEmptyOrWhitespace rest
  end.

(** [str.split(/\r\n|\n/g)]: the pieces between line terminators; the empty
    string splits into one empty piece. *)
Fixpoint splitLines (str : string) : list string :=
  match str with
  | EmptyString => [EmptyString]
  | String c rest =>
      if Ascii.eqb c LF then EmptyString :: splitLines rest
      else
        match rest with
        | String c' rest' =>
            if Ascii.eqb c CR && Ascii.eqb c' LF
            then EmptyString :: splitLines rest'
            else match splitLines rest with
                 | piece :: pieces => String c piece :: pieces
                 | [] => [String c EmptyString]
                 end
        | EmptyString => [String c EmptyString]
        end
  end.

(** [str.trim()] on the ASCII white-space class. *)
Fixpoint trimStart (str : string) : string :=
  match str with
  | EmptyString => EmptyString
  | String c rest => if isWhitespaceChar c then trimStart rest else str
  end.

Fixpoint trimEnd (str : string) : string :=
  match str with
  | EmptyString => EmptyString
  | String c rest =>
      match trimEnd rest with
      | EmptyString => if isWhitespaceChar c then EmptyString else String c EmptyString
      | kept => String c kept
      end
  end.

Definition trim (str : string) : string := trimEnd (trimStart str).

(** [str.toLowerCase()] on ASCII letters. *)
Definition toLowerChar (c : ascii) : ascii :=
  let n := nat_of_ascii c in
  if (65 <=? n)%nat && (n <=? 90)%nat then ascii_of_nat (n + 32) else c.

Fixpoint toLowerCase (str : string) : string :=
  match str with
  | EmptyString => EmptyString
  | String c rest => String (toLowerChar c) (toLowerCase rest)
  end.

(** ** Documents ([types/textDocument]) *)

(** Modelled from the spec: the Document abstraction (types/textDocument is
    not among the sources) gives read-only access to line text, line count
    and the text of a range, lines being addressed from zero and positions
    past the end being clamped.  A document is its URI and its lines, the
    text being the lines joined by line feeds. *)
Record ITextDocument := mkDoc { uri : string; lines : list string }.

(** Modelled from the spec: [getDocUri(doc)], the identity of the document. *)
Definition getDocUri (doc : ITextDocument) : string := uri doc.

(** Modelled from the spec: [doc.lineCount]. *)
Definition lineCount (doc : ITextDocument) : Z := Z.of_nat (length (lines doc)).

(** Modelled from the spec: the whole text of the document. *)
Definition content (doc : ITextDocument) : string :=
  String.concat newline (lines doc).

(** Offset of the first character of line [n] in the text. *)
Fixpoint lineOffset (ls : list string) (n : nat) : nat :=
  match n, ls with
  | O, _ => O
  | S n', l :: ls' => (String.length l + 1 + lineOffset ls' n')%nat
  | S _, [] => O
  end.

(** Modelled from the spec: [doc.offsetAt(position)]; a line past the end
    gives the length of the text, a negative line gives 0, and the character
    is clamped to the line. *)
Definition offsetAt (doc : ITextDocument) (p : lsp.Position) : nat :=
  if lineCount doc <=? lsp.line p then String.length (content doc)
  else if lsp.line p <? 0 then O
  else
    let n := Z.to_nat (lsp.line p) in
    let l := nth n (lines doc) EmptyString in
    (lineOffset (lines doc) n
     + Nat.min (Z.to_nat (lsp.character p)) (String.length l))%nat.

(** Modelled from the spec: [doc.getText(range)], the text between the
    offsets of the two ends of the range. *)
Definition getText (doc : ITextDocument) (r : lsp.Range) : string :=
  let s := offsetAt doc (lsp.start r) in
  let e := offsetAt doc (lsp.end_ r) in
  substring s (e - s) (content doc).

(** Modelled from the spec: [getLine(doc, line)] of types/textDocument, the
    text of a line without its terminator, empty when there is no such
    line. *)
Definition getLine (doc : ITextDocument) (line : Z) : string :=
  if (line <? 0) || (lineCount doc <=? line) then EmptyString
  else nth (Z.to_nat line) (lines doc) EmptyString.


(** ** Links ([types/documentLink]) *)

(** Modelled from the spec: the kinds of link of types/documentLink, as the
    code tests them; inline and reference links share the kind Link. *)
Module MdLinkKind.
Inductive t := Link | Definition_ | AutoLink.
Definition eqb (a b : t) : bool :=
  match a, b with
  | Link, Link | Definition_, Definition_ | AutoLink, AutoLink => true
  | _, _ => false
  end.
End MdLinkKind.

(** Modelled from the spec: the kinds of href of types/documentLink. *)
Module HrefKind.
Inductive t := External | Internal | Reference.
Definition eqb (a b : t) : bool :=
  match a, b with
  | External, External | Internal, Internal | Reference, Reference => true
  | _, _ => false
  end.
End HrefKind.

(** Modelled from the spec: the three shapes of an href, with the fields the
    code reads.  Resources are kept as strings. *)
Inductive Href :=
| ExternalHref (uri : string)
| InternalHref (path : string) (fragment : string)
| ReferenceHref (ref : string).

Definition href_kind (h : Href) : HrefKind.t :=
  match h with
  | ExternalHref _ => HrefKind.External
  | InternalHref _ _ => HrefKind.Internal
  | ReferenceHref _ => HrefKind.Reference
  end.

(** Modelled from the spec: the source of a link, with the fields the code
    reads. *)
Record MdLinkSource := mkSource
  { range : lsp.Range;        (* the whole construct *)
    targetRange : lsp.Range;  (* the target as written *)
    hrefText : string }.

(** Modelled from the spec: the label of a definition.  A snapshot holds one
    such object for each definition, at its own place in the document, so the
    identity test [a.ref === b.ref] of the source is equality of the two
    records. *)
Record LinkRef := mkRef { text : string; ref_range : lsp.Range }.

(** Modelled from the spec: a link, as the code reads it; [ref] is read on
    definitions only. *)
Record MdLink := mkLink
  { kind : MdLinkKind.t;
    href : Href;
    source : MdLinkSource;
    ref : LinkRef }.

(** The cast [as MdLinkDefinition[]] changes nothing at run time. *)
Abbreviation MdLinkDefinition := MdLink (only parsing).

Global Instance LinkRef_eq_dec : EqDecision LinkRef.
Proof. solve_decision. Defined.

Definition startLineOf (def : MdLinkDefinition) : Z :=
  lsp.line (lsp.start (range (source def))).

Definition endLineOf (def : MdLinkDefinition) : Z :=
  lsp.line (lsp.end_ (range (source def))).

Definition labelOf (def : MdLinkDefinition) : string := text (ref def).

(** ** Arrays *)

Section ArraySort.
Context {A : Type} (compareFn : A -> A -> Z).

(** [Array.prototype.sort(compareFn)].  The language requires the sort to be
    stable, and for a consistent comparator the stable sorted arrangement of
    an array is unique ([sort_unique] below); insertion from the right
    computes it: an element goes before the first later element it does not
    compare above. *)
Fixpoint insertSorted (x : A) (l : list A) : list A :=
  match l with
  | [] => [x]
  | y :: l' => if compareFn x y <=? 0 then x :: l else y :: insertSorted x l'
  end.

Fixpoint sort (l : list A) : list A :=
  match l with
  | [] => []
  | x :: l' => insertSorted x (sort l')
  end.

End ArraySort.

(** [array.every((x, i) => f(x, i))] *)
Fixpoint everyFrom {A : Type} (f : A -> nat -> bool) (i : nat) (l : list A) : bool :=
  match l with
  | [] => true
  | x :: l' => f x i && everyFrom f (S i) l'
  end.

Definition every {A : Type} (f : A -> nat -> bool) (l : list A) : bool :=
  everyFrom f O l.

(** Index of the last element that satisfies [p], scanning from the end. *)
Fixpoint findLastIndex {A : Type} (p : A -> bool) (l : list A) : option nat :=
  match l with
  | [] => None
  | x :: l' =>
      match findLastIndex p l' with
      | Some i => Some (S i)
      | None => if p x then Some O else None
      end
  end.

(** ** The organizer ([languageFeatures/organizeLinkDefs]) *)

Module OrganizeLinkDefs.

Record LineSpan := mkSpan { startLine : Z; endLine : Z }.

Record Options := { removeUnused : option bool }.

(** [!options.removeUnused]: an absent option counts as false. *)
Definition removeUnusedSet (options : Options) : bool :=
  match removeUnused options with Some b => b | None => false end.

(** [link.kind === MdLinkKind.Definition] *)
Definition isDefinition (link : MdLink) : bool :=
  MdLinkKind.eqb (kind link) MdLinkKind.Definition_.

(** The text after the last line of a definition, to the end of the
    document. *)
Definition textAfterDef (doc : ITextDocument) (lastDef : MdLinkDefinition) : string :=
  getText doc (lsp.Range.create (endLineOf lastDef + 1) 0 maxLspUInt 0).

(** The backward loop of [getExistingDefinitionBlock], on the definitions
    from the last one to the first: it stops at the first definition that
    starts more than one line above the one kept so far. *)
Fixpoint walkBackward (prevDef : MdLinkDefinition) (reversed : list MdLinkDefinition)
  : MdLinkDefinition :=
  match reversed with
  | [] => prevDef
  | def :: rest =>
      if startLineOf def <? startLineOf prevDef - 1 then prevDef
      else walkBackward def rest
  end.

Definition getExistingDefinitionBlock (doc : ITextDocument)
    (orderedDefinitions : list MdLinkDefinition) : option LineSpan :=
  match last orderedDefinitions with
  | None => None
  | Some lastDef =>
      let textAfter := textAfterDef doc lastDef in
      if isEmptyOrWhitespace textAfter then
        let prevDef := walkBackward lastDef (rev orderedDefinitions) in
        Some {| startLine := startLineOf prevDef; endLine := startLineOf lastDef |}
      else None
  end.

(** The forward loop of [#getDefinitionBlockGroups]: from the end of the
    group so far and the definitions that follow, the last member of the
    group and [definitions.slice(i + 1)]. *)
Fixpoint scanGroup (endDef : MdLinkDefinition) (following : list MdLinkDefinition)
  : MdLinkDefinition * list MdLinkDefinition :=
  match following with
  | [] => (endDef, [])
  | nextDef :: rest =>
      if startLineOf nextDef =? startLineOf endDef + 1
      then scanGroup nextDef rest
      else (endDef, following)
  end.

(** The generator [#getDefinitionBlockGroups], as the list of what it
    yields. *)
Equations? getDefinitionBlockGroups (definitions : list MdLinkDefinition)
  : list LineSpan by wf (length definitions) lt :=
  getDefinitionBlockGroups [] := [];
  getDefinitionBlockGroups (startDef :: following) :=
    {| startLine := startLineOf startDef;
       endLine := startLineOf (fst (scanGroup startDef following)) |}
    :: getDefinitionBlockGroups (snd (scanGroup startDef following)).
Proof.
  assert (shorter : forall e l, (length (snd (scanGroup e l)) <= length l)%nat).
  { intros e l; revert e; induction l as [|d l IH]; intros e; simpl; [lia|].
    destruct (startLineOf d =? startLineOf e + 1); simpl; [|lia].
    specialize (IH d); lia. }
  specialize (shorter startDef following). simpl. lia.
Qed.

(** [#getLastNonWhitespaceLine]; [None] stands for the failure of reading
    the last element of an empty array. *)
Definition getLastNonWhitespaceLine (doc : ITextDocument)
    (orderedDefinitions : list MdLinkDefinition) : option Z :=
  match last orderedDefinitions with
  | None => None
  | Some lastDef =>
      let textAfter := textAfterDef doc lastDef in
      let lines := splitLines textAfter in
      match findLastIndex (fun l => negb (isEmptyOrWhitespace l)) lines with
      | Some i => Some (startLineOf lastDef + 1 + Z.of_nat i)
      | None => Some (startLineOf lastDef)
      end
  end.

Section Organizer.

(** [String.prototype.localeCompare], the collation of the host. *)
Variable localeCompare : string -> string -> Z.

(** The deletion of one group: its lines, without the terminator of the
    last one. *)
Definition groupDeletion (doc : ITextDocument) (group : LineSpan) : lsp.TextEdit :=
  {| lsp.newText := "";
     lsp.range := lsp.Range.create (startLine group) 0
                    (endLine group) (Z.of_nat (String.length (getLine doc (endLine group)))) |}.

Definition groupIsOutsideBlock (existingDefBlockRange : option LineSpan)
    (group : LineSpan) : bool :=
  match existingDefBlockRange with
  | None => true
  | Some block => startLine group <? startLine block
  end.

Definition deletionEdits (doc : ITextDocument) (definitions : list MdLinkDefinition)
    (existingDefBlockRange : option LineSpan) : list lsp.TextEdit :=
  map (groupDeletion doc)
    (List.filter (groupIsOutsideBlock existingDefBlockRange)
       (getDefinitionBlockGroups definitions)).

Definition sortedDefs (definitions : list MdLinkDefinition) : list MdLinkDefinition :=
  sort (fun a b => localeCompare (text (ref a)) (text (ref b))) definitions.

(** The test of the filter: some link of kind Link has a reference href whose
    label is the very text of the definition's label. *)
Definition isReferenced (links : list MdLink) (def : MdLinkDefinition) : bool :=
  existsb (fun link =>
             MdLinkKind.eqb (kind link) MdLinkKind.Link &&
             match href link with
             | ReferenceHref r => String.eqb r (text (ref def))
             | _ => false
             end) links.

Definition newDefs (options : Options) (links : list MdLink)
    (definitions : list MdLinkDefinition) : list MdLinkDefinition :=
  List.filter (fun def => if negb (removeUnusedSet options) then true
                          else isReferenced links def)
    (sortedDefs definitions).

Definition renderDefinition (def : MdLinkDefinition) : string :=
  "[" ++ text (ref def) ++ "]: " ++ hrefText (source def).

Definition defBlock (defs : list MdLinkDefinition) : string :=
  String.concat newline (map renderDefinition defs).

(** [definitions.every((def, i) => def.ref === newDefs[i].ref)]; reading
    [ref] off a missing element fails in the source, which the length test
    before it excludes. *)
Definition sameRefs (definitions newDefs : list MdLinkDefinition) : bool :=
  every (fun def i => match nth_error newDefs i with
                      | Some other => bool_decide (ref def = ref other)
                      | None => false
                      end) definitions.

Definition getOrganizeLinkDefinitionEdits (doc : ITextDocument) (options : Options)
    (token : lsp.CancellationToken) (links : list MdLink) : list lsp.TextEdit :=
  if lsp.isCancellationRequested token then []
  else
    let definitions := List.filter isDefinition links in
    if (length definitions =? 0)%nat then []
    else
      let existingDefBlockRange := getExistingDefinitionBlock doc definitions in
      let edits := deletionEdits doc definitions existingDefBlockRange in
      let newDefs := newDefs options links definitions in
      let defBlock := defBlock newDefs in
      match existingDefBlockRange with
      | Some block =>
          let hasLeadingWhiteSpace :=
            (startLine block <=? 0)
            || isEmptyOrWhitespace (getLine doc (startLine block - 1)) in
          if (length edits =? 0)%nat
             && (length newDefs =? length definitions)%nat
             && sameRefs definitions newDefs
          then []
          else
            edits ++
            [ {| lsp.newText := (if hasLeadingWhiteSpace then "" else newline) ++ defBlock;
                 lsp.range := lsp.Range.create (startLine block) 0 (endLine block)
                                (Z.of_nat (String.length (getLine doc (endLine block)))) |} ]
      | None =>
          match getLastNonWhitespaceLine doc definitions with
          | Some line =>
              edits ++
              [ {| lsp.newText := (if line =? lineCount doc - 1
                                   then newline ++ newline else newline) ++ defBlock;
                   lsp.range := lsp.Range.create (line + 1) 0 (lineCount doc) 0 |} ]
          | None => []
          end
      end.

End Organizer.

End OrganizeLinkDefs.

(** ** Positions and the edit builder *)

(** Modelled from the spec: [comparePosition] of types/position, the order of
    positions by line and then by character, as a negative, zero or positive
    number. *)
Definition comparePosition (a b : lsp.Position) : Z :=
  if lsp.line a <? lsp.line b then -1
  else if lsp.line b <? lsp.line a then 1
  else if lsp.character a <? lsp.character b then -1
  else if lsp.character b <? lsp.character a then 1
  else 0.

(** Modelled from the spec: [translatePosition(pos, { characterDelta })] of
    types/position, the position moved along its line. *)
Definition translatePosition (pos : lsp.Position) (characterDelta : Z) : lsp.Position :=
  {| lsp.line := lsp.line pos; lsp.character := lsp.character pos + characterDelta |}.

(** Modelled from the spec: [WorkspaceEditBuilder] of util/editBuilder, which
    collects the text edits of each resource in the order they are added. *)
Module WorkspaceEditBuilder.
Abbreviation t := (gmap string (list lsp.TextEdit)) (only parsing).
Definition empty : t := ∅.
Definition addEdit (resource : string) (edit : lsp.TextEdit) (builder : t) : t :=
  <[resource := (default [] (builder !! resource) ++ [edit])%list]> builder.
Definition replace (resource : string) (range : lsp.Range) (newText : string)
  (builder : t) : t :=
  addEdit resource (lsp.TextEdit.replace range newText) builder.
Definition insert (resource : string) (position : lsp.Position) (newText : string)
  (builder : t) : t :=
  addEdit resource (lsp.TextEdit.insert position newText) builder.
Definition getEdit (builder : t) : t := builder.
End WorkspaceEditBuilder.

(** ** The definition set ([LinkDefinitionSet] of types/documentLink) *)

(** Modelled from the spec: labels are compared without regard to case and
    surrounding white space; the normal form of a label is its trimmed,
    lower-case text. *)
Definition normalizeRefName (label : string) : string := toLowerCase (trim label).

(** Modelled from the spec: the DefinitionSet is a map from normalized label
    to definition, with a lookup that normalizes the label it is given. *)
Module LinkDefinitionSet.
Abbreviation t := (gmap string MdLinkDefinition) (only parsing).
Definition lookup (name : string) (definitions : t) : option MdLinkDefinition :=
  definitions !! normalizeRefName name.
(** First occurrence wins. *)
Definition add (def : MdLinkDefinition) (definitions : t) : t :=
  match definitions !! normalizeRefName (text (ref def)) with
  | Some _ => definitions
  | None => <[normalizeRefName (text (ref def)) := def]> definitions
  end.
Definition ofLinks (links : list MdLink) : t :=
  fold_left (fun acc link =>
               if MdLinkKind.eqb (kind link) MdLinkKind.Definition_
               then add link acc else acc) links ∅.
End LinkDefinitionSet.

(** Modelled from the spec: the snapshot the link provider returns for a
    document, all its links and the definition set. *)
Record MdDocumentLinksInfo := mkLinksInfo
  { links : list MdLink;
    definitions : gmap string MdLinkDefinition }.

(** ** The extractor ([languageFeatures/codeActions/extractLinkDef]) *)

Module ExtractLinkDef.

(** [l10n.t(message)] without a language bundle is the message itself. *)
Definition genericTitle : string := "Extract to link definition".

Definition actionKind : string :=
  lsp.CodeActionKind.RefactorExtract ++ ".linkDefinition".

Definition notOnLinkAction : lsp.CodeAction :=
  {| lsp.title := genericTitle;
     lsp.kind := actionKind;
     lsp.disabled := Some "Not on link";
     lsp.edit := None;
     lsp.action_command := None |}.

Definition alreadyRefLinkAction : lsp.CodeAction :=
  {| lsp.title := genericTitle;
     lsp.kind := actionKind;
     lsp.disabled := Some "Link is already a reference";
     lsp.edit := None;
     lsp.action_command := None |}.

(** The text of [`${base}${i}`] for a counter: its decimal digits. *)
Definition decimal (i : nat) : string := NilEmpty.string_of_uint (Nat.to_uint i).

(** The name tried at step [i] of [#getPlaceholder]. *)
Definition placeholderName (i : nat) : string :=
  let base := "def" in
  if (i =? 1)%nat then base else base ++ decimal i.

(** The loop of [#getPlaceholder] from counter [i], cut after [fuel] steps. *)
Fixpoint searchPlaceholder (definitions : gmap string MdLinkDefinition)
    (fuel i : nat) : option string :=
  match fuel with
  | O => None
  | S fuel' =>
      let name := placeholderName i in
      match LinkDefinitionSet.lookup name definitions with
      | None => Some name
      | Some _ => searchPlaceholder definitions fuel' (S i)
      end
  end.

(** [#getPlaceholder]: the loop of the source has no bound; one step more
    than there are definitions is always enough ([searchPlaceholder_enough]
    below), and more steps never change the result. *)
Definition getPlaceholder (definitions : gmap string MdLinkDefinition) : option string :=
  searchPlaceholder definitions (S (size definitions)) 1.

Record NewDef := mkNewDef { definitionText : string; placeholder : string }.

Definition createAddDefinitionEdit (doc : ITextDocument)
    (existingDefinitions : list MdLinkDefinition) (newDefs : list NewDef) : lsp.TextEdit :=
  let defBlock := OrganizeLinkDefs.getExistingDefinitionBlock doc existingDefinitions in
  let newDefText :=
    String.concat newline
      (map (fun d => "[" ++ placeholder d ++ "]: " ++ definitionText d) newDefs) in
  match defBlock with
  | None =>
      lsp.TextEdit.insert {| lsp.line := lineCount doc; lsp.character := 0 |}
        (newline ++ newline ++ newDefText)
  | Some block =>
      let line := getLine doc (OrganizeLinkDefs.endLine block) in
      lsp.TextEdit.insert
        {| lsp.line := OrganizeLinkDefs.endLine block;
           lsp.character := Z.of_nat (String.length line) |}
        (newline ++ newDefText)
  end.

Definition getLinkTargetText (doc : ITextDocument) (link : MdLink) : string :=
  let afterHrefRange :=
    if MdLinkKind.eqb (kind link) MdLinkKind.AutoLink
    then targetRange (source link)
    else {| lsp.start := translatePosition (lsp.start (targetRange (source link))) 1;
            lsp.end_ := translatePosition (lsp.end_ (targetRange (source link))) (-1) |} in
  getText doc afterHrefRange.

Section Extractor.

(** Functions of modules that are not among the sources, taken as they
    are: [rangeIntersects] of types/range, [isSameResource] of util/path and
    [codeActionKindContains] of the code actions' util. *)
Variable rangeIntersects : lsp.Range -> lsp.Range -> bool.
Variable isSameResource : string -> string -> bool.
Variable codeActionKindContains : string -> string -> bool.

Definition isEnabled (context : lsp.CodeActionContext) : bool :=
  match lsp.only context with
  | None => true
  | Some only => existsb (fun kind => codeActionKindContains lsp.CodeActionKind.Refactor kind) only
  end.

Definition matchesHref (href0 : Href) (link : MdLink) : bool :=
  match href link, href0 with
  | ExternalHref linkUri, ExternalHref uri => isSameResource linkUri uri
  | InternalHref linkPath linkFragment, InternalHref path fragment =>
      isSameResource linkPath path && String.eqb linkFragment fragment
  | _, _ => false
  end.

(** One round of the loop that rewrites the occurrences of the target. *)
Definition rewriteOccurrence (resource placeholder : string) (targetLink : MdLink)
    (builder : gmap string (list lsp.TextEdit)) (link : MdLink)
  : gmap string (list lsp.TextEdit) :=
  if MdLinkKind.eqb (kind link) MdLinkKind.Link
     || MdLinkKind.eqb (kind link) MdLinkKind.AutoLink
  then
    if matchesHref (href targetLink) link then
      let targetRange :=
        if MdLinkKind.eqb (kind link) MdLinkKind.AutoLink
        then range (source link) else targetRange (source link) in
      WorkspaceEditBuilder.replace resource targetRange ("[" ++ placeholder ++ "]") builder
    else builder
  else builder.

(** [#getExtractLinkAction], for the placeholder that [#getPlaceholder]
    returned. *)
Definition extractLinkActionWith (doc : ITextDocument) (linkInfo : MdDocumentLinksInfo)
    (targetLink : MdLink) (placeholder : string) : lsp.CodeAction :=
  let builder := WorkspaceEditBuilder.empty in
  let resource := getDocUri doc in
  let builder :=
    fold_left (rewriteOccurrence resource placeholder targetLink) (links linkInfo) builder in
  let definitionText := trim (getLinkTargetText doc targetLink) in
  let definitions := List.filter OrganizeLinkDefs.isDefinition (links linkInfo) in
  let defEdit :=
    createAddDefinitionEdit doc definitions
      [ {| definitionText := definitionText; placeholder := placeholder |} ] in
  let builder :=
    WorkspaceEditBuilder.insert resource (lsp.start (lsp.range defEdit))
      (lsp.newText defEdit) builder in
  let renamePosition :=
    translatePosition (lsp.start (targetRange (source targetLink))) 1 in
  {| lsp.title := genericTitle;
     lsp.kind := actionKind;
     lsp.disabled := None;
     lsp.edit := Some (WorkspaceEditBuilder.getEdit builder);
     lsp.action_command :=
       Some {| lsp.command_title := "Rename";
               lsp.command := "vscodeMarkdownLanguageservice.rename";
               lsp.arguments := (getDocUri doc, renamePosition) |} |}.

(** [None] when the search for a placeholder did not end. *)
Definition getExtractLinkAction (doc : ITextDocument) (linkInfo : MdDocumentLinksInfo)
    (targetLink : MdLink) : option lsp.CodeAction :=
  match getPlaceholder (definitions linkInfo) with
  | Some placeholder => Some (extractLinkActionWith doc linkInfo targetLink placeholder)
  | None => None
  end.

Definition isInRange (range0 : lsp.Range) (link : MdLink) : bool :=
  negb (MdLinkKind.eqb (kind link) MdLinkKind.Definition_)
  && rangeIntersects range0 (range (source link)).

Definition isExtractable (link : MdLink) : bool :=
  HrefKind.eqb (href_kind (href link)) HrefKind.External
  || HrefKind.eqb (href_kind (href link)) HrefKind.Internal.

(** The comparator of [linksInRange.sort]: later starts first. *)
Definition byStartDescending (a b : MdLink) : Z :=
  comparePosition (lsp.start (range (source b))) (lsp.start (range (source a))).

(** [getActions]; the snapshot is the one the link provider returned for the
    document.  [None] when the search for a placeholder did not end. *)
Definition getActions (doc : ITextDocument) (range0 : lsp.Range)
    (context : lsp.CodeActionContext) (token : lsp.CancellationToken)
    (linkInfo : MdDocumentLinksInfo) : option (list lsp.CodeAction) :=
  if negb (isEnabled context) then Some []
  else if lsp.isCancellationRequested token then Some []
  else
    let linksInRange := List.filter (isInRange range0) (links linkInfo) in
    if (length linksInRange =? 0)%nat then Some [notOnLinkAction]
    else
      let linksInRange := sort byStartDescending linksInRange in
      match find isExtractable linksInRange with
      | None => Some [alreadyRefLinkAction]
      | Some targetLink =>
          match getExtractLinkAction doc linkInfo targetLink with
          | Some action => Some [action]
          | None => None
          end
      end.

End Extractor.

End ExtractLinkDef.

(** * Notions used in the statements *)

Fixpoint allChars (p : ascii -> bool) (s : string) : bool :=
  match s with
  | EmptyString => true
  | String c rest => p c && allChars p rest
  end.

(** A string without line terminators. *)
Definition noLineBreak (s : string) : bool :=
  allChars (fun c => negb (Ascii.eqb c LF) && negb (Ascii.eqb c CR)) s.

(** The lines of a document hold no line terminators, and their number is
    an unsigned integer of the protocol. *)
Definition wellFormedDocument (doc : ITextDocument) : Prop :=
  Forall (fun l => noLineBreak l = true) (lines doc)
  /\ lineCount doc <= maxLspUInt.

Definition isBlankLine (doc : ITextDocument) (line : Z) : bool :=
  isEmptyOrWhitespace (getLine doc line).

(** [x] may stand before [y]: the comparator does not put it above. *)
Definition notAbove {A : Type} (compareFn : A -> A -> Z) (x y : A) : Prop :=
  compareFn x y <= 0.

(** The comparator puts neither of the two above the other. *)
Definition comparesEqual {A : Type} (compareFn : A -> A -> Z) (x y : A) : bool :=
  (compareFn x y <=? 0) && (compareFn y x <=? 0).

(** What the language asks of [sort]: the result is in order, and the
    elements that compare equal, whichever they are, keep the order they had
    in the original array. *)
Definition stableArrangement {A : Type} (compareFn : A -> A -> Z)
    (original sorted : list A) : Prop :=
  Sorted (notAbove compareFn) sorted
  /\ forall x, List.filter (comparesEqual compareFn x) sorted
               = List.filter (comparesEqual compareFn x) original.

(** A comparator for the examples: the order of code units. *)
Definition codeUnitCompare (a b : string) : Z :=
  match String.compare a b with Lt => -1 | Eq => 0 | Gt => 1 end.

(** The order of two definitions by their labels under a collation. *)
Definition labelNotAbove (localeCompare : string -> string -> Z)
    (a b : MdLinkDefinition) : Prop :=
  notAbove (fun a b => localeCompare (text (ref a)) (text (ref b))) a b.

(** Some link of kind Link refers to the very text of the label of [def]. *)
Definition referencedExactly (links : list MdLink) (def : MdLinkDefinition) : Prop :=
  exists link, In link links /\ kind link = MdLinkKind.Link
               /\ href link = ReferenceHref (labelOf def).

(** Some link that is not a definition refers to a label with the normal form
    of the label of [def]. *)
Definition referencedNormalized (links : list MdLink) (def : MdLinkDefinition) : Prop :=
  exists link label, In link links /\ kind link <> MdLinkKind.Definition_
               /\ href link = ReferenceHref label
               /\ normalizeRefName label = normalizeRefName (labelOf def).

(** Each definition starts on the line after the one before it. *)
Fixpoint onConsecutiveLines (definitions : list MdLinkDefinition) : Prop :=
  match definitions with
  | [] => True
  | def :: rest =>
      match rest with
      | [] => True
      | nextDef :: _ => startLineOf nextDef = startLineOf def + 1
      end /\ onConsecutiveLines rest
  end.

(** Document order of definitions: each starts on a later line than the one
    before it. *)
Definition inDocumentOrder (definitions : list MdLinkDefinition) : Prop :=
  Sorted (fun a b => startLineOf a < startLineOf b) definitions.

(** The block locator in the words of its contract: from the line of the
    last definition, walk backward over the definitions before it while the
    start line of each is exactly one less than the start line of the next;
    the result is the start line of the earliest definition reached. *)
Fixpoint blockStartLine (nextLine : Z) (reversedBefore : list MdLinkDefinition) : Z :=
  match reversedBefore with
  | [] => nextLine
  | def :: rest =>
      if startLineOf def =? nextLine - 1
      then blockStartLine (startLineOf def) rest
      else nextLine
  end.

(** The groups of [#getDefinitionBlockGroups] computed in one pass, from the
    first and the last member of the group so far. *)
Fixpoint groupsInOnePass (startDef endDef : MdLinkDefinition)
    (following : list MdLinkDefinition) : list OrganizeLinkDefs.LineSpan :=
  match following with
  | [] => [ {| OrganizeLinkDefs.startLine := startLineOf startDef;
               OrganizeLinkDefs.endLine := startLineOf endDef |} ]
  | nextDef :: rest =>
      if startLineOf nextDef =? startLineOf endDef + 1
      then groupsInOnePass startDef nextDef rest
      else {| OrganizeLinkDefs.startLine := startLineOf startDef;
              OrganizeLinkDefs.endLine := startLineOf endDef |}
           :: groupsInOnePass nextDef nextDef rest
  end.


(** The order of positions. *)
Definition notAfter (a b : lsp.Position) : Prop := comparePosition a b <= 0.




(** A line lies within a span. *)
Definition spanHolds (g : OrganizeLinkDefs.LineSpan) (line : Z) : Prop :=
  OrganizeLinkDefs.startLine g <= line <= OrganizeLinkDefs.endLine g.

(** Two spans with a line between them that belongs to neither. *)
Definition spanApart (a b : OrganizeLinkDefs.LineSpan) : Prop :=
  OrganizeLinkDefs.endLine a + 1 < OrganizeLinkDefs.startLine b.

(** Some definition of the list starts on the line. *)
Definition isDefinitionLine (definitions : list MdLinkDefinition) (line : Z) : Prop :=
  exists d, In d definitions /\ startLineOf d = line.

(** The text after the last line of the last definition is blank. *)
Definition blankAfterLast (doc : ITextDocument) (definitions : list MdLinkDefinition)
  : Prop :=
  forall lastDef, last definitions = Some lastDef ->
    isEmptyOrWhitespace (OrganizeLinkDefs.textAfterDef doc lastDef) = true.

(** The definitions are in place already: a trailing block exists, no
    group lies outside it, and the kept definitions carry the labels of the
    definitions, the same objects in the same order. *)
Definition alreadyInPlace (doc : ITextDocument)
    (definitions kept : list MdLinkDefinition) : Prop :=
  is_Some (OrganizeLinkDefs.getExistingDefinitionBlock doc definitions)
  /\ OrganizeLinkDefs.deletionEdits doc definitions
       (OrganizeLinkDefs.getExistingDefinitionBlock doc definitions) = []
  /\ map ref kept = map ref definitions.

(** Modelled from the spec: the document after one edit is applied to it,
    the text before the range, the new text, and the text after the range. *)
Definition applyEdit (doc : ITextDocument) (edit : lsp.TextEdit) : ITextDocument :=
  let text := content doc in
  let s := offsetAt doc (lsp.start (lsp.range edit)) in
  let e := offsetAt doc (lsp.end_ (lsp.range edit)) in
  {| uri := uri doc;
     lines := splitLines (substring 0 s text ++ lsp.newText edit
                          ++ substring e (String.length text - e) text) |}.

(** Modelled from the spec: the edits of one call all refer to the document
    the snapshot was computed from; coming in the order of the document, they
    are applied from the last to the first, so that none moves the range of
    another. *)
Definition applyEdits (doc : ITextDocument) (edits : list lsp.TextEdit) : ITextDocument :=
  fold_right (fun edit changed => applyEdit changed edit) doc edits.

(** ** Notions for the extractor *)

(** A character that normalization leaves alone. *)
Definition isPlainChar (c : ascii) : bool :=
  negb (isWhitespaceChar c) && Ascii.eqb (toLowerChar c) c.

(** The links the rewriting loop looks at. *)
Definition isRewritable (link : MdLink) : bool :=
  MdLinkKind.eqb (kind link) MdLinkKind.Link
  || MdLinkKind.eqb (kind link) MdLinkKind.AutoLink.

(** The range the loop replaces for a link. *)
Definition rewrittenRange (link : MdLink) : lsp.Range :=
  if MdLinkKind.eqb (kind link) MdLinkKind.AutoLink
  then range (source link) else targetRange (source link).

(** A link goes where the target goes: both external with the same
    resource, or both internal with the same resource and the same
    fragment. *)
Definition sameDestination (isSameResource : string -> string -> bool)
    (href0 : Href) (link : MdLink) : Prop :=
  match href link, href0 with
  | ExternalHref linkUri, ExternalHref uri => isSameResource linkUri uri = true
  | InternalHref linkPath linkFragment, InternalHref path fragment =>
      isSameResource linkPath path = true /\ linkFragment = fragment
  | _, _ => False
  end.

(** Where the inserter puts new definitions. *)
Definition insertionPosition (doc : ITextDocument)
    (existingDefinitions : list MdLinkDefinition) : lsp.Position :=
  lsp.start (lsp.range (ExtractLinkDef.createAddDefinitionEdit doc existingDefinitions [])).

(** The links the loop rewrites for a target. *)
Definition isOccurrence (isSameResource : string -> string -> bool)
    (targetLink link : MdLink) : bool :=
  isRewritable link && ExtractLinkDef.matchesHref isSameResource (href targetLink) link.

(** The edit that puts the reference [[placeholder]] in place of a target. *)
Definition rewriteEdit (placeholder : string) (link : MdLink) : lsp.TextEdit :=
  lsp.TextEdit.replace (rewrittenRange link) ("[" ++ placeholder ++ "]").

(** The edits a builder holds for a resource. *)
Definition editsOf (resource : string) (builder : gmap string (list lsp.TextEdit))
  : list lsp.TextEdit :=
  default [] (builder !! resource).



(** Later starts first. *)
Definition startsNotBefore (a b : MdLink) : Prop :=
  notAfter (lsp.start (range (source b))) (lsp.start (range (source a))).

(** ** Sample documents *)

Module Samples.

Definition definitionAt (label hrefText : string) (startLine endLine : Z) : MdLink :=
  {| kind := MdLinkKind.Definition_;
     href := ExternalHref hrefText;
     source := {| range := lsp.Range.create startLine 0 endLine
                             (Z.of_nat (String.length hrefText));
                  targetRange := lsp.Range.create endLine 0 endLine
                                   (Z.of_nat (String.length hrefText));
                  hrefText := hrefText |};
     ref := {| text := label;
               ref_range := lsp.Range.create startLine 1 startLine
                              (1 + Z.of_nat (String.length label)) |} |}.

Definition referenceAt (label : string) (line startCharacter endCharacter : Z) : MdLink :=
  {| kind := MdLinkKind.Link;
     href := ReferenceHref label;
     source := {| range := lsp.Range.create line startCharacter line endCharacter;
                  targetRange := lsp.Range.create line startCharacter line endCharacter;
                  hrefText := label |};
     ref := {| text := ""; ref_range := lsp.Range.create 0 0 0 0 |} |}.

Definition inlineAt (href : Href) (hrefText : string)
    (line startCharacter targetCharacter endCharacter : Z) : MdLink :=
  {| kind := MdLinkKind.Link;
     href := href;
     source := {| range := lsp.Range.create line startCharacter line endCharacter;
                  targetRange := lsp.Range.create line targetCharacter line endCharacter;
                  hrefText := hrefText |};
     ref := {| text := ""; ref_range := lsp.Range.create 0 0 0 0 |} |}.

Definition notCancelled : lsp.CancellationToken :=
  {| lsp.isCancellationRequested := false |}.

Definition cancelled : lsp.CancellationToken :=
  {| lsp.isCancellationRequested := true |}.

(** A document whose definitions are already a sorted block at its end. *)
Definition organizedDoc : ITextDocument :=
  {| uri := "file:///organized.md";
     lines := ["See [one][a] and [two][b]."; "";
               "[a]: http://a.example"; "[b]: http://b.example"] |}.

Definition organizedLinks : list MdLink :=
  [ referenceAt "a" 0 4 12; referenceAt "b" 0 17 25;
    definitionAt "a" "http://a.example" 2 2;
    definitionAt "b" "http://b.example" 3 3 ].

(** A document with a definition above the text and one below it. *)
Definition scatteredDoc : ITextDocument :=
  {| uri := "file:///scattered.md";
     lines := ["[b]: http://b.example"; "text [x][a]"; "[a]: http://a.example"; ""] |}.

Definition scatteredLinks : list MdLink :=
  [ definitionAt "b" "http://b.example" 0 0;
    referenceAt "a" 1 5 11;
    definitionAt "a" "http://a.example" 2 2 ].

(** A definition written [Foo] and a reference written [foo]. *)
Definition mixedCaseDoc : ITextDocument :=
  {| uri := "file:///case.md";
     lines := ["See [site][foo]."; ""; "[Foo]: http://foo.example"] |}.

Definition mixedCaseDefinition : MdLink := definitionAt "Foo" "http://foo.example" 2 2.

Definition mixedCaseLinks : list MdLink :=
  [ referenceAt "foo" 0 4 15; mixedCaseDefinition ].

(** A definition written over two lines, with text after it. *)
Definition multiLineDoc : ITextDocument :=
  {| uri := "file:///multiline.md";
     lines := ["[a]:"; "  /url"; "text"; "more text"] |}.

Definition multiLineLinks : list MdLink := [ definitionAt "a" "/url" 0 1 ].

(** A definition written over two lines at the end of the document. *)
Definition trailingMultiLineDoc : ITextDocument :=
  {| uri := "file:///trailing.md";
     lines := ["See [site](/b.md)."; ""; "[a]:"; "  /url"] |}.

Definition trailingMultiLineDefinition : MdLink := definitionAt "a" "/url" 2 3.

Definition trailingMultiLineLinks : list MdLink :=
  [ inlineAt (InternalHref "/b.md" "") "/b.md" 0 4 10 17; trailingMultiLineDefinition ].

(** Two inline links to one destination, and no definition. *)
Definition twoLinksDoc : ITextDocument :=
  {| uri := "file:///two.md";
     lines := ["[a](http://x) and [b](http://x)"] |}.

Definition firstLink : MdLink := inlineAt (ExternalHref "http://x") "http://x" 0 0 3 13.
Definition secondLink : MdLink := inlineAt (ExternalHref "http://x") "http://x" 0 18 21 31.

Definition twoLinks : MdDocumentLinksInfo :=
  {| links := [firstLink; secondLink];
     definitions := LinkDefinitionSet.ofLinks [firstLink; secondLink] |}.

(** A set that holds [def] and [def2]. *)
Definition takenNames : gmap string MdLinkDefinition :=
  LinkDefinitionSet.ofLinks
    [ definitionAt "Def" "/one" 0 0; definitionAt "def2" "/two" 1 1 ].

(** The cursor, in the first link of [twoLinksDoc]. *)
Definition cursor : lsp.Range := lsp.Range.create 0 1 0 1.

Definition anyKind : lsp.CodeActionContext := {| lsp.only := None |}.

(** Modelled from the spec: [rangeIntersects] of types/range, true when
    neither range ends before the other starts. *)
Definition rangeIntersects (a b : lsp.Range) : bool :=
  negb (comparePosition (lsp.end_ a) (lsp.start b) <? 0)
  && negb (comparePosition (lsp.end_ b) (lsp.start a) <? 0).

(** Modelled from the spec: [codeActionKindContains] of the code actions'
    util, true when the kind is the parent kind or one below it. *)
Definition codeActionKindContains (parent kind : string) : bool :=
  String.eqb parent kind || String.prefix (parent ++ ".") kind.

(** Definitions in three groups, the last one at the end of the document. *)
Definition groupedDoc : ITextDocument :=
  {| uri := "file:///grouped.md";
     lines := ["[a]: /a"; "[b]: /b"; "text [x][c]"; "[d]: /d"; "";
               "[c]: /c"; "[e]: /e"] |}.

Definition groupedLinks : list MdLink :=
  [ definitionAt "a" "/a" 0 0; definitionAt "b" "/b" 1 1;
    referenceAt "c" 2 5 11;
    definitionAt "d" "/d" 3 3;
    definitionAt "c" "/c" 5 5; definitionAt "e" "/e" 6 6 ].

(** Two definitions of one label, with another between them. *)
Definition repeatedLabelLinks : list MdLink :=
  [ definitionAt "a" "/first" 0 0; definitionAt "b" "/other" 1 1;
    definitionAt "a" "/second" 2 2 ].

(** The scattered sample after the edits of the organizer. *)
Definition reorganizedDoc : ITextDocument :=
  {| uri := "file:///scattered.md";
     lines := [""; "text [x][a]"; "";
               "[a]: http://a.example"; "[b]: http://b.example"; ""] |}.

Definition reorganizedLinks : list MdLink :=
  [ referenceAt "a" 1 5 11;
    definitionAt "a" "http://a.example" 3 3;
    definitionAt "b" "http://b.example" 4 4 ].

(** Two definitions to add at once. *)
Definition twoNewDefs : list ExtractLinkDef.NewDef :=
  [ {| ExtractLinkDef.definitionText := "/one"; ExtractLinkDef.placeholder := "def" |};
    {| ExtractLinkDef.definitionText := "/two"; ExtractLinkDef.placeholder := "def2" |} ].

(** A last definition written over two lines, after a definition whose
    label sorts behind it. *)
Definition staleTailDoc : ITextDocument :=
  {| uri := "file:///tail.md"; lines := ["[b]: /b"; "[a]:"; "  /a"] |}.

Definition staleTailLinks : list MdLink :=
  [ definitionAt "b" "/b" 0 0; definitionAt "a" "/a" 1 2 ].

(** The definitions of that document once the edits of the organizer are
    applied: its lines are then [[a]: /a], [[b]: /b] and the line [  /a]
    that the edit left behind, which is no part of a definition. *)
Definition staleTailLinksAfter : list MdLink :=
  [ definitionAt "a" "/a" 0 0; definitionAt "b" "/b" 1 1 ].





(** Two inline links to one destination between two definitions. *)
Definition linkedDoc : ITextDocument :=
  {| uri := "file:///linked.md";
     lines := ["[b]: http://b.example"; "[one](http://x) and [two](http://x)";
               "[a]: http://a.example"; ""] |}.

Definition linkOne : MdLink := inlineAt (ExternalHref "http://x") "http://x" 1 0 5 15.
Definition linkTwo : MdLink := inlineAt (ExternalHref "http://x") "http://x" 1 20 25 35.

Definition linkedLinks : MdDocumentLinksInfo :=
  {| links := [ definitionAt "b" "http://b.example" 0 0; linkOne; linkTwo;
                definitionAt "a" "http://a.example" 2 2 ];
     definitions :=
       LinkDefinitionSet.ofLinks
         [ definitionAt "b" "http://b.example" 0 0; linkOne; linkTwo;
           definitionAt "a" "http://a.example" 2 2 ] |}.

End Samples.

(** * Properties *)

(** ** Strings and arrays *)

Lemma isEmptyOrWhitespace_app a b :
  isEmptyOrWhitespace (a ++ b) = isEmptyOrWhitespace a && isEmptyOrWhitespace b.
Proof.
  induction a as [|c a IH]; simpl; [reflexivity|].
  rewrite IH. apply andb_assoc.
Qed.

Lemma filter_length_eq {A : Type} (p : A -> bool) (l : list A) :
  length (List.filter p l) = length l -> List.filter p l = l.
Proof.
  induction l as [|x l IH]; simpl; [reflexivity|].
  pose proof (List.filter_length_le p l) as bound.
  destruct (p x); simpl; intros len.
  - f_equal. apply IH. lia.
  - lia.
Qed.

Lemma everyFrom_spec {A : Type} (f : A -> nat -> bool) (l : list A) (i : nat) :
  everyFrom f i l = true <->
  forall k x, nth_error l k = Some x -> f x (i + k)%nat = true.
Proof.
  revert i; induction l as [|y l IH]; intros i; simpl.
  - split; [intros _ [|k] x; discriminate | reflexivity].
  - rewrite andb_true_iff, IH. split.
    + intros [here later] [|k] x; simpl; intros found.
      * injection found as <-. now rewrite Nat.add_0_r.
      * rewrite <- Nat.add_succ_comm. now apply later.
    + intros all. split.
      * rewrite <- (Nat.add_0_r i). now apply (all O).
      * intros k x found. rewrite Nat.add_succ_comm. now apply (all (S k)).
Qed.

Section SortFacts.
Context {A : Type} (compareFn : A -> A -> Z).

Lemma insertSorted_perm x l : Permutation (x :: l) (insertSorted compareFn x l).
Proof.
  induction l as [|y l IH]; simpl; [reflexivity|].
  destruct (compareFn x y <=? 0); [reflexivity|].
  rewrite perm_swap. now constructor.
Qed.

Lemma sort_perm l : Permutation l (sort compareFn l).
Proof.
  induction l as [|x l IH]; simpl; [constructor|].
  rewrite <- insertSorted_perm. now constructor.
Qed.

Lemma sort_length l : length (sort compareFn l) = length l.
Proof. symmetry. apply Permutation_length, sort_perm. Qed.

Lemma sort_In x l : In x (sort compareFn l) <-> In x l.
Proof.
  split; apply Permutation_in; [symmetry|]; apply sort_perm.
Qed.

(** Sorting keeps an array that is already in order as it is: that is
    stability, elements that compare equal included. *)
Lemma sort_sorted_id l : Sorted (notAbove compareFn) l -> sort compareFn l = l.
Proof.
  induction 1 as [|x l sorted IH head]; simpl; [reflexivity|].
  rewrite IH. destruct head as [|y l le]; simpl; [reflexivity|].
  unfold notAbove in le. apply Z.leb_le in le. now rewrite le.
Qed.

Section Total.
Hypothesis compareFn_total : forall x y, compareFn x y <= 0 \/ compareFn y x <= 0.

Lemma insertSorted_sorted x l :
  Sorted (notAbove compareFn) l -> Sorted (notAbove compareFn) (insertSorted compareFn x l).
Proof.
  induction 1 as [|y l sorted IH head]; simpl.
  - repeat constructor.
  - destruct (compareFn x y <=? 0) eqn:cmp.
    + apply Z.leb_le in cmp. repeat constructor; assumption.
    + apply Z.leb_gt in cmp. constructor; [assumption|].
      assert (yx : notAbove compareFn y x) by (destruct (compareFn_total x y); [lia|assumption]).
      destruct head as [|z l yz]; simpl.
      * now constructor.
      * destruct (compareFn x z <=? 0); now constructor.
Qed.

Lemma sort_sorted l : Sorted (notAbove compareFn) (sort compareFn l).
Proof.
  induction l as [|x l IH]; simpl; [constructor|].
  now apply insertSorted_sorted.
Qed.

Hypothesis compareFn_trans :
  forall x y z, compareFn x y <= 0 -> compareFn y z <= 0 -> compareFn x z <= 0.

Lemma sort_strongly_sorted l : StronglySorted (notAbove compareFn) (sort compareFn l).
Proof.
  apply Sorted_StronglySorted; [|apply sort_sorted].
  intros x y z. apply compareFn_trans.
Qed.

Lemma insertSorted_classes x y l :
  List.filter (comparesEqual compareFn x) (insertSorted compareFn y l)
  = List.filter (comparesEqual compareFn x) (y :: l).
Proof.
  induction l as [|z l IH]; [reflexivity|].
  change (insertSorted compareFn y (z :: l))
    with (if compareFn y z <=? 0 then y :: z :: l else z :: insertSorted compareFn y l).
  destruct (Z.leb_spec (compareFn y z) 0) as [|above]; [reflexivity|].
  change (List.filter (comparesEqual compareFn x) (z :: insertSorted compareFn y l))
    with (if comparesEqual compareFn x z
          then z :: List.filter (comparesEqual compareFn x) (insertSorted compareFn y l)
          else List.filter (comparesEqual compareFn x) (insertSorted compareFn y l)).
  rewrite IH. simpl.
  destruct (comparesEqual compareFn x y) eqn:xy; [|reflexivity].
  destruct (comparesEqual compareFn x z) eqn:xz; [|reflexivity].
  unfold comparesEqual in xy, xz.
  apply andb_true_iff in xy as [_ yx], xz as [xz _].
  apply Z.leb_le in yx, xz. pose proof (compareFn_trans _ _ _ yx xz). lia.
Qed.

(** The sort is stable. *)
Lemma sort_stable l : stableArrangement compareFn l (sort compareFn l).
Proof.
  split; [apply sort_sorted|]. intros x.
  induction l as [|y l IH]; [reflexivity|].
  simpl sort. rewrite insertSorted_classes. simpl. now rewrite IH.
Qed.

Lemma comparesEqual_refl x : comparesEqual compareFn x x = true.
Proof.
  unfold comparesEqual. destruct (compareFn_total x x) as [le|le];
    apply Z.leb_le in le; now rewrite le.
Qed.

(** Two arrays in order with the same elements in each class of elements
    that compare equal, in the same order, are the same array. *)
Lemma sorted_classes_unique l1 l2 :
  Sorted (notAbove compareFn) l1 -> Sorted (notAbove compareFn) l2 ->
  (forall x, List.filter (comparesEqual compareFn x) l1
             = List.filter (comparesEqual compareFn x) l2) ->
  l1 = l2.
Proof.
  intros sorted1 sorted2.
  apply Sorted_StronglySorted in sorted1; [|intros x y z; apply compareFn_trans].
  apply Sorted_StronglySorted in sorted2; [|intros x y z; apply compareFn_trans].
  revert l2 sorted2.
  induction sorted1 as [|a t1 sorted1 IH least1]; intros l2 sorted2 classes.
  - destruct l2 as [|b t2]; [reflexivity|].
    specialize (classes b). simpl in classes.
    rewrite comparesEqual_refl in classes. discriminate.
  - destruct sorted2 as [|b t2 sorted2 least2].
    { specialize (classes a). simpl in classes.
      rewrite comparesEqual_refl in classes. discriminate. }
    assert (ba : compareFn b a <= 0).
    { assert (inside : In a (List.filter (comparesEqual compareFn a) (b :: t2))).
      { rewrite <- (classes a). simpl. rewrite comparesEqual_refl. now left. }
      apply List.filter_In in inside as [[<-|inside] _].
      - destruct (compareFn_total b b); assumption.
      - rewrite List.Forall_forall in least2. now apply least2. }
    assert (ab : compareFn a b <= 0).
    { assert (inside : In b (List.filter (comparesEqual compareFn b) (a :: t1))).
      { rewrite (classes b). simpl. rewrite comparesEqual_refl. now left. }
      apply List.filter_In in inside as [[<-|inside] _].
      - destruct (compareFn_total a a); assumption.
      - rewrite List.Forall_forall in least1. now apply least1. }
    assert (same : a = b).
    { pose proof (classes a) as atA. simpl in atA. rewrite comparesEqual_refl in atA.
      assert (equal : comparesEqual compareFn a b = true).
      { unfold comparesEqual. apply andb_true_iff. split; now apply Z.leb_le. }
      rewrite equal in atA. now injection atA. }
    subst b. f_equal. apply IH; [assumption|].
    intros x. specialize (classes x). simpl in classes.
    destruct (comparesEqual compareFn x a); [now injection classes|assumption].
Qed.

(** So the sort is the one arrangement the language allows. *)
Lemma sort_unique l sorted :
  stableArrangement compareFn l sorted -> sorted = sort compareFn l.
Proof.
  intros [inOrder classes]. apply sorted_classes_unique;
    [assumption|apply sort_sorted|].
  intros x. rewrite classes. symmetry. apply sort_stable.
Qed.

End Total.

End SortFacts.

Lemma StronglySorted_filter {A : Type} (R : A -> A -> Prop) (p : A -> bool) l :
  StronglySorted R l -> StronglySorted R (List.filter p l).
Proof.
  induction 1 as [|x l sorted IH all]; simpl; [constructor|].
  destruct (p x); [|assumption].
  constructor; [assumption|].
  rewrite List.Forall_forall in *. intros y iny. apply all.
  apply List.filter_In in iny. tauto.
Qed.

(** Order by a key depends on the keys only. *)
Lemma Sorted_same_keys {A K : Type} (R : K -> K -> Prop) (key : A -> K) l l' :
  map key l = map key l' ->
  Sorted (fun a b => R (key a) (key b)) l ->
  Sorted (fun a b => R (key a) (key b)) l'.
Proof.
  intros same sorted. revert l' same.
  induction sorted as [|x l sorted IH head]; intros [|x' l'] same;
    try discriminate; [constructor|].
  simpl in same. injection same as kx kl.
  constructor; [now apply IH|].
  destruct head as [|y l xy]; destruct l' as [|y' l'']; try discriminate;
    constructor.
  simpl in kl. injection kl as ky _. now rewrite <- kx, <- ky.
Qed.

Lemma codeUnitCompare_le a b :
  codeUnitCompare a b <= 0 <-> String.compare a b <> Gt.
Proof. unfold codeUnitCompare. destruct (String.compare a b); split; (lia || congruence). Qed.

Lemma codeUnitCompare_total a b :
  codeUnitCompare a b <= 0 \/ codeUnitCompare b a <= 0.
Proof.
  rewrite !codeUnitCompare_le, (String.compare_antisym a b).
  destruct (String.compare b a); simpl; (left; congruence) || (right; congruence).
Qed.

Lemma codeUnitCompare_trans a b c :
  codeUnitCompare a b <= 0 -> codeUnitCompare b c <= 0 -> codeUnitCompare a c <= 0.
Proof.
  rewrite !codeUnitCompare_le. revert b c.
  induction a as [|x a IH]; intros [|y b] [|z c]; simpl; try congruence.
  unfold Ascii.compare.
  destruct (N.compare_spec (N_of_ascii x) (N_of_ascii y)) as [xy|xy|xy];
    destruct (N.compare_spec (N_of_ascii y) (N_of_ascii z)) as [yz|yz|yz];
    try congruence.
  - rewrite xy, yz, N.compare_refl. apply IH.
  - intros _ _. rewrite xy. apply N.compare_lt_iff in yz. now rewrite yz.
  - intros _ _. rewrite <- yz. apply N.compare_lt_iff in xy. now rewrite xy.
  - intros _ _. assert (xz : (N_of_ascii x < N_of_ascii z)%N) by lia.
    apply N.compare_lt_iff in xz. now rewrite xz.
Qed.

(** ** The text of a document and its lines *)

Section DocumentFacts.

Lemma substring_all s : substring 0 (String.length s) s = s.
Proof. induction s as [|c s IH]; simpl; [reflexivity|]. now rewrite IH. Qed.

Lemma substring_none n s : substring n 0 s = "".
Proof.
  revert s; induction n as [|n IH]; intros [|c s]; simpl; try reflexivity. apply IH.
Qed.

Lemma substring_skip a b n m :
  substring (String.length a + n) m (a ++ b) = substring n m b.
Proof. induction a as [|c a IH]; simpl; [reflexivity|]. apply IH. Qed.

Lemma string_length_app a b :
  String.length (a ++ b) = (String.length a + String.length b)%nat.
Proof. induction a as [|c a IH]; simpl; [reflexivity|]. now rewrite IH. Qed.

Lemma string_app_assoc (a b c : string) : (a ++ b) ++ c = a ++ b ++ c.
Proof.
  induction a as [|x a IH]; [reflexivity|].
  change (String x ((a ++ b) ++ c) = String x (a ++ b ++ c)). now rewrite IH.
Qed.

Lemma concat_cons x y rest :
  String.concat newline (x :: y :: rest)
  = x ++ newline ++ String.concat newline (y :: rest).
Proof. reflexivity. Qed.

(** The text from the start of a line to the end is the remaining lines
    joined. *)
Lemma substring_from_line ls n :
  (n < length ls)%nat ->
  substring (lineOffset ls n)
    (String.length (String.concat newline ls) - lineOffset ls n)
    (String.concat newline ls)
  = String.concat newline (skipn n ls).
Proof.
  revert ls; induction n as [|n IH]; intros ls inside.
  - destruct ls; simpl lineOffset; simpl skipn; rewrite Nat.sub_0_r; apply substring_all.
  - destruct ls as [|x [|y rest]]; simpl in inside; try lia.
    assert (text : String.concat newline (x :: y :: rest)
                   = (x ++ newline) ++ String.concat newline (y :: rest)).
    { rewrite concat_cons. symmetry. apply string_app_assoc. }
    assert (offset : lineOffset (x :: y :: rest) (S n)
                     = (String.length (x ++ newline) + lineOffset (y :: rest) n)%nat).
    { rewrite string_length_app. reflexivity. }
    rewrite text, offset, substring_skip.
    change (skipn (S n) (x :: y :: rest)) with (skipn n (y :: rest)).
    rewrite <- (IH (y :: rest)) by (simpl; lia).
    f_equal. rewrite (string_length_app (x ++ newline)). lia.
Qed.

Lemma getText_from_line doc line :
  0 <= line -> lineCount doc <= maxLspUInt ->
  getText doc (lsp.Range.create line 0 maxLspUInt 0)
  = String.concat newline (skipn (Z.to_nat line) (lines doc)).
Proof.
  intros nonNegative small. unfold getText, offsetAt. simpl.
  destruct (Z.leb_spec (lineCount doc) maxLspUInt) as [_|]; [|lia].
  unfold lineCount in *.
  destruct (Z.leb_spec (Z.of_nat (length (lines doc))) line) as [past|inside].
  - rewrite Nat.sub_diag, substring_none.
    rewrite skipn_all2 by lia. reflexivity.
  - destruct (Z.ltb_spec line 0) as [|_]; [lia|].
    rewrite Nat.add_0_r. apply substring_from_line. lia.
Qed.

Lemma splitLines_one s : noLineBreak s = true -> splitLines s = [s].
Proof.
  induction s as [|c s IH]; simpl; [reflexivity|].
  intros plain. apply andb_true_iff in plain as [here rest].
  apply andb_true_iff in here as [notLF notCR].
  apply negb_true_iff in notLF, notCR. rewrite notLF, notCR. simpl.
  fold (noLineBreak s) in rest. rewrite (IH rest). now destruct s.
Qed.

Lemma splitLines_line s t :
  noLineBreak s = true ->
  splitLines (s ++ newline ++ t) = s :: splitLines t.
Proof.
  induction s as [|c s IH]; simpl; [reflexivity|].
  intros plain. apply andb_true_iff in plain as [here rest].
  apply andb_true_iff in here as [notLF notCR].
  apply negb_true_iff in notLF, notCR. rewrite notLF, notCR. simpl.
  fold (noLineBreak s) in rest. rewrite (IH rest).
  destruct (s ++ newline ++ t) eqn:shape; [|reflexivity].
  destruct s; cbv [String.append newline] in shape; discriminate.
Qed.

Lemma splitLines_concat ls :
  ls <> [] -> Forall (fun l => noLineBreak l = true) ls ->
  splitLines (String.concat newline ls) = ls.
Proof.
  intros nonEmpty plain. induction plain as [|x ls px plain IH]; [congruence|].
  destruct ls as [|y rest].
  - simpl. now apply splitLines_one.
  - rewrite concat_cons, splitLines_line by assumption.
    f_equal. apply IH. discriminate.
Qed.

Lemma isEmptyOrWhitespace_concat ls :
  isEmptyOrWhitespace (String.concat newline ls) = forallb isEmptyOrWhitespace ls.
Proof.
  induction ls as [|x [|y rest] IH]; [reflexivity| |].
  - simpl. now rewrite andb_true_r.
  - rewrite concat_cons, !isEmptyOrWhitespace_app, IH. reflexivity.
Qed.

(** What [findLastIndex] finds: the element at the index satisfies the test
    and no later one does. *)
Lemma findLastIndex_Some {A : Type} (p : A -> bool) l i :
  findLastIndex p l = Some i ->
  (i < length l)%nat
  /\ (exists x, nth_error l i = Some x /\ p x = true)
  /\ forall j x, (i < j)%nat -> nth_error l j = Some x -> p x = false.
Proof.
  revert i; induction l as [|y l IH]; intros i; simpl; [discriminate|].
  destruct (findLastIndex p l) as [k|] eqn:later.
  - intros [= <-]. destruct (IH k eq_refl) as (bound & (x & found & px) & none).
    split; [lia|]. split; [now exists x|].
    intros [|j] z lt; [lia|]. simpl. apply none. lia.
  - destruct (p y) eqn:py; [|discriminate]. intros [= <-].
    split; [lia|]. split; [now exists y|].
    intros [|j] z lt; [lia|]. simpl. intros found.
    clear IH. revert j lt found later. clear. revert z.
    induction l as [|w l IH]; intros z j lt found; [destruct j; discriminate|].
    simpl. destruct (findLastIndex p l) as [k|] eqn:deeper; [discriminate|].
    destruct (p w) eqn:pw; [discriminate|]. intros _.
    destruct j as [|j]; simpl in found; [now injection found as <-|].
    apply (IH z j); [lia|assumption|reflexivity].
Qed.

Lemma findLastIndex_None {A : Type} (p : A -> bool) l :
  findLastIndex p l = None <-> forallb (fun x => negb (p x)) l = true.
Proof.
  induction l as [|y l IH]; simpl; [tauto|].
  destruct (findLastIndex p l) as [k|].
  - split; [discriminate|]. intros all. apply andb_true_iff in all as [_ rest].
    apply IH in rest. discriminate.
  - destruct (p y); simpl; [split; discriminate|]. tauto.
Qed.

End DocumentFacts.

(** ** The organizer: what is kept, and in which order *)

Section OrganizerOrder.
Import OrganizeLinkDefs.

Variable localeCompare : string -> string -> Z.



Lemma isReferenced_spec links def :
  isReferenced links def = true <-> referencedExactly links def.
Proof.
  unfold isReferenced, referencedExactly, labelOf.
  rewrite existsb_exists. split.
  - intros (link & inl & test). exists link.
    apply andb_true_iff in test as [k h].
    destruct (kind link); try discriminate.
    destruct (href link) as [| |r]; try discriminate.
    apply String.eqb_eq in h. now subst.
  - intros (link & inl & k & h). exists link. split; [assumption|].
    rewrite k, h. simpl. apply String.eqb_refl.
Qed.

(** The edits of the organizer, when there are any, are deletions followed
    by one edit that carries the rendered block. *)
Lemma organizer_edits_shape doc options token links :
  let definitions := List.filter isDefinition links in
  let kept := newDefs localeCompare options links definitions in
  getOrganizeLinkDefinitionEdits localeCompare doc options token links = []
  \/ exists deletions prefix r,
       getOrganizeLinkDefinitionEdits localeCompare doc options token links
       = (deletions ++ [ {| lsp.newText := prefix ++ defBlock kept; lsp.range := r |} ])%list
       /\ Forall (fun e => lsp.newText e = "") deletions
       /\ (prefix = "" \/ prefix = newline \/ prefix = newline ++ newline).
Proof.
  intros definitions kept. unfold getOrganizeLinkDefinitionEdits.
  fold definitions. fold kept.
  destruct (lsp.isCancellationRequested token); [now left|].
  destruct (length definitions =? 0)%nat; [now left|].
  assert (deletions : forall block,
             Forall (fun e => lsp.newText e = "") (deletionEdits doc definitions block)).
  { intros block. unfold deletionEdits. apply List.Forall_forall. intros e ine.
    apply in_map_iff in ine as (g & <- & _). reflexivity. }
  destruct (getExistingDefinitionBlock doc definitions) as [block|] eqn:located.
  - match goal with |- context [if ?c then [] else _] => destruct c end; [now left|].
    right. eexists _, _, _. split; [reflexivity|]. split; [apply deletions|].
    destruct (_ || _); auto.
  - destruct (getLastNonWhitespaceLine doc definitions) as [line|]; [|now left].
    right. eexists _, _, _. split; [reflexivity|]. split; [apply deletions|].
    destruct (line =? lineCount doc - 1); auto.
Qed.

Lemma sameRefs_refl definitions : sameRefs definitions definitions = true.
Proof.
  unfold sameRefs, every. apply everyFrom_spec. intros k x found. simpl.
  rewrite found. now apply bool_decide_eq_true.
Qed.

(** The no-op test succeeds when nothing is to be deleted and the sorted,
    filtered list is the list of definitions itself. *)
Lemma organizer_noop doc options token links :
  let definitions := List.filter isDefinition links in
  is_Some (getExistingDefinitionBlock doc definitions) ->
  deletionEdits doc definitions (getExistingDefinitionBlock doc definitions) = [] ->
  newDefs localeCompare options links definitions = definitions ->
  getOrganizeLinkDefinitionEdits localeCompare doc options token links = [].
Proof.
  intros definitions [block located] none same.
  unfold getOrganizeLinkDefinitionEdits. fold definitions.
  destruct (lsp.isCancellationRequested token); [reflexivity|].
  destruct (length definitions =? 0)%nat; [reflexivity|].
  rewrite located in *. rewrite none, same. simpl.
  rewrite Nat.eqb_refl, sameRefs_refl. reflexivity.
Qed.

Hypothesis localeCompare_total :
  forall a b, localeCompare a b <= 0 \/ localeCompare b a <= 0.

(** An array whose labels are in order is kept by the sort. *)
Lemma sortedDefs_same_labels definitions :
  map labelOf (sortedDefs localeCompare definitions) = map labelOf definitions ->
  sortedDefs localeCompare definitions = definitions.
Proof.
  intros same. unfold sortedDefs. apply sort_sorted_id.
  apply (Sorted_same_keys (notAbove localeCompare) labelOf _ _ same).
  apply (sort_sorted (fun a b => localeCompare (text (ref a)) (text (ref b)))).
  intros x y. apply localeCompare_total.
Qed.

(** No-op detection of the organizer: when a trailing block exists, no
    deletion was queued, and the list that is kept after sorting and
    filtering has the length of the list of definitions and carries the same
    labels in the same order, [getOrganizeLinkDefinitionEdits] returns no edit
    at all. *)
Theorem organizer_noop_when_already_organized doc options token links :
  let definitions := List.filter isDefinition links in
  let kept := newDefs localeCompare options links definitions in
  is_Some (getExistingDefinitionBlock doc definitions) ->
  deletionEdits doc definitions (getExistingDefinitionBlock doc definitions) = [] ->
  length kept = length definitions ->
  map labelOf kept = map labelOf definitions ->
  getOrganizeLinkDefinitionEdits localeCompare doc options token links = [].
Proof.
  intros definitions kept located none len labels.
  apply organizer_noop; [assumption..|]. fold definitions. fold kept.
  assert (all : kept = sortedDefs localeCompare definitions).
  { apply filter_length_eq. fold (newDefs localeCompare options links definitions).
    fold kept. rewrite len. unfold sortedDefs. now rewrite sort_length. }
  rewrite all. apply sortedDefs_same_labels. now rewrite <- all.
Qed.

Hypothesis localeCompare_trans :
  forall a b c, localeCompare a b <= 0 -> localeCompare b c <= 0 -> localeCompare a c <= 0.

Lemma newDefs_sorted options links definitions :
  StronglySorted (labelNotAbove localeCompare)
    (newDefs localeCompare options links definitions).
Proof.
  unfold newDefs, sortedDefs. apply StronglySorted_filter.
  apply (sort_strongly_sorted (fun a b => localeCompare (text (ref a)) (text (ref b)))).
  - intros x y. apply localeCompare_total.
  - intros x y z. apply localeCompare_trans.
Qed.

End OrganizerOrder.

(** ** The block locator and the groups *)

Section BlockFacts.
Import OrganizeLinkDefs.

Lemma comparePosition_le a b :
  notAfter a b <->
  lsp.line a < lsp.line b
  \/ (lsp.line a = lsp.line b /\ lsp.character a <= lsp.character b).
Proof.
  unfold notAfter, comparePosition.
  destruct (Z.ltb_spec (lsp.line a) (lsp.line b)); [lia|].
  destruct (Z.ltb_spec (lsp.line b) (lsp.line a)); [lia|].
  destruct (Z.ltb_spec (lsp.character a) (lsp.character b)); [lia|].
  destruct (Z.ltb_spec (lsp.character b) (lsp.character a)); lia.
Qed.

Lemma notAfter_trans a b c : notAfter a b -> notAfter b c -> notAfter a c.
Proof. rewrite !comparePosition_le. lia. Qed.

Lemma inDocumentOrder_strong definitions :
  inDocumentOrder definitions ->
  StronglySorted (fun a b => startLineOf a < startLineOf b) definitions.
Proof.
  apply Sorted_StronglySorted. intros a b c. lia.
Qed.

Lemma inDocumentOrder_tail def definitions :
  inDocumentOrder (def :: definitions) -> inDocumentOrder definitions.
Proof. intros ordered. now inversion ordered. Qed.

Lemma scanGroup_one_pass s e following :
  {| startLine := startLineOf s;
     endLine := startLineOf (fst (scanGroup e following)) |}
  :: getDefinitionBlockGroups (snd (scanGroup e following))
  = groupsInOnePass s e following.
Proof.
  revert s e; induction following as [|n r IH]; intros s e; simpl.
  - now rewrite getDefinitionBlockGroups_equation_1.
  - destruct (startLineOf n =? startLineOf e + 1).
    + apply IH.
    + simpl. rewrite getDefinitionBlockGroups_equation_2. now rewrite IH.
Qed.

(** The generator yields what the single pass computes. *)
Lemma getDefinitionBlockGroups_one_pass startDef following :
  getDefinitionBlockGroups (startDef :: following)
  = groupsInOnePass startDef startDef following.
Proof.
  rewrite getDefinitionBlockGroups_equation_2. apply scanGroup_one_pass.
Qed.

(** Every line of a group is the start line of a definition. *)
Lemma groupsInOnePass_covered (isLine : Z -> Prop) s e following :
  (forall x, startLineOf s <= x <= startLineOf e -> isLine x) ->
  (forall d, In d following -> isLine (startLineOf d)) ->
  forall g, In g (groupsInOnePass s e following) ->
  forall x, startLine g <= x <= endLine g -> isLine x.
Proof.
  revert s e; induction following as [|n r IH]; intros s e run rest g; simpl.
  - intros [<-|[]]; simpl. apply run.
  - destruct (Z.eqb_spec (startLineOf n) (startLineOf e + 1)) as [next|gap].
    + apply IH.
      * intros x bounds.
        destruct (Z.eq_dec x (startLineOf n)) as [->|]; [apply rest; now left|].
        apply run. lia.
      * intros d ind. apply rest. now right.
    + intros [<-|later]; simpl; [apply run|].
      revert later. apply IH.
      * intros x bounds. replace x with (startLineOf n) by lia. apply rest. now left.
      * intros d ind. apply rest. now right.
Qed.


(** The backward walk along definitions on descending lines: it yields what
    the contract describes, no definition starts on the line above the block,
    and the block starts no later than it ends. *)
Lemma walkBackward_descending prevDef reversed :
  Sorted (fun a b => startLineOf b < startLineOf a) (prevDef :: reversed) ->
  startLineOf (walkBackward prevDef reversed)
  = blockStartLine (startLineOf prevDef) reversed
  /\ startLineOf (walkBackward prevDef reversed) <= startLineOf prevDef
  /\ forall d, In d reversed ->
       startLineOf d <> startLineOf (walkBackward prevDef reversed) - 1.
Proof.
  revert prevDef; induction reversed as [|d rest IH]; intros p sorted; simpl.
  - repeat split; (lia || intros ? []).
  - assert (dp : startLineOf d < startLineOf p).
    { inversion sorted as [|? ? ? head]; subst. now inversion head. }
    assert (tailSorted : Sorted (fun a b => startLineOf b < startLineOf a) (d :: rest))
      by now inversion sorted.
    assert (below : forall x, In x rest -> startLineOf x < startLineOf d).
    { apply Sorted_StronglySorted in tailSorted; [|intros a b c; lia].
      inversion tailSorted as [|? ? ? all]; subst.
      now rewrite List.Forall_forall in all. }
    destruct (Z.ltb_spec (startLineOf d) (startLineOf p - 1)) as [gap|near];
      destruct (Z.eqb_spec (startLineOf d) (startLineOf p - 1)); try lia.
    + repeat split; try lia. intros x [<-|inx]; [lia|]. apply below in inx. lia.
    + destruct (IH d tailSorted) as (same & le & free).
      repeat split; [assumption|lia|].
      intros x [<-|inx]; [lia|]. now apply free.
Qed.

Lemma inDocumentOrder_rev definitions :
  inDocumentOrder definitions ->
  Sorted (fun a b => startLineOf b < startLineOf a) (rev definitions).
Proof.
  intros ordered. apply inDocumentOrder_strong in ordered.
  apply StronglySorted_Sorted.
  induction ordered as [|d l sorted IH all]; simpl; [constructor|].
  clear sorted. revert IH. generalize (rev_involutive l).
  assert (allRev : Forall (fun b => startLineOf d < startLineOf b) (rev l)).
  { apply List.Forall_forall. intros x inx. rewrite List.Forall_forall in all.
    apply all. now apply in_rev. }
  clear all. intros _. induction (rev l) as [|y m IHm]; simpl; intros sorted.
  - repeat constructor.
  - inversion sorted as [|? ? tailSorted allBelow]; subst.
    inversion allRev as [|? ? dy allRev']; subst.
    constructor; [now apply IHm|].
    apply List.Forall_forall. intros x inx. apply in_app_or in inx as [inx|[<-|[]]].
    + rewrite List.Forall_forall in allBelow. now apply allBelow.
    + assumption.
Qed.

(** What the locator returns on definitions in document order. *)
Lemma getExistingDefinitionBlock_ordered doc before lastDef :
  inDocumentOrder (before ++ [lastDef]) ->
  isEmptyOrWhitespace (textAfterDef doc lastDef) = true ->
  exists block,
    getExistingDefinitionBlock doc (before ++ [lastDef]) = Some block
    /\ startLine block = blockStartLine (startLineOf lastDef) (rev before)
    /\ endLine block = startLineOf lastDef
    /\ startLine block <= endLine block
    /\ forall d, In d (before ++ [lastDef]) -> startLineOf d <> startLine block - 1.
Proof.
  intros ordered blank. unfold getExistingDefinitionBlock.
  rewrite last_snoc, blank, rev_unit. simpl.
  destruct (Z.ltb_spec (startLineOf lastDef) (startLineOf lastDef - 1)); [lia|].
  apply inDocumentOrder_rev in ordered. rewrite rev_unit in ordered.
  destruct (walkBackward_descending lastDef (rev before) ordered) as (same & le & free).
  eexists. split; [reflexivity|]. simpl. repeat split; try assumption.
  intros d ind. apply in_app_or in ind as [ind|[<-|[]]]; [|lia].
  apply free. now apply in_rev in ind.
Qed.

End BlockFacts.

Section LocatorContract.
Import OrganizeLinkDefs.

(** C4. Contract of the block locator, for definitions in document order:
    an empty list gives no block; when the text after the last definition
    holds something other than white space there is no block; otherwise the
    block ends on the start line of the last definition and starts on the
    start line of the earliest definition reached by walking backward while
    each start line is exactly one less than the next; a single definition
    with a blank tail is a block of one line. *)
Theorem getExistingDefinitionBlock_contract doc orderedDefinitions :
  inDocumentOrder orderedDefinitions ->
  getExistingDefinitionBlock doc [] = None
  /\ (forall lastDef,
        last orderedDefinitions = Some lastDef ->
        isEmptyOrWhitespace (textAfterDef doc lastDef) = false ->
        getExistingDefinitionBlock doc orderedDefinitions = None)
  /\ (forall lastDef,
        last orderedDefinitions = Some lastDef ->
        isEmptyOrWhitespace (textAfterDef doc lastDef) = true ->
        getExistingDefinitionBlock doc orderedDefinitions
        = Some {| startLine :=
                    blockStartLine (startLineOf lastDef) (tail (rev orderedDefinitions));
                  endLine := startLineOf lastDef |})
  /\ (forall def,
        isEmptyOrWhitespace (textAfterDef doc def) = true ->
        getExistingDefinitionBlock doc [def]
        = Some {| startLine := startLineOf def; endLine := startLineOf def |}).
Proof.
  intros ordered. split; [reflexivity|]. split; [|split].
  - intros lastDef isLast text. unfold getExistingDefinitionBlock.
    now rewrite isLast, text.
  - intros lastDef isLast blank.
    apply last_Some in isLast as [before ->].
    destruct (getExistingDefinitionBlock_ordered doc before lastDef ordered blank)
      as ([s e] & located & starts & ends & _).
    simpl in *. rewrite located, rev_unit. simpl. now subst.
  - intros def blank. unfold getExistingDefinitionBlock. simpl. rewrite blank.
    destruct (Z.ltb_spec (startLineOf def) (startLineOf def - 1)); [lia|reflexivity].
Qed.

End LocatorContract.

(** ** The edits of the organizer do not overlap *)

Section OrganizerEdits.
Import OrganizeLinkDefs.

Variable localeCompare : string -> string -> Z.




Lemma getLastNonWhitespaceLine_snoc doc before lastDef :
  exists line,
    getLastNonWhitespaceLine doc (before ++ [lastDef]) = Some line
    /\ startLineOf lastDef <= line.
Proof.
  unfold getLastNonWhitespaceLine. rewrite last_snoc.
  destruct (findLastIndex _ _) as [i|]; eexists; (split; [reflexivity|lia]).
Qed.




End OrganizerEdits.

(** ** The placeholder *)

Section PlaceholderFacts.
Import ExtractLinkDef.

Lemma trimEnd_plain s :
  allChars (fun c => negb (isWhitespaceChar c)) s = true -> trimEnd s = s.
Proof.
  induction s as [|c s IH]; simpl; [reflexivity|].
  intros plain. apply andb_true_iff in plain as [notWs rest].
  rewrite (IH rest). apply negb_true_iff in notWs. rewrite notWs.
  now destruct s.
Qed.

Lemma normalizeRefName_plain s :
  allChars isPlainChar s = true -> normalizeRefName s = s.
Proof.
  intros plain. unfold normalizeRefName, trim.
  assert (noWs : allChars (fun c => negb (isWhitespaceChar c)) s = true).
  { induction s as [|c s IH]; simpl in *; [reflexivity|].
    apply andb_true_iff in plain as [here rest].
    apply andb_true_iff in here as [-> _]. now apply IH. }
  assert (start : trimStart s = s).
  { destruct s as [|c s]; simpl in *; [reflexivity|].
    apply andb_true_iff in noWs as [notWs _].
    apply negb_true_iff in notWs. now rewrite notWs. }
  rewrite start, (trimEnd_plain s noWs).
  clear noWs start. induction s as [|c s IH]; simpl in *; [reflexivity|].
  apply andb_true_iff in plain as [here rest].
  apply andb_true_iff in here as [_ low]. apply Ascii.eqb_eq in low.
  now rewrite low, IH.
Qed.

Lemma allChars_app p a b :
  allChars p (a ++ b) = allChars p a && allChars p b.
Proof.
  induction a as [|c a IH]; simpl; [reflexivity|].
  rewrite IH. apply andb_assoc.
Qed.

Lemma decimal_plain i : allChars isPlainChar (decimal i) = true.
Proof.
  unfold decimal. induction (Nat.to_uint i) as [|d IH|d IH|d IH|d IH|d IH|d IH|d IH|d IH|d IH|d IH];
    simpl; [reflexivity|exact IH..].
Qed.

Lemma placeholderName_normal i :
  normalizeRefName (placeholderName i) = placeholderName i.
Proof.
  apply normalizeRefName_plain. unfold placeholderName.
  destruct (i =? 1)%nat; [reflexivity|].
  rewrite allChars_app, decimal_plain. reflexivity.
Qed.

Lemma decimal_inj i j : decimal i = decimal j -> i = j.
Proof.
  unfold decimal. intros same. apply Unsigned.to_uint_inj.
  apply (f_equal NilEmpty.uint_of_string) in same.
  rewrite !NilEmpty.usu in same. congruence.
Qed.

Lemma decimal_nonempty i : decimal i <> "".
Proof.
  unfold decimal. intros empty.
  assert (isNil : Nat.to_uint i = Decimal.Nil).
  { destruct (Nat.to_uint i); simpl in empty; congruence. }
  assert (zero : i = O).
  { rewrite <- (Unsigned.of_to i), isNil. reflexivity. }
  subst i. discriminate.
Qed.

Lemma app_inv_head_string a b c : a ++ b = a ++ c -> b = c.
Proof. induction a as [|x a IH]; simpl; [trivial|]. intros [= same]. auto. Qed.

Lemma placeholderName_inj i j : placeholderName i = placeholderName j -> i = j.
Proof.
  unfold placeholderName.
  destruct (Nat.eqb_spec i 1) as [->|], (Nat.eqb_spec j 1) as [->|];
    try reflexivity; intros same.
  - change "def" with ("def" ++ "") in same at 1.
    apply app_inv_head_string in same. symmetry in same.
    now apply decimal_nonempty in same.
  - change "def" with ("def" ++ "") in same at 2.
    apply app_inv_head_string in same. now apply decimal_nonempty in same.
  - apply app_inv_head_string in same. now apply decimal_inj.
Qed.

(** What a search that ends has found. *)
Lemma searchPlaceholder_Some definitions fuel i name :
  searchPlaceholder definitions fuel i = Some name ->
  exists k, (i <= k < i + fuel)%nat
    /\ name = placeholderName k
    /\ LinkDefinitionSet.lookup name definitions = None
    /\ forall j, (i <= j < k)%nat ->
         is_Some (LinkDefinitionSet.lookup (placeholderName j) definitions).
Proof.
  revert i; induction fuel as [|fuel IH]; intros i; simpl; [discriminate|].
  destruct (LinkDefinitionSet.lookup (placeholderName i) definitions) as [def|] eqn:taken.
  - intros found. apply IH in found as (k & range & -> & free & before).
    exists k. split; [lia|]. split; [reflexivity|]. split; [assumption|].
    intros j bounds. destruct (Nat.eq_dec j i) as [->|]; [now exists def|].
    apply before. lia.
  - intros [= <-]. exists i. split; [lia|]. split; [reflexivity|].
    split; [assumption|]. intros j bounds. lia.
Qed.

(** A search that runs out of steps has seen every name taken. *)
Lemma searchPlaceholder_None definitions fuel i :
  searchPlaceholder definitions fuel i = None ->
  forall j, (i <= j < i + fuel)%nat ->
    is_Some (LinkDefinitionSet.lookup (placeholderName j) definitions).
Proof.
  revert i; induction fuel as [|fuel IH]; intros i; simpl; [lia|].
  destruct (LinkDefinitionSet.lookup (placeholderName i) definitions) as [def|] eqn:taken;
    [|discriminate].
  intros none j bounds. destruct (Nat.eq_dec j i) as [->|]; [now exists def|].
  apply (IH (S i)); [assumption|lia].
Qed.

(** More steps do not change what a search has found. *)
Lemma searchPlaceholder_more definitions fuel fuel' i name :
  (fuel <= fuel')%nat ->
  searchPlaceholder definitions fuel i = Some name ->
  searchPlaceholder definitions fuel' i = Some name.
Proof.
  revert fuel' i; induction fuel as [|fuel IH]; intros fuel' i le; simpl; [discriminate|].
  destruct fuel' as [|fuel']; [lia|]. simpl.
  destruct (LinkDefinitionSet.lookup (placeholderName i) definitions); [|trivial].
  apply IH. lia.
Qed.

(** One step more than there are definitions is enough: the names tried are
    all different, so they cannot all be taken. *)
Lemma searchPlaceholder_enough (definitions : gmap string MdLinkDefinition) i :
  is_Some (searchPlaceholder definitions (S (size definitions)) i).
Proof.
  destruct (searchPlaceholder definitions (S (size definitions)) i) as [name|] eqn:search;
    [now exists name|].
  exfalso.
  pose proof (searchPlaceholder_None _ _ _ search) as taken.
  set (names := map placeholderName (seq i (S (size definitions)))).
  assert (distinct : NoDup names).
  { apply NoDup_fmap_2; [intros a b; apply placeholderName_inj|]. apply NoDup_seq. }
  assert (inside : (list_to_set names : gset string) ⊆ dom definitions).
  { intros key. rewrite elem_of_list_to_set. unfold names.
    rewrite list_elem_of_In, in_map_iff. intros (j & <- & inj).
    apply in_seq in inj. apply elem_of_dom.
    specialize (taken j inj). unfold LinkDefinitionSet.lookup in taken.
    now rewrite placeholderName_normal in taken. }
  apply subseteq_size in inside.
  rewrite size_list_to_set, size_dom in inside by assumption.
  unfold names in inside. rewrite length_map, length_seq in inside. lia.
Qed.

End PlaceholderFacts.

Section PlaceholderTheorem.
Import ExtractLinkDef.

Lemma ofLinks_keeps_keys links (acc : gmap string MdLinkDefinition) key :
  is_Some (acc !! key) ->
  is_Some (fold_left (fun acc link =>
                        if MdLinkKind.eqb (kind link) MdLinkKind.Definition_
                        then LinkDefinitionSet.add link acc else acc) links acc !! key).
Proof.
  revert acc; induction links as [|link links IH]; intros acc present; simpl; [assumption|].
  apply IH. destruct (MdLinkKind.eqb _ _); [|assumption].
  unfold LinkDefinitionSet.add.
  destruct (acc !! normalizeRefName (text (ref link))) eqn:held; [assumption|].
  destruct (decide (normalizeRefName (text (ref link)) = key)) as [<-|other].
  - rewrite lookup_insert_eq. now eexists.
  - now rewrite lookup_insert_ne.
Qed.

(** Every definition of the links has its normal label in the set. *)
Lemma ofLinks_holds_labels links def :
  In def links -> OrganizeLinkDefs.isDefinition def = true ->
  is_Some (LinkDefinitionSet.ofLinks links !! normalizeRefName (labelOf def)).
Proof.
  unfold LinkDefinitionSet.ofLinks. generalize (∅ : gmap string MdLinkDefinition).
  induction links as [|link links IH]; intros acc [] isDef; simpl.
  - subst link. unfold OrganizeLinkDefs.isDefinition in isDef. rewrite isDef.
    apply ofLinks_keeps_keys. unfold LinkDefinitionSet.add, labelOf.
    destruct (acc !! normalizeRefName (text (ref def))) eqn:held.
    + rewrite held. now eexists.
    + rewrite lookup_insert_eq. now eexists.
  - now apply IH.
Qed.

(** C6. Uniqueness and minimality of the placeholder: for every definition
    set the search ends, within one step more than the set has entries; the
    name it returns is the first of def, def2, def3, ... whose lookup in the
    set fails, so its normal form is the key of no definition of the set (and
    the normal label of no definition of the links the set was built from);
    more steps give the same name. *)
Theorem getPlaceholder_first_free (definitions : gmap string MdLinkDefinition) :
  exists i name,
    getPlaceholder definitions = Some name
    /\ (1 <= i <= S (size definitions))%nat
    /\ name = placeholderName i
    /\ LinkDefinitionSet.lookup name definitions = None
    /\ (forall j, (1 <= j < i)%nat ->
          is_Some (LinkDefinitionSet.lookup (placeholderName j) definitions))
    /\ (forall key def, definitions !! key = Some def -> key <> normalizeRefName name)
    /\ (forall links def,
          definitions = LinkDefinitionSet.ofLinks links ->
          In def links -> OrganizeLinkDefs.isDefinition def = true ->
          normalizeRefName (labelOf def) <> normalizeRefName name)
    /\ (forall fuel, (S (size definitions) <= fuel)%nat ->
          searchPlaceholder definitions fuel 1 = Some name).
Proof.
  destruct (searchPlaceholder_enough definitions 1) as [name search].
  destruct (searchPlaceholder_Some _ _ _ _ search) as (i & bounds & -> & free & before).
  exists i, (placeholderName i). unfold getPlaceholder.
  split; [assumption|]. split; [lia|]. split; [reflexivity|].
  split; [assumption|]. split; [assumption|].
  unfold LinkDefinitionSet.lookup in free.
  split; [|split].
  - intros key def held ->. rewrite free in held. discriminate.
  - intros links def -> inLinks isDef same.
    destruct (ofLinks_holds_labels links def inLinks isDef) as [d held].
    rewrite same, free in held. discriminate.
  - intros fuel enough. now apply (searchPlaceholder_more _ _ _ _ _ enough).
Qed.

End PlaceholderTheorem.

(** ** The extractor *)

Section ExtractorFacts.
Import ExtractLinkDef.

Variable isSameResource : string -> string -> bool.

Lemma addEdit_same resource e (builder : gmap string (list lsp.TextEdit)) :
  editsOf resource (WorkspaceEditBuilder.addEdit resource e builder)
  = (editsOf resource builder ++ [e])%list.
Proof.
  unfold editsOf, WorkspaceEditBuilder.addEdit. now rewrite lookup_insert_eq.
Qed.

Lemma addEdit_other resource e (builder : gmap string (list lsp.TextEdit)) other :
  other <> resource ->
  WorkspaceEditBuilder.addEdit resource e builder !! other = builder !! other.
Proof.
  intros ne. unfold WorkspaceEditBuilder.addEdit. now rewrite lookup_insert_ne.
Qed.

Lemma addEdit_held resource e (builder : gmap string (list lsp.TextEdit)) :
  WorkspaceEditBuilder.addEdit resource e builder !! resource
  = Some (editsOf resource builder ++ [e])%list.
Proof.
  unfold editsOf, WorkspaceEditBuilder.addEdit. now rewrite lookup_insert_eq.
Qed.

(** One round of the loop. *)
Lemma rewriteOccurrence_step resource placeholder targetLink link
    (builder : gmap string (list lsp.TextEdit)) :
  editsOf resource
    (rewriteOccurrence isSameResource resource placeholder targetLink builder link)
  = (editsOf resource builder
     ++ (if isOccurrence isSameResource targetLink link
         then [rewriteEdit placeholder link] else []))%list
  /\ forall other, other <> resource ->
       rewriteOccurrence isSameResource resource placeholder targetLink builder link !! other
       = builder !! other.
Proof.
  unfold rewriteOccurrence, isOccurrence, isRewritable.
  destruct (MdLinkKind.eqb (kind link) MdLinkKind.Link
            || MdLinkKind.eqb (kind link) MdLinkKind.AutoLink); simpl.
  - destruct (matchesHref isSameResource (href targetLink) link); simpl.
    + unfold WorkspaceEditBuilder.replace. rewrite addEdit_same.
      split; [reflexivity|]. intros other ne. now apply addEdit_other.
    + now rewrite app_nil_r.
  - now rewrite app_nil_r.
Qed.

(** The loop adds one replacement for each occurrence, in the order of the
    links, and touches no other resource. *)
Lemma rewrite_loop resource placeholder targetLink links
    (builder : gmap string (list lsp.TextEdit)) :
  editsOf resource
    (fold_left (rewriteOccurrence isSameResource resource placeholder targetLink)
       links builder)
  = (editsOf resource builder
     ++ map (rewriteEdit placeholder)
          (List.filter (isOccurrence isSameResource targetLink) links))%list
  /\ forall other, other <> resource ->
       fold_left (rewriteOccurrence isSameResource resource placeholder targetLink)
         links builder !! other
       = builder !! other.
Proof.
  revert builder; induction links as [|link links IH]; intros builder; simpl.
  - now rewrite app_nil_r.
  - destruct (IH (rewriteOccurrence isSameResource resource placeholder targetLink
                    builder link)) as [held others].
    destruct (rewriteOccurrence_step resource placeholder targetLink link builder)
      as [step stepOthers].
    rewrite held, step. split.
    + destruct (isOccurrence isSameResource targetLink link); simpl.
      * now rewrite <- app_assoc.
      * now rewrite app_nil_r.
    + intros other ne. rewrite others by assumption. now apply stepOthers.
Qed.

Lemma matchesHref_spec href0 link :
  matchesHref isSameResource href0 link = true
  <-> sameDestination isSameResource href0 link.
Proof.
  unfold matchesHref, sameDestination.
  destruct (href link), href0; try (split; [discriminate|tauto]); try reflexivity.
  rewrite andb_true_iff, String.eqb_eq. reflexivity.
Qed.

Lemma isOccurrence_spec targetLink link :
  isOccurrence isSameResource targetLink link = true
  <-> (kind link = MdLinkKind.Link \/ kind link = MdLinkKind.AutoLink)
      /\ sameDestination isSameResource (href targetLink) link.
Proof.
  unfold isOccurrence, isRewritable.
  rewrite andb_true_iff, matchesHref_spec, orb_true_iff.
  destruct (kind link); simpl; intuition congruence.
Qed.

Lemma createAddDefinitionEdit_position doc existingDefinitions newDefs :
  lsp.start (lsp.range (createAddDefinitionEdit doc existingDefinitions newDefs))
  = insertionPosition doc existingDefinitions
  /\ lsp.end_ (lsp.range (createAddDefinitionEdit doc existingDefinitions newDefs))
     = insertionPosition doc existingDefinitions.
Proof.
  unfold insertionPosition, createAddDefinitionEdit.
  destruct (OrganizeLinkDefs.getExistingDefinitionBlock doc existingDefinitions);
    split; reflexivity.
Qed.

(** The edits of an action: the replacements of the occurrences, then the
    insertion of the one new definition. *)
Lemma extractLinkActionWith_edits doc linkInfo targetLink placeholder :
  exists changes insertion,
    lsp.edit (extractLinkActionWith isSameResource doc linkInfo targetLink placeholder)
    = Some changes
    /\ changes !! getDocUri doc
       = Some (map (rewriteEdit placeholder)
                 (List.filter (isOccurrence isSameResource targetLink) (links linkInfo))
               ++ [insertion])%list
    /\ (forall other, other <> getDocUri doc -> changes !! other = None)
    /\ lsp.start (lsp.range insertion) = lsp.end_ (lsp.range insertion)
    /\ lsp.start (lsp.range insertion)
       = insertionPosition doc (List.filter OrganizeLinkDefs.isDefinition (links linkInfo))
    /\ exists prefix,
         (prefix = newline \/ prefix = newline ++ newline)
         /\ lsp.newText insertion
            = prefix ++ "[" ++ placeholder ++ "]: " ++ trim (getLinkTargetText doc targetLink).
Proof.
  unfold extractLinkActionWith. simpl.
  destruct (rewrite_loop (getDocUri doc) placeholder targetLink (links linkInfo)
              WorkspaceEditBuilder.empty) as [held others].
  eexists _, _. split; [reflexivity|].
  unfold WorkspaceEditBuilder.getEdit, WorkspaceEditBuilder.insert.
  split; [|split; [|split; [|split]]].
  - rewrite addEdit_held, held. reflexivity.
  - intros other ne. rewrite addEdit_other, others by assumption. reflexivity.
  - reflexivity.
  - simpl. apply createAddDefinitionEdit_position.
  - unfold createAddDefinitionEdit.
    destruct (OrganizeLinkDefs.getExistingDefinitionBlock _ _); simpl.
    + exists newline. split; [now left|reflexivity].
    + exists (newline ++ newline). split; [now right|reflexivity].
Qed.

(** The extractor always has an action for a target link. *)
Lemma getExtractLinkAction_total doc linkInfo targetLink :
  exists action,
    getExtractLinkAction isSameResource doc linkInfo targetLink = Some action.
Proof.
  destruct (searchPlaceholder_enough (definitions linkInfo) 1) as [placeholder search].
  unfold getExtractLinkAction, getPlaceholder. rewrite search. now eexists.
Qed.

(** C5. Shared-target collapsing: the extractor always produces its action
    for a target link; the edits of the action all belong to the document and
    are, in order, one replacement by [[placeholder]] for every link of kind
    Link or AutoLink whose href goes where the target goes (both external
    with the same resource, or both internal with the same resource and
    fragment) and for no other link, followed by exactly one insertion, the
    new definition [[placeholder]: text]. *)
Theorem extractor_rewrites_every_occurrence doc linkInfo targetLink :
  exists placeholder action changes insertion,
    getPlaceholder (definitions linkInfo) = Some placeholder
    /\ getExtractLinkAction isSameResource doc linkInfo targetLink = Some action
    /\ lsp.edit action = Some changes
    /\ changes !! getDocUri doc
       = Some (map (rewriteEdit placeholder)
                 (List.filter (isOccurrence isSameResource targetLink) (links linkInfo))
               ++ [insertion])%list
    /\ (forall other, other <> getDocUri doc -> changes !! other = None)
    /\ (forall link,
          isOccurrence isSameResource targetLink link = true
          <-> (kind link = MdLinkKind.Link \/ kind link = MdLinkKind.AutoLink)
              /\ sameDestination isSameResource (href targetLink) link)
    /\ lsp.start (lsp.range insertion) = lsp.end_ (lsp.range insertion)
    /\ exists prefix,
         (prefix = newline \/ prefix = newline ++ newline)
         /\ lsp.newText insertion
            = prefix ++ "[" ++ placeholder ++ "]: " ++ trim (getLinkTargetText doc targetLink).
Proof.
  destruct (searchPlaceholder_enough (definitions linkInfo) 1) as [placeholder search].
  destruct (extractLinkActionWith_edits doc linkInfo targetLink placeholder)
    as (changes & insertion & edits & held & others & pure & _ & text).
  exists placeholder, (extractLinkActionWith isSameResource doc linkInfo targetLink placeholder),
    changes, insertion.
  unfold getExtractLinkAction, getPlaceholder. rewrite search.
  repeat (split; [solve [reflexivity|assumption]|]).
  split; [intros link; apply isOccurrence_spec|]. now split.
Qed.

Lemma find_first {A : Type} (p : A -> bool) l x :
  find p l = Some x ->
  exists l1 l2, l = (l1 ++ x :: l2)%list /\ p x = true
                /\ Forall (fun y => p y = false) l1.
Proof.
  induction l as [|y l IH]; simpl; [discriminate|].
  destruct (p y) eqn:py.
  - intros [= ->]. exists [], l. now repeat split.
  - intros found. destruct (IH found) as (l1 & l2 & -> & px & none).
    exists (y :: l1), l2. repeat split; [assumption|]. now constructor.
Qed.

Lemma byStartDescending_total a b :
  byStartDescending a b <= 0 \/ byStartDescending b a <= 0.
Proof.
  unfold byStartDescending.
  change (notAfter (lsp.start (range (source b))) (lsp.start (range (source a)))
          \/ notAfter (lsp.start (range (source a))) (lsp.start (range (source b)))).
  rewrite !comparePosition_le. lia.
Qed.

Lemma byStartDescending_trans a b c :
  byStartDescending a b <= 0 -> byStartDescending b c <= 0 -> byStartDescending a c <= 0.
Proof.
  unfold byStartDescending. intros ab bc.
  apply (notAfter_trans _ _ _ bc ab).
Qed.

(** The link that is chosen among the links in range: the first that can be
    extracted in the order of descending starts, so none that can be
    extracted starts after it. *)
Lemma chosen_target linksInRange targetLink :
  find isExtractable (sort byStartDescending linksInRange) = Some targetLink ->
  In targetLink linksInRange
  /\ isExtractable targetLink = true
  /\ forall link, In link linksInRange -> isExtractable link = true ->
       notAfter (lsp.start (range (source link))) (lsp.start (range (source targetLink))).
Proof.
  intros found.
  pose proof (sort_strongly_sorted byStartDescending byStartDescending_total
                byStartDescending_trans linksInRange) as sorted.
  destruct (find_first _ _ _ found) as (l1 & l2 & shape & can & none).
  split; [|split; [assumption|]].
  - apply (sort_In byStartDescending). rewrite shape. apply in_or_app. right. now left.
  - intros link inRange canLink.
    apply (sort_In byStartDescending) in inRange. rewrite shape in *.
    apply in_app_or in inRange as [early|[<-|late]].
    + rewrite List.Forall_forall in none. apply none in early. congruence.
    + apply comparePosition_le. lia.
    + clear none found shape. induction l1 as [|y l1 IH]; simpl in sorted.
      * inversion sorted as [|? ? _ all]; subst.
        rewrite List.Forall_forall in all. now apply all.
      * inversion sorted; subst. now apply IH.
Qed.

Variable rangeIntersects : lsp.Range -> lsp.Range -> bool.
Variable codeActionKindContains : string -> string -> bool.

(** C8, with the cancellation of the call taken into account. Sentinel
    results of the extractor: for a call that is enabled and not cancelled,
    the call returns; when no link other than a definition intersects the
    range the result is the one action [notOnLinkAction]; otherwise the
    links in range are put in the order of descending start positions, and
    when none of them has an external or internal href the result is the one
    action [alreadyRefLinkAction]; when some has, the first such link in that
    order is chosen, no extractable link in range starts after it, and the
    result is the one action extracted for it. *)
Theorem getActions_sentinels doc range0 context token linkInfo :
  isEnabled codeActionKindContains context = true ->
  lsp.isCancellationRequested token = false ->
  let linksInRange := List.filter (isInRange rangeIntersects range0) (links linkInfo) in
  let ordered := sort byStartDescending linksInRange in
  let result :=
    getActions rangeIntersects isSameResource codeActionKindContains
      doc range0 context token linkInfo in
  is_Some result
  /\ (forall link, In link linksInRange <->
         In link (links linkInfo) /\ kind link <> MdLinkKind.Definition_
         /\ rangeIntersects range0 (range (source link)) = true)
  /\ (linksInRange = [] -> result = Some [notOnLinkAction])
  /\ (linksInRange <> [] ->
        Permutation linksInRange ordered
        /\ StronglySorted startsNotBefore ordered
        /\ ((forall link, In link linksInRange -> isExtractable link = false) ->
              result = Some [alreadyRefLinkAction])
        /\ (forall candidate, In candidate linksInRange -> isExtractable candidate = true ->
              exists targetLink action,
                find isExtractable ordered = Some targetLink
                /\ In targetLink linksInRange
                /\ isExtractable targetLink = true
                /\ (forall link, In link linksInRange -> isExtractable link = true ->
                      notAfter (lsp.start (range (source link)))
                        (lsp.start (range (source targetLink))))
                /\ getExtractLinkAction isSameResource doc linkInfo targetLink = Some action
                /\ result = Some [action])).
Proof.
  intros enabled running linksInRange ordered result.
  assert (extracted : forall targetLink, exists action,
             getExtractLinkAction isSameResource doc linkInfo targetLink = Some action).
  { intros targetLink. apply getExtractLinkAction_total. }
  assert (computed : result =
            if (length linksInRange =? 0)%nat then Some [notOnLinkAction]
            else match find isExtractable ordered with
                 | None => Some [alreadyRefLinkAction]
                 | Some targetLink =>
                     match getExtractLinkAction isSameResource doc linkInfo targetLink with
                     | Some action => Some [action]
                     | None => None
                     end
                 end).
  { unfold result, getActions. now rewrite enabled, running. }
  split; [|split; [|split]].
  - rewrite computed. destruct (length linksInRange =? 0)%nat; [now eexists|].
    destruct (find isExtractable ordered) as [targetLink|]; [|now eexists].
    destruct (extracted targetLink) as [action ->]. now eexists.
  - intros link. unfold linksInRange. rewrite List.filter_In. unfold isInRange.
    rewrite andb_true_iff, negb_true_iff.
    destruct (kind link); simpl; intuition congruence.
  - intros none. rewrite computed, none. reflexivity.
  - intros some.
    assert (nonEmpty : (length linksInRange =? 0)%nat = false).
    { destruct linksInRange; [congruence|reflexivity]. }
    rewrite nonEmpty in computed.
    split; [apply sort_perm|]. split.
    { apply (sort_strongly_sorted byStartDescending byStartDescending_total
               byStartDescending_trans). }
    split.
    + intros none. rewrite computed.
      destruct (find isExtractable ordered) as [targetLink|] eqn:found; [|reflexivity].
      destruct (chosen_target _ _ found) as (inRange & can & _).
      apply none in inRange. congruence.
    + intros candidate inRange can.
      destruct (find isExtractable ordered) as [targetLink|] eqn:found.
      * destruct (extracted targetLink) as [action ok].
        exists targetLink, action. rewrite ok in computed.
        destruct (chosen_target _ _ found) as (inT & canT & latest).
        now repeat split.
      * apply (sort_In byStartDescending) in inRange.
        apply (find_none _ _ found) in inRange. congruence.
Qed.

End ExtractorFacts.

(** ** The inserter *)

Section InserterFacts.
Import OrganizeLinkDefs ExtractLinkDef.

(** C10. Anchor of the inserter: [createAddDefinitionEdit] always returns an
    insertion, an edit whose range is empty; when a block is located its
    position is the end of the line that is the block's end line, which is
    the start line of the last definition; so when that definition spans
    more than one line the position lies on its first line, before its last
    line and strictly before its end (and not before its start when its start
    is a position of its line): the new text goes inside the definition, not
    after it. *)
Theorem createAddDefinitionEdit_anchor doc existingDefinitions newDefs :
  let added := createAddDefinitionEdit doc existingDefinitions newDefs in
  lsp.start (lsp.range added) = lsp.end_ (lsp.range added)
  /\ forall block lastDef,
       getExistingDefinitionBlock doc existingDefinitions = Some block ->
       last existingDefinitions = Some lastDef ->
       endLine block = startLineOf lastDef
       /\ lsp.start (lsp.range added)
          = {| lsp.line := endLine block;
               lsp.character := Z.of_nat (String.length (getLine doc (endLine block))) |}
       /\ (startLineOf lastDef < endLineOf lastDef ->
           lsp.line (lsp.start (lsp.range added)) = startLineOf lastDef
           /\ lsp.line (lsp.start (lsp.range added)) < endLineOf lastDef
           /\ comparePosition (lsp.start (lsp.range added))
                (lsp.end_ (range (source lastDef))) = -1
           /\ (lsp.character (lsp.start (range (source lastDef)))
               <= Z.of_nat (String.length (getLine doc (startLineOf lastDef))) ->
               notAfter (lsp.start (range (source lastDef)))
                 (lsp.start (lsp.range added)))).
Proof.
  intros added. split.
  { unfold added, createAddDefinitionEdit.
    now destruct (getExistingDefinitionBlock doc existingDefinitions). }
  intros block lastDef located isLast.
  assert (ends : endLine block = startLineOf lastDef).
  { unfold getExistingDefinitionBlock in located. rewrite isLast in located.
    destruct (isEmptyOrWhitespace _); [|discriminate].
    injection located as <-. reflexivity. }
  assert (position : lsp.start (lsp.range added)
          = {| lsp.line := endLine block;
               lsp.character := Z.of_nat (String.length (getLine doc (endLine block))) |}).
  { unfold added, createAddDefinitionEdit. now rewrite located. }
  split; [assumption|]. split; [assumption|].
  intros several. rewrite position, ends. simpl.
  split; [reflexivity|]. split; [assumption|]. split.
  - unfold comparePosition. simpl. fold (endLineOf lastDef).
    destruct (Z.ltb_spec (startLineOf lastDef) (endLineOf lastDef)); [reflexivity|lia].
  - intros within. apply comparePosition_le. simpl. right.
    split; [reflexivity|assumption].
Qed.

End InserterFacts.

(** ** Pairs of edits *)

Section NonOverlap.



End NonOverlap.

(** ** Removal of unused definitions, and running the organizer again *)

Section OrganizerAgain.
Import OrganizeLinkDefs.

Variable localeCompare : string -> string -> Z.

Lemma newDefs_removeUnused options links def :
  removeUnusedSet options = true ->
  In def (newDefs localeCompare options links (List.filter isDefinition links))
  <-> In def (List.filter isDefinition links) /\ referencedExactly links def.
Proof.
  intros set. unfold newDefs. rewrite set. simpl.
  rewrite List.filter_In. unfold sortedDefs. rewrite sort_In.
  now rewrite isReferenced_spec.
Qed.

Lemma onConsecutiveLines_snoc before a b :
  onConsecutiveLines (before ++ [a; b]) <->
  onConsecutiveLines (before ++ [a]) /\ startLineOf b = startLineOf a + 1.
Proof.
  induction before as [|x before IH]; simpl; [tauto|].
  rewrite IH. destruct before as [|y before]; simpl; tauto.
Qed.

Lemma onConsecutiveLines_ordered definitions :
  onConsecutiveLines definitions -> inDocumentOrder definitions.
Proof.
  unfold inDocumentOrder.
  induction definitions as [|d l IH]; simpl; [constructor|].
  intros [next rest]. constructor.
  - now apply IH.
  - destruct l; constructor. lia.
Qed.

(** Definitions on consecutive lines are one group. *)
Lemma groupsInOnePass_consecutive s e following :
  onConsecutiveLines (e :: following) ->
  exists lastDef,
    last (e :: following) = Some lastDef
    /\ groupsInOnePass s e following
       = [ {| startLine := startLineOf s; endLine := startLineOf lastDef |} ].
Proof.
  revert e; induction following as [|n r IH]; intros e [next rest].
  - exists e. now split.
  - destruct (IH n rest) as (lastDef & isLast & one).
    exists lastDef. split; [now rewrite last_cons_cons|].
    simpl. rewrite next, Z.eqb_refl. exact one.
Qed.

(** Walking backward over definitions on consecutive lines reaches the
    first. *)
Lemma blockStartLine_consecutive before lastDef :
  onConsecutiveLines (before ++ [lastDef]) ->
  blockStartLine (startLineOf lastDef) (rev before)
  = startLineOf (hd lastDef before).
Proof.
  revert lastDef; induction before as [|p before IH] using rev_ind; intros lastDef;
    [reflexivity|].
  rewrite <- app_assoc. simpl. intros consecutive.
  apply onConsecutiveLines_snoc in consecutive as [rest next].
  rewrite rev_unit. simpl.
  replace (startLineOf p =? startLineOf lastDef - 1) with true
    by (symmetry; apply Z.eqb_eq; lia).
  rewrite (IH p rest). now destruct before.
Qed.

(** A snapshot whose definitions are a sorted block on consecutive lines at
    the end of the document, all of them referenced when unused ones are to
    be removed, needs no edit. *)
Theorem organizer_keeps_organized_block doc options token links :
  let definitions := List.filter isDefinition links in
  onConsecutiveLines definitions ->
  (forall lastDef, last definitions = Some lastDef ->
     isEmptyOrWhitespace (textAfterDef doc lastDef) = true) ->
  Sorted (labelNotAbove localeCompare) definitions ->
  (removeUnusedSet options = true ->
     forall def, In def definitions -> referencedExactly links def) ->
  getOrganizeLinkDefinitionEdits localeCompare doc options token links = [].
Proof.
  intros definitions consecutive blank sorted used.
  destruct definitions as [|firstDef others] eqn:shape.
  { unfold getOrganizeLinkDefinitionEdits. fold definitions. rewrite shape.
    now destruct (lsp.isCancellationRequested token). }
  assert (nonEmpty : firstDef :: others <> []) by discriminate.
  destruct (exists_last nonEmpty) as (before & lastDef & split).
  assert (ordered := onConsecutiveLines_ordered _ consecutive).
  rewrite split in blank, ordered, consecutive.
  specialize (blank lastDef (last_snoc _ _)).
  destruct (getExistingDefinitionBlock_ordered doc before lastDef ordered blank)
    as (block & located & starts & _).
  rewrite (blockStartLine_consecutive _ _ consecutive) in starts.
  rewrite <- split in located.
  assert (first : hd lastDef before = firstDef).
  { destruct before; simpl in split; now injection split. }
  rewrite first in starts.
  apply organizer_noop; fold definitions; rewrite shape.
  - rewrite located. now eexists.
  - rewrite located. unfold deletionEdits.
    rewrite getDefinitionBlockGroups_one_pass.
    assert (whole : onConsecutiveLines (firstDef :: others)) by now rewrite split.
    destruct (groupsInOnePass_consecutive firstDef firstDef others whole)
      as (l & _ & ->).
    simpl. rewrite starts, Z.ltb_irrefl. reflexivity.
  - unfold newDefs, sortedDefs. rewrite (sort_sorted_id _ _ sorted).
    apply filter_length_eq. f_equal.
    apply forallb_filter_id. apply forallb_forall. intros def ind.
    destruct (removeUnusedSet options) eqn:set; [|reflexivity]. simpl.
    apply isReferenced_spec. now apply used.
Qed.

Hypothesis localeCompare_total :
  forall a b, localeCompare a b <= 0 \/ localeCompare b a <= 0.
Hypothesis localeCompare_trans :
  forall a b c, localeCompare a b <= 0 -> localeCompare b c <= 0 -> localeCompare a c <= 0.

(** X14. Running the organizer twice.  The second snapshot is the one of the
    document after the edits of the first run: its definitions are the lines
    of the block the first run wrote, so they carry the labels of the kept
    definitions in their order, on consecutive lines, with nothing but white
    space after them; the labels that reference links use are unchanged.
    Then the second run returns no edit. *)
Theorem organizer_second_run_no_edits doc2 options token2 links1 links2 :
  let kept := newDefs localeCompare options links1 (List.filter isDefinition links1) in
  let definitions2 := List.filter isDefinition links2 in
  map labelOf definitions2 = map labelOf kept ->
  onConsecutiveLines definitions2 ->
  (forall lastDef, last definitions2 = Some lastDef ->
     isEmptyOrWhitespace (textAfterDef doc2 lastDef) = true) ->
  (forall label,
     (exists link, In link links1 /\ kind link = MdLinkKind.Link
                   /\ href link = ReferenceHref label)
     <-> (exists link, In link links2 /\ kind link = MdLinkKind.Link
                       /\ href link = ReferenceHref label)) ->
  getOrganizeLinkDefinitionEdits localeCompare doc2 options token2 links2 = [].
Proof.
  intros kept definitions2 labels consecutive blank references.
  apply organizer_keeps_organized_block; try assumption.
  - symmetry in labels.
    apply (Sorted_same_keys (notAbove localeCompare) labelOf _ _ labels).
    apply StronglySorted_Sorted.
    apply (newDefs_sorted localeCompare localeCompare_total localeCompare_trans).
  - intros set def2 in2. fold definitions2 in in2.
    assert (labelled : In (labelOf def2) (map labelOf kept)).
    { rewrite <- labels. now apply in_map. }
    apply in_map_iff in labelled as (def1 & same & in1).
    apply (newDefs_removeUnused options links1 def1 set) in in1 as [_ used].
    unfold referencedExactly in *. rewrite <- same. now apply references.
Qed.

End OrganizerAgain.

Section InsertionPoint.
Import OrganizeLinkDefs.

Variable localeCompare : string -> string -> Z.

(** The line [#getLastNonWhitespaceLine] returns, in terms of the lines of
    the document after the last line of the last definition. *)
Lemma getLastNonWhitespaceLine_following doc before lastDef :
  wellFormedDocument doc -> 0 <= endLineOf lastDef ->
  getLastNonWhitespaceLine doc (before ++ [lastDef])
  = Some match findLastIndex (fun l => negb (isEmptyOrWhitespace l))
                 (skipn (Z.to_nat (endLineOf lastDef + 1)) (lines doc)) with
         | Some i => startLineOf lastDef + 1 + Z.of_nat i
         | None => startLineOf lastDef
         end.
Proof.
  intros [plain small] nonNegative. unfold getLastNonWhitespaceLine.
  rewrite last_snoc. unfold textAfterDef.
  rewrite getText_from_line by lia.
  set (following := skipn (Z.to_nat (endLineOf lastDef + 1)) (lines doc)).
  assert (plainFollowing : Forall (fun l => noLineBreak l = true) following)
    by now apply Forall_drop.
  destruct following as [|x rest] eqn:shape; [reflexivity|].
  rewrite splitLines_concat by (assumption || discriminate).
  now destruct (findLastIndex _ (x :: rest)).
Qed.

(** When the last definition is on one line and no block is found, the
    organizer puts the block after the last line of the document that is not
    blank: it replaces what follows that line, blank lines only, by the block
    behind one line feed, or behind two when that line is the last of the
    document. *)
Theorem organizer_inserts_after_last_text_line doc options token links before lastDef :
  lsp.isCancellationRequested token = false ->
  List.filter isDefinition links = (before ++ [lastDef])%list ->
  wellFormedDocument doc ->
  0 <= startLineOf lastDef ->
  startLineOf lastDef = endLineOf lastDef ->
  getExistingDefinitionBlock doc (before ++ [lastDef]) = None ->
  exists line,
    endLineOf lastDef < line < lineCount doc
    /\ isBlankLine doc line = false
    /\ (forall l, line < l < lineCount doc -> isBlankLine doc l = true)
    /\ getOrganizeLinkDefinitionEdits localeCompare doc options token links
       = (deletionEdits doc (before ++ [lastDef]) None
          ++ [ {| lsp.newText :=
                    (if line =? lineCount doc - 1 then newline ++ newline else newline)
                    ++ defBlock (newDefs localeCompare options links (before ++ [lastDef]));
                  lsp.range := lsp.Range.create (line + 1) 0 (lineCount doc) 0 |} ])%list.
Proof.
  intros running isDefs wellFormed nonNegative oneLine noBlock.
  assert (located := noBlock).
  unfold getExistingDefinitionBlock in noBlock. rewrite last_snoc in noBlock.
  destruct (isEmptyOrWhitespace (textAfterDef doc lastDef)) eqn:text; [discriminate|].
  clear noBlock. unfold textAfterDef in text.
  destruct wellFormed as [plain small].
  rewrite getText_from_line, isEmptyOrWhitespace_concat in text by lia.
  pose proof (getLastNonWhitespaceLine_following doc before lastDef
                (conj plain small)) as returned.
  rewrite <- oneLine in returned at 1. specialize (returned nonNegative).
  set (start := Z.to_nat (endLineOf lastDef + 1)) in *.
  destruct (findLastIndex (fun l => negb (isEmptyOrWhitespace l)) (skipn start (lines doc)))
    as [i|] eqn:found.
  2: { apply findLastIndex_None in found. exfalso. revert text found. clear.
       induction (skipn start (lines doc)) as [|x l IH]; simpl; [discriminate|].
       rewrite negb_involutive. destruct (isEmptyOrWhitespace x); simpl.
       - assumption.
       - discriminate. }
  destruct (findLastIndex_Some _ _ _ found) as (bound & (x & held & notBlank) & later).
  rewrite length_skipn in bound. rewrite List.nth_error_skipn in held.
  apply negb_true_iff in notBlank.
  exists (startLineOf lastDef + 1 + Z.of_nat i).
  assert (index : Z.to_nat (startLineOf lastDef + 1 + Z.of_nat i) = (start + i)%nat)
    by (unfold start; lia).
  assert (count : lineCount doc = Z.of_nat (length (lines doc))) by reflexivity.
  split; [unfold start in bound; lia|]. split; [|split].
  - unfold isBlankLine, getLine.
    destruct (Z.ltb_spec (startLineOf lastDef + 1 + Z.of_nat i) 0); [lia|].
    destruct (Z.leb_spec (lineCount doc) (startLineOf lastDef + 1 + Z.of_nat i));
      [unfold start in bound; lia|].
    simpl. rewrite index. now rewrite (List.nth_error_nth _ _ _ held).
  - intros l [after inside]. unfold isBlankLine, getLine.
    destruct (Z.ltb_spec l 0); [lia|].
    destruct (Z.leb_spec (lineCount doc) l); [lia|]. simpl.
    destruct (nth_error (lines doc) (Z.to_nat l)) as [y|] eqn:heldL.
    + rewrite (List.nth_error_nth _ _ _ heldL).
      apply negb_false_iff.
      apply (later (Z.to_nat l - start)%nat); [unfold start; lia|].
      rewrite List.nth_error_skipn. rewrite <- heldL. f_equal. unfold start. lia.
    + apply List.nth_error_None in heldL. lia.
  - unfold getOrganizeLinkDefinitionEdits.
    rewrite running, isDefs, located, returned.
    destruct (length (before ++ [lastDef]) =? 0)%nat eqn:empty; [|reflexivity].
    rewrite length_app in empty. simpl in empty.
    apply Nat.eqb_eq in empty. lia.
Qed.

End InsertionPoint.

(** * The statements on sample documents *)

Section OnSamples.
Import OrganizeLinkDefs ExtractLinkDef Samples.

(** The organizer on a document with a definition above the text: the
    group above is deleted and the block at the end is rewritten, sorted. *)
Example organize_scattered :
  getOrganizeLinkDefinitionEdits codeUnitCompare scatteredDoc
    {| removeUnused := None |} notCancelled scatteredLinks
  = [ {| lsp.newText := ""; lsp.range := lsp.Range.create 0 0 0 21 |};
      {| lsp.newText := newline ++ "[a]: http://a.example" ++ newline
                          ++ "[b]: http://b.example";
         lsp.range := lsp.Range.create 2 0 2 21 |} ].
Proof. vm_compute. reflexivity. Qed.

(** The organized sample needs no edit. *)
Lemma organizer_noop_when_already_organized_witness :
  let definitions := List.filter isDefinition organizedLinks in
  let options := {| removeUnused := Some true |} in
  (is_Some (getExistingDefinitionBlock organizedDoc definitions)
   /\ deletionEdits organizedDoc definitions
        (getExistingDefinitionBlock organizedDoc definitions) = []
   /\ map labelOf (newDefs codeUnitCompare options organizedLinks definitions)
      = map labelOf definitions)
  /\ getOrganizeLinkDefinitionEdits codeUnitCompare organizedDoc options
       notCancelled organizedLinks = [].
Proof.
  split.
  - split; [eexists; vm_compute; reflexivity|]. split; vm_compute; reflexivity.
  - apply (organizer_noop_when_already_organized codeUnitCompare codeUnitCompare_total
             organizedDoc {| removeUnused := Some true |} notCancelled organizedLinks).
    + eexists. vm_compute. reflexivity.
    + vm_compute. reflexivity.
    + vm_compute. reflexivity.
    + vm_compute. reflexivity.
Defined.

(** The organizer on the sample of a definition [Foo] and a reference
    [foo], when unused definitions are removed: it empties the block. *)
Example organize_mixed_case :
  getOrganizeLinkDefinitionEdits codeUnitCompare mixedCaseDoc
    {| removeUnused := Some true |} notCancelled mixedCaseLinks
  = [ {| lsp.newText := ""; lsp.range := lsp.Range.create 2 0 2 25 |} ].
Proof. vm_compute. reflexivity. Qed.

(** Witness of C4: the block of the organized sample. *)
Lemma getExistingDefinitionBlock_contract_witness :
  let definitions := List.filter isDefinition organizedLinks in
  inDocumentOrder definitions
  /\ getExistingDefinitionBlock organizedDoc definitions
     = Some {| startLine := 2; endLine := 3 |}.
Proof.
  intros definitions.
  assert (ordered : inDocumentOrder definitions).
  { repeat constructor. }
  split; [assumption|].
  destruct (getExistingDefinitionBlock_contract organizedDoc definitions ordered)
    as (_ & _ & located & _).
  apply (located (definitionAt "b" "http://b.example" 3 3)); vm_compute; reflexivity.
Defined.

(** A gap stops the walk: definitions on lines 5, 6 and 8 with a blank
    tail give the block of line 8 alone. *)
Example block_after_gap :
  getExistingDefinitionBlock
    {| uri := "file:///gap.md";
       lines := [""; ""; ""; ""; ""; "[a]: /a"; "[b]: /b"; ""; "[c]: /c"] |}
    [ definitionAt "a" "/a" 5 5; definitionAt "b" "/b" 6 6; definitionAt "c" "/c" 8 8 ]
  = Some {| startLine := 8; endLine := 8 |}.
Proof. vm_compute. reflexivity. Qed.

(** C7 at a definition of two lines.  The last line that is not blank
    after the definition is line 3, the last of the document; the organizer
    takes line 2 for it, and replaces line 3 by the block. *)
Lemma organizer_insertion_after_multiline_definition :
  let definitions := List.filter isDefinition multiLineLinks in
  getExistingDefinitionBlock multiLineDoc definitions = None
  /\ lineCount multiLineDoc = 4
  /\ getLine multiLineDoc 3 = "more text"
  /\ getLastNonWhitespaceLine multiLineDoc definitions = Some 2
  /\ getOrganizeLinkDefinitionEdits codeUnitCompare multiLineDoc
       {| removeUnused := None |} notCancelled multiLineLinks
     = [ {| lsp.newText := ""; lsp.range := lsp.Range.create 0 0 0 4 |};
         {| lsp.newText := newline ++ "[a]: /url";
            lsp.range := lsp.Range.create 3 0 4 0 |} ]
  /\ getText multiLineDoc (lsp.Range.create 3 0 4 0) = "more text".
Proof. repeat split; vm_compute; reflexivity. Qed.

(** With the definition on one line the same document is handled as C7
    says: the block goes after the last line, behind two line feeds. *)
Example organizer_insertion_after_one_line_definition :
  getOrganizeLinkDefinitionEdits codeUnitCompare
    {| uri := "file:///oneline.md"; lines := ["[a]: /url"; "text"; "more text"] |}
    {| removeUnused := None |} notCancelled [ definitionAt "a" "/url" 0 0 ]
  = [ {| lsp.newText := ""; lsp.range := lsp.Range.create 0 0 0 9 |};
      {| lsp.newText := newline ++ newline ++ "[a]: /url";
         lsp.range := lsp.Range.create 3 0 3 0 |} ].
Proof. vm_compute. reflexivity. Qed.

(** The placeholder when [Def] and [def2] are taken. *)
Example placeholder_after_taken_names : getPlaceholder takenNames = Some "def3".
Proof. vm_compute. reflexivity. Qed.

(** Witness of C6. *)
Lemma getPlaceholder_first_free_witness :
  exists i name,
    getPlaceholder takenNames = Some name
    /\ (1 <= i <= S (size takenNames))%nat
    /\ name = placeholderName i
    /\ LinkDefinitionSet.lookup name takenNames = None.
Proof.
  destruct (getPlaceholder_first_free takenNames)
    as (i & name & found & bounds & named & free & _).
  exists i, name.
  split; [exact found|]. split; [exact bounds|]. split; [exact named|exact free].
Defined.

(** The edits of the extraction of the first of two links to one
    destination: both targets are rewritten and one definition is added. *)
Example extract_first_of_two_links :
  match getExtractLinkAction String.eqb twoLinksDoc twoLinks firstLink with
  | Some action =>
      match lsp.edit action with
      | Some changes => changes !! getDocUri twoLinksDoc
      | None => None
      end
  | None => None
  end
  = Some [ {| lsp.newText := "[def]"; lsp.range := lsp.Range.create 0 3 0 13 |};
           {| lsp.newText := "[def]"; lsp.range := lsp.Range.create 0 21 0 31 |};
           {| lsp.newText := newline ++ newline ++ "[def]: http://x";
              lsp.range := lsp.Range.create 1 0 1 0 |} ].
Proof. vm_compute. reflexivity. Qed.

(** Witness of C5. *)
Lemma extractor_rewrites_every_occurrence_witness :
  exists placeholder action changes insertion,
    getPlaceholder (definitions twoLinks) = Some placeholder
    /\ getExtractLinkAction String.eqb twoLinksDoc twoLinks firstLink = Some action
    /\ lsp.edit action = Some changes
    /\ changes !! getDocUri twoLinksDoc
       = Some (map (rewriteEdit placeholder)
                 (List.filter (isOccurrence String.eqb firstLink) (links twoLinks))
               ++ [insertion])%list.
Proof.
  destruct (extractor_rewrites_every_occurrence String.eqb twoLinksDoc twoLinks firstLink)
    as (placeholder & action & changes & insertion & found & extracted & edits & held & _).
  exists placeholder, action, changes, insertion.
  split; [exact found|]. split; [exact extracted|]. split; [exact edits|exact held].
Defined.

(** Counterexample to C8 as stated: the call is enabled and no link
    intersects the range, but the token is cancelled, and the result is the
    empty list, not the sentinel. *)
Lemma getActions_cancelled_returns_nothing :
  let farAway := lsp.Range.create 5 0 5 0 in
  isEnabled codeActionKindContains anyKind = true
  /\ List.filter (isInRange rangeIntersects farAway) (links twoLinks) = []
  /\ getActions rangeIntersects String.eqb codeActionKindContains
       twoLinksDoc farAway anyKind cancelled twoLinks = Some []
  /\ getActions rangeIntersects String.eqb codeActionKindContains
       twoLinksDoc farAway anyKind cancelled twoLinks <> Some [notOnLinkAction].
Proof.
  intros farAway. split; [reflexivity|]. split; [vm_compute; reflexivity|].
  split; [reflexivity|]. discriminate.
Qed.

(** The same call without the cancellation gives the sentinel. *)
Example getActions_not_on_link :
  getActions rangeIntersects String.eqb codeActionKindContains
    twoLinksDoc (lsp.Range.create 5 0 5 0) anyKind notCancelled twoLinks
  = Some [notOnLinkAction].
Proof. vm_compute. reflexivity. Qed.

(** Witness of C8 as amended: with the cursor in the first link, the action
    is the one extracted for that link. *)
Lemma getActions_sentinels_witness :
  isEnabled codeActionKindContains anyKind = true
  /\ lsp.isCancellationRequested notCancelled = false
  /\ exists action,
       getExtractLinkAction String.eqb twoLinksDoc twoLinks firstLink = Some action
       /\ getActions rangeIntersects String.eqb codeActionKindContains
            twoLinksDoc cursor anyKind notCancelled twoLinks = Some [action].
Proof.
  split; [reflexivity|]. split; [reflexivity|].
  destruct (getActions_sentinels String.eqb rangeIntersects codeActionKindContains
              twoLinksDoc cursor anyKind notCancelled twoLinks eq_refl eq_refl)
    as (_ & _ & _ & some).
  destruct some as (_ & _ & _ & chosen); [discriminate|].
  destruct (chosen firstLink) as (targetLink & action & found & _ & _ & _ & extracted & result).
  - now left.
  - reflexivity.
  - exists action. vm_compute in found. injection found as <-.
    split; [exact extracted|exact result].
Defined.

(** Witness of C10: the new definition goes to the end of line 2, the first
    of the two lines of the last definition. *)
Lemma createAddDefinitionEdit_anchor_witness :
  let definitions := List.filter isDefinition trailingMultiLineLinks in
  let added := createAddDefinitionEdit trailingMultiLineDoc definitions
                 [ {| definitionText := "/b.md"; placeholder := "def" |} ] in
  (getExistingDefinitionBlock trailingMultiLineDoc definitions
   = Some {| startLine := 2; endLine := 2 |}
   /\ startLineOf trailingMultiLineDefinition < endLineOf trailingMultiLineDefinition)
  /\ lsp.start (lsp.range added) = {| lsp.line := 2; lsp.character := 4 |}
  /\ comparePosition (lsp.start (lsp.range added))
       (lsp.end_ (range (source trailingMultiLineDefinition))) = -1.
Proof.
  intros definitions added.
  assert (located : getExistingDefinitionBlock trailingMultiLineDoc definitions
                    = Some {| startLine := 2; endLine := 2 |}) by (vm_compute; reflexivity).
  assert (several : startLineOf trailingMultiLineDefinition
                    < endLineOf trailingMultiLineDefinition) by reflexivity.
  split; [split; [exact located|exact several]|].
  destruct (createAddDefinitionEdit_anchor trailingMultiLineDoc definitions
              [ {| definitionText := "/b.md"; placeholder := "def" |} ])
    as [_ anchored].
  destruct (anchored _ trailingMultiLineDefinition located eq_refl)
    as (_ & position & inside).
  destruct (inside several) as (_ & _ & before & _).
  split; [exact position|exact before].
Defined.

(** The text that is inserted there, between the two lines of [a]. *)
Example insertion_inside_last_definition :
  createAddDefinitionEdit trailingMultiLineDoc
    (List.filter isDefinition trailingMultiLineLinks)
    [ {| definitionText := "/b.md"; placeholder := "def" |} ]
  = lsp.TextEdit.insert {| lsp.line := 2; lsp.character := 4 |}
      (newline ++ "[def]: /b.md").
Proof. vm_compute. reflexivity. Qed.

End OnSamples.

(** * Further properties of the organizer *)

(** ** The groups are the runs of definition lines *)

Section GroupFacts.
Import OrganizeLinkDefs.

Lemma StronglySorted_either {A : Type} (R : A -> A -> Prop) l a b :
  StronglySorted R l -> In a l -> In b l -> a = b \/ R a b \/ R b a.
Proof.
  induction 1 as [|x l sorted IH all]; intros ina inb; [destruct ina|].
  rewrite List.Forall_forall in all.
  destruct ina as [<-|ina], inb as [<-|inb]; auto.
Qed.

Lemma StronglySorted_before_last {A : Type} (R : A -> A -> Prop) l x :
  StronglySorted R (l ++ [x]) -> forall y, In y l -> R y x.
Proof.
  induction l as [|z l IH]; intros sorted y iny; [destruct iny|].
  inversion sorted as [|? ? tailSorted all]; subst.
  destruct iny as [<-|iny]; [|now apply IH].
  rewrite List.Forall_forall in all. apply all, in_or_app. right. now left.
Qed.

(** In document order a line that holds no definition lies between two
    groups. *)
Lemma groupsInOnePass_apart s e following :
  startLineOf s <= startLineOf e ->
  inDocumentOrder (e :: following) ->
  StronglySorted spanApart (groupsInOnePass s e following)
  /\ forall g, In g (groupsInOnePass s e following) -> startLineOf s <= startLine g.
Proof.
  revert s e; induction following as [|n r IH]; intros s e se ordered; simpl.
  - split; [repeat constructor|]. intros g [<-|[]]; simpl. lia.
  - assert (en : startLineOf e < startLineOf n).
    { inversion ordered as [|? ? ? head]; subst. now inversion head. }
    assert (tailOrdered := inDocumentOrder_tail _ _ ordered).
    destruct (Z.eqb_spec (startLineOf n) (startLineOf e + 1)) as [next|gap].
    + destruct (IH s n) as [sorted spans]; [lia|assumption|]. now split.
    + destruct (IH n n (Z.le_refl _) tailOrdered) as [sorted spans].
      split.
      * constructor; [assumption|]. apply List.Forall_forall. intros g ing.
        unfold spanApart; simpl. apply spans in ing. lia.
      * intros g [<-|ing]; simpl; [lia|]. apply spans in ing. lia.
Qed.

(** Every start line of a definition lies in a group. *)
Lemma groupsInOnePass_holds s e following x :
  startLineOf s <= startLineOf e ->
  startLineOf s <= x <= startLineOf e \/ isDefinitionLine following x ->
  exists g, In g (groupsInOnePass s e following) /\ spanHolds g x.
Proof.
  revert s e; induction following as [|n r IH]; intros s e se; simpl.
  - intros [run|(d & [] & _)]. eexists. split; [now left|exact run].
  - intros held.
    destruct (Z.eqb_spec (startLineOf n) (startLineOf e + 1)) as [next|gap].
    + apply IH; [lia|]. destruct held as [run|(d & [<-|ind] & <-)].
      * left. lia.
      * left. lia.
      * right. now exists d.
    + destruct held as [run|(d & [<-|ind] & <-)].
      * eexists. split; [now left|exact run].
      * destruct (IH n n (Z.le_refl _)) as (g & ing & holds);
          [left; lia|].
        exists g. split; [now right|assumption].
      * destruct (IH n n (Z.le_refl _)) as (g & ing & holds);
          [right; now exists d|].
        exists g. split; [now right|assumption].
Qed.

(** The last group ends on the start line of the last definition. *)
Lemma groupsInOnePass_last s e following :
  exists g lastDef,
    last (groupsInOnePass s e following) = Some g
    /\ last (e :: following) = Some lastDef
    /\ endLine g = startLineOf lastDef.
Proof.
  revert s e; induction following as [|n r IH]; intros s e.
  - now eexists _, _.
  - destruct (IH s n) as (g1 & l1 & isLast1 & isLastDef1 & ends1).
    destruct (IH n n) as (g2 & l2 & isLast2 & isLastDef2 & ends2).
    cbn [groupsInOnePass]. rewrite last_cons_cons.
    destruct (startLineOf n =? startLineOf e + 1).
    + now exists g1, l1.
    + exists g2, l2. now rewrite last_cons, isLast2.
Qed.

(** One group only: the definitions are on consecutive lines. *)
Lemma groupsInOnePass_single s e following g :
  groupsInOnePass s e following = [g] -> onConsecutiveLines (e :: following).
Proof.
  revert s e; induction following as [|n r IH]; intros s e; simpl; [tauto|].
  destruct (Z.eqb_spec (startLineOf n) (startLineOf e + 1)) as [next|gap].
  - intros one. split; [assumption|]. now apply (IH s n).
  - intros one. injection one as _ none.
    destruct (groupsInOnePass_last n n r) as (g' & _ & isLast & _).
    rewrite none in isLast. discriminate.
Qed.

Lemma getDefinitionBlockGroups_apart definitions :
  inDocumentOrder definitions ->
  StronglySorted spanApart (getDefinitionBlockGroups definitions).
Proof.
  intros ordered. destruct definitions as [|firstDef others].
  - rewrite getDefinitionBlockGroups_equation_1. constructor.
  - rewrite getDefinitionBlockGroups_one_pass.
    now apply groupsInOnePass_apart.
Qed.

Lemma getDefinitionBlockGroups_holds definitions x :
  isDefinitionLine definitions x ->
  exists g, In g (getDefinitionBlockGroups definitions) /\ spanHolds g x.
Proof.
  destruct definitions as [|firstDef others]; [intros (d & [] & _)|].
  rewrite getDefinitionBlockGroups_one_pass.
  intros (d & [<-|ind] & <-); apply groupsInOnePass_holds; try lia.
  right. now exists d.
Qed.

Lemma getDefinitionBlockGroups_covered definitions g :
  In g (getDefinitionBlockGroups definitions) ->
  forall x, spanHolds g x -> isDefinitionLine definitions x.
Proof.
  destruct definitions as [|firstDef others].
  - rewrite getDefinitionBlockGroups_equation_1. intros [].
  - rewrite getDefinitionBlockGroups_one_pass. intros ing.
    apply (groupsInOnePass_covered (isDefinitionLine (firstDef :: others))
             firstDef firstDef others); try assumption.
    + intros y within. exists firstDef. split; [now left|lia].
    + intros d ind. exists d. split; [now right|reflexivity].
Qed.

(** A group starts no later than it ends, whatever the order of the
    definitions. *)
Lemma groupsInOnePass_spans s e following :
  startLineOf s <= startLineOf e ->
  forall g, In g (groupsInOnePass s e following) -> startLine g <= endLine g.
Proof.
  revert s e; induction following as [|n r IH]; intros s e se g; simpl.
  - intros [<-|[]]. exact se.
  - destruct (Z.eqb_spec (startLineOf n) (startLineOf e + 1)) as [next|gap].
    + apply IH. lia.
    + intros [<-|ing]; [exact se|]. revert ing. apply IH. lia.
Qed.

Lemma getDefinitionBlockGroups_spans definitions g :
  In g (getDefinitionBlockGroups definitions) -> startLine g <= endLine g.
Proof.
  destruct definitions as [|firstDef others].
  - rewrite getDefinitionBlockGroups_equation_1. intros [].
  - rewrite getDefinitionBlockGroups_one_pass.
    apply groupsInOnePass_spans. lia.
Qed.

(** X1. The groups of [#getDefinitionBlockGroups], for definitions in
    document order, are the maximal runs of lines on which definitions
    start: the groups follow one another with at least one line between two
    of them, a group starts no later than it ends, a line lies in a group
    exactly when a definition starts on it, and no definition starts on the
    line before a group or on the line after it. *)
Theorem getDefinitionBlockGroups_maximal_runs definitions :
  inDocumentOrder definitions ->
  let groups := getDefinitionBlockGroups definitions in
  StronglySorted spanApart groups
  /\ (forall g, In g groups -> startLine g <= endLine g)
  /\ (forall line,
        isDefinitionLine definitions line
        <-> exists g, In g groups /\ spanHolds g line)
  /\ (forall g, In g groups ->
        ~ isDefinitionLine definitions (startLine g - 1)
        /\ ~ isDefinitionLine definitions (endLine g + 1)).
Proof.
  intros ordered groups.
  assert (apart := getDefinitionBlockGroups_apart _ ordered). fold groups in apart.
  split; [assumption|].
  split; [intros g; apply getDefinitionBlockGroups_spans|].
  split.
  - intros line. split; [apply getDefinitionBlockGroups_holds|].
    intros (g & ing & holds). now apply (getDefinitionBlockGroups_covered _ g).
  - intros g ing. pose proof (getDefinitionBlockGroups_spans _ _ ing) as span.
    split; intros isLine;
      apply getDefinitionBlockGroups_holds in isLine as (g' & ing' & holds);
      destruct (StronglySorted_either spanApart _ g g' apart ing ing')
        as [<-|[away|away]]; unfold spanApart, spanHolds in *; lia.
Qed.

End GroupFacts.

(** ** The located block is the last group *)

Section BlockAndGroups.
Import OrganizeLinkDefs.

(** Along definitions on descending lines, a definition starts on every line
    of the stretch the backward walk covers. *)
Lemma walkBackward_run prevDef reversed :
  Sorted (fun a b => startLineOf b < startLineOf a) (prevDef :: reversed) ->
  forall x, startLineOf (walkBackward prevDef reversed) <= x <= startLineOf prevDef ->
  isDefinitionLine (prevDef :: reversed) x.
Proof.
  revert prevDef; induction reversed as [|d rest IH]; intros p sorted x; simpl.
  - intros within. exists p. split; [now left|lia].
  - assert (dp : startLineOf d < startLineOf p).
    { inversion sorted as [|? ? ? head]; subst. now inversion head. }
    assert (tailSorted : Sorted (fun a b => startLineOf b < startLineOf a) (d :: rest))
      by now inversion sorted.
    destruct (Z.ltb_spec (startLineOf d) (startLineOf p - 1)) as [gap|near].
    + intros within. exists p. split; [now left|lia].
    + intros within.
      destruct (Z.eq_dec x (startLineOf p)) as [->|other].
      * exists p. split; [now left|reflexivity].
      * destruct (IH d tailSorted x) as (y & iny & isLine); [lia|].
        exists y. split; [now right|assumption].
Qed.

(** A definition starts on every line of the located block. *)
Lemma getExistingDefinitionBlock_run doc before lastDef block :
  inDocumentOrder (before ++ [lastDef]) ->
  getExistingDefinitionBlock doc (before ++ [lastDef]) = Some block ->
  forall x, spanHolds block x -> isDefinitionLine (before ++ [lastDef]) x.
Proof.
  intros ordered located x holds.
  unfold getExistingDefinitionBlock in located. rewrite last_snoc in located.
  destruct (isEmptyOrWhitespace (textAfterDef doc lastDef)); [|discriminate].
  rewrite rev_unit in located. simpl in located.
  destruct (Z.ltb_spec (startLineOf lastDef) (startLineOf lastDef - 1)); [lia|].
  injection located as <-. unfold spanHolds in holds. simpl in holds.
  apply inDocumentOrder_rev in ordered. rewrite rev_unit in ordered.
  destruct (walkBackward_run lastDef (rev before) ordered x holds) as (d & ind & isLine).
  exists d. split; [|assumption].
  destruct ind as [<-|ind]; apply in_or_app; [right; now left|left; now apply in_rev].
Qed.

(** For definitions in document order the groups end with the block that
    the locator finds. *)
Lemma located_block_ends_groups doc definitions block :
  inDocumentOrder definitions ->
  getExistingDefinitionBlock doc definitions = Some block ->
  exists earlier, getDefinitionBlockGroups definitions = (earlier ++ [block])%list.
Proof.
  intros ordered located. apply last_Some.
  destruct (last definitions) as [lastDef|] eqn:isLast.
  2: { unfold getExistingDefinitionBlock in located. now rewrite isLast in located. }
  apply last_Some in isLast as [before ->].
  assert (blank : isEmptyOrWhitespace (textAfterDef doc lastDef) = true).
  { unfold getExistingDefinitionBlock in located. rewrite last_snoc in located.
    now destruct (isEmptyOrWhitespace (textAfterDef doc lastDef)). }
  destruct (getExistingDefinitionBlock_ordered doc before lastDef ordered blank)
    as (block' & located' & _ & ends & le & free).
  rewrite located in located'. injection located' as <-.
  pose proof (getExistingDefinitionBlock_run doc before lastDef block ordered located)
    as run.
  set (definitions := (before ++ [lastDef])%list) in *.
  pose proof (getDefinitionBlockGroups_apart _ ordered) as apart.
  assert (shape : exists firstDef others, definitions = firstDef :: others).
  { unfold definitions. destruct before; simpl; now eexists _, _. }
  destruct shape as (firstDef & others & shape).
  destruct (groupsInOnePass_last firstDef firstDef others)
    as (g & lastDef' & isLastGroup & isLastDef & endsG).
  rewrite <- getDefinitionBlockGroups_one_pass, <- shape in isLastGroup.
  rewrite <- shape in isLastDef. unfold definitions in isLastDef.
  rewrite last_snoc in isLastDef. injection isLastDef as <-.
  rewrite isLastGroup. f_equal.
  assert (ing : In g (getDefinitionBlockGroups definitions)).
  { apply last_Some in isLastGroup as [init ->]. apply in_or_app. right. now left. }
  pose proof (getDefinitionBlockGroups_spans _ _ ing) as spanG.
  assert (notBelow : ~ startLine g < startLine block).
  { intros below.
    destruct (getDefinitionBlockGroups_covered _ _ ing (startLine block - 1))
      as (d & ind & isLine); [unfold spanHolds; lia|].
    now apply free in ind. }
  assert (notAbove : ~ startLine block < startLine g).
  { intros above.
    destruct (getDefinitionBlockGroups_holds definitions (startLine block))
      as (g' & ing' & holds'); [apply run; unfold spanHolds; lia|].
    unfold spanHolds in holds'.
    destruct (StronglySorted_either spanApart _ g g' apart ing ing')
      as [<-|[away|away]]; try unfold spanApart in away; try lia.
    destruct (getDefinitionBlockGroups_holds definitions (endLine g' + 1))
      as (g'' & ing'' & holds''); [apply run; unfold spanHolds; lia|].
    unfold spanHolds in holds''.
    destruct (StronglySorted_either spanApart _ g' g'' apart ing' ing'')
      as [<-|[away'|away']]; try unfold spanApart in away'; lia. }
  destruct g as [s e], block as [bs be]. simpl in *. f_equal; lia.
Qed.

(** X2. For definitions in document order, the block that
    [getExistingDefinitionBlock] finds is the last group that
    [#getDefinitionBlockGroups] yields. *)
Theorem getExistingDefinitionBlock_is_last_group doc definitions block :
  inDocumentOrder definitions ->
  getExistingDefinitionBlock doc definitions = Some block ->
  last (getDefinitionBlockGroups definitions) = Some block.
Proof.
  intros ordered located.
  destruct (located_block_ends_groups doc definitions block ordered located)
    as [earlier ->].
  apply last_snoc.
Qed.

Lemma filter_all {A : Type} (f : A -> bool) l :
  (forall x, In x l -> f x = true) -> List.filter f l = l.
Proof.
  intros all. apply forallb_filter_id, forallb_forall. exact all.
Qed.

(** With a block, the groups to delete are all the groups but the last. *)
Lemma deletionEdits_located doc definitions block :
  inDocumentOrder definitions ->
  getExistingDefinitionBlock doc definitions = Some block ->
  deletionEdits doc definitions (Some block)
  = map (groupDeletion doc) (removelast (getDefinitionBlockGroups definitions)).
Proof.
  intros ordered located. unfold deletionEdits. f_equal.
  pose proof (getDefinitionBlockGroups_apart _ ordered) as apart.
  assert (spans := getDefinitionBlockGroups_spans definitions).
  destruct (located_block_ends_groups doc definitions block ordered located)
    as [init shape].
  rewrite shape in *.
  rewrite removelast_last, List.filter_app. simpl. rewrite Z.ltb_irrefl.
  rewrite app_nil_r. apply filter_all. intros g ing. simpl.
  apply Z.ltb_lt.
  pose proof (StronglySorted_before_last _ _ _ apart g ing) as away.
  unfold spanApart in away.
  assert (startLine g <= endLine g); [|lia].
  apply spans, in_or_app. now left.
Qed.

End BlockAndGroups.

(** ** What the organizer returns when a block exists *)

Section OrganizerWithBlock.
Import OrganizeLinkDefs.

Variable localeCompare : string -> string -> Z.

(** The no-op test on labels: same length, and at each index the same label
    object. *)
Lemma sameRefs_spec definitions kept :
  (length kept =? length definitions)%nat && sameRefs definitions kept = true
  <-> map ref kept = map ref definitions.
Proof.
  rewrite andb_true_iff, Nat.eqb_eq. unfold sameRefs, every.
  rewrite everyFrom_spec. simpl. split.
  - intros [len same]. apply List.nth_error_ext. intros n.
    rewrite !List.nth_error_map.
    destruct (nth_error definitions n) as [x|] eqn:held.
    + specialize (same n x held).
      destruct (nth_error kept n) as [other|]; [|discriminate].
      apply bool_decide_eq_true in same. simpl. now rewrite same.
    + apply List.nth_error_None in held.
      assert (none : nth_error kept n = None) by (apply List.nth_error_None; lia).
      now rewrite none.
  - intros same. split.
    + rewrite <- (length_map ref kept), same. apply length_map.
    + intros k x held.
      assert (at_k : nth_error (map ref kept) k = Some (ref x)).
      { rewrite same, List.nth_error_map, held. reflexivity. }
      rewrite List.nth_error_map in at_k.
      destruct (nth_error kept k) as [other|]; [|discriminate].
      simpl in at_k. injection at_k as at_k. now apply bool_decide_eq_true.
Qed.

Lemma getOrganizeLinkDefinitionEdits_located doc options token links block :
  let definitions := List.filter isDefinition links in
  let kept := newDefs localeCompare options links definitions in
  lsp.isCancellationRequested token = false ->
  definitions <> [] ->
  inDocumentOrder definitions ->
  getExistingDefinitionBlock doc definitions = Some block ->
  getOrganizeLinkDefinitionEdits localeCompare doc options token links
  = if (length (removelast (getDefinitionBlockGroups definitions)) =? 0)%nat
       && ((length kept =? length definitions)%nat && sameRefs definitions kept)
    then []
    else (map (groupDeletion doc) (removelast (getDefinitionBlockGroups definitions))
          ++ [ {| lsp.newText :=
                    (if (startLine block <=? 0) || isBlankLine doc (startLine block - 1)
                     then "" else newline) ++ defBlock kept;
                  lsp.range :=
                    lsp.Range.create (startLine block) 0 (endLine block)
                      (Z.of_nat (String.length (getLine doc (endLine block)))) |} ])%list.
Proof.
  intros definitions kept running nonEmpty ordered located.
  unfold getOrganizeLinkDefinitionEdits. fold definitions. fold kept.
  rewrite running, located.
  destruct (length definitions =? 0)%nat eqn:empty.
  { apply Nat.eqb_eq in empty. destruct definitions; [congruence|discriminate]. }
  rewrite (deletionEdits_located doc definitions block ordered located).
  rewrite length_map, andb_assoc. reflexivity.
Qed.

(** X3. What the organizer returns when a trailing block exists, for
    definitions in document order: if it returns edits at all, they are one
    deletion for each group but the last, in the order of the groups, and
    then one edit that replaces the lines of the block, from the first column
    of its first line to the end of its last line, by the rendered block,
    behind a line feed unless the block starts the document or the line
    before it is blank. *)
Theorem organizer_edits_with_block doc options token links block :
  let definitions := List.filter isDefinition links in
  let kept := newDefs localeCompare options links definitions in
  let edits := getOrganizeLinkDefinitionEdits localeCompare doc options token links in
  inDocumentOrder definitions ->
  getExistingDefinitionBlock doc definitions = Some block ->
  edits <> [] ->
  edits
  = (map (groupDeletion doc) (removelast (getDefinitionBlockGroups definitions))
     ++ [ {| lsp.newText :=
               (if (startLine block <=? 0) || isBlankLine doc (startLine block - 1)
                then "" else newline) ++ defBlock kept;
             lsp.range :=
               lsp.Range.create (startLine block) 0 (endLine block)
                 (Z.of_nat (String.length (getLine doc (endLine block)))) |} ])%list.
Proof.
  intros definitions kept edits ordered located some.
  assert (running : lsp.isCancellationRequested token = false).
  { destruct (lsp.isCancellationRequested token) eqn:stopped; [|reflexivity].
    exfalso. apply some. unfold edits, getOrganizeLinkDefinitionEdits.
    now rewrite stopped. }
  assert (nonEmpty : definitions <> []).
  { intros isNil. unfold getExistingDefinitionBlock in located.
    now rewrite isNil in located. }
  unfold edits in *.
  rewrite (getOrganizeLinkDefinitionEdits_located doc options token links block
             running nonEmpty ordered located) in *.
  fold definitions in some |- *. fold kept in some |- *.
  destruct (_ && _); [congruence|reflexivity].
Qed.

(** X4. When the organizer returns no edit, for definitions in document
    order: exactly when the request was cancelled, or the snapshot has no
    definition, or the definitions are on consecutive lines with nothing but
    white space after the last one and the kept definitions carry the labels
    of the definitions, the same objects in the same order. *)
Theorem organizer_no_edits_iff doc options token links :
  let definitions := List.filter isDefinition links in
  let kept := newDefs localeCompare options links definitions in
  inDocumentOrder definitions ->
  getOrganizeLinkDefinitionEdits localeCompare doc options token links = []
  <-> lsp.isCancellationRequested token = true
      \/ definitions = []
      \/ (blankAfterLast doc definitions
          /\ onConsecutiveLines definitions
          /\ map ref kept = map ref definitions).
Proof.
  intros definitions kept ordered.
  destruct (lsp.isCancellationRequested token) eqn:running.
  { unfold getOrganizeLinkDefinitionEdits. rewrite running. tauto. }
  assert (cases : definitions = [] \/ exists firstDef others,
                                       definitions = firstDef :: others).
  { destruct definitions; [now left|right; now eexists _, _]. }
  destruct cases as [isNil|(firstDef & others & shape)].
  { unfold getOrganizeLinkDefinitionEdits. fold definitions.
    rewrite running, isNil. simpl. tauto. }
  assert (nonEmpty : definitions <> []) by (rewrite shape; discriminate).
  destruct (exists_last nonEmpty) as (before & lastDef & split).
  destruct (getExistingDefinitionBlock doc definitions) as [block|] eqn:located.
  - rewrite (getOrganizeLinkDefinitionEdits_located doc options token links block
               running nonEmpty ordered located).
    fold definitions. fold kept.
    pose proof (proj2 (last_Some _ _)
                  (located_block_ends_groups doc definitions block ordered located))
      as isLast.
    assert (blank : blankAfterLast doc definitions).
    { intros l isLastDef. unfold getExistingDefinitionBlock in located.
      rewrite isLastDef in located.
      now destruct (isEmptyOrWhitespace (textAfterDef doc l)). }
    assert (one : (length (removelast (getDefinitionBlockGroups definitions)) =? 0)%nat
                  = true <-> onConsecutiveLines definitions).
    { rewrite Nat.eqb_eq. rewrite shape in isLast |- *.
      rewrite getDefinitionBlockGroups_one_pass in *. split.
      - intros none. apply last_Some in isLast as [init whole].
        rewrite whole, removelast_last in none.
        destruct init; [|discriminate].
        now apply (groupsInOnePass_single firstDef firstDef others block).
      - intros consecutive.
        destruct (groupsInOnePass_consecutive firstDef firstDef others consecutive)
          as (l & _ & ->). reflexivity. }
    split.
    + intros none. right. right.
      destruct (_ && _) eqn:test.
      * apply andb_true_iff in test as [single same].
        split; [assumption|]. split; [now apply one|now apply sameRefs_spec].
      * symmetry in none. now apply app_cons_not_nil in none.
    + intros [stopped|[isNil|(_ & consecutive & same)]]; [discriminate|congruence|].
      apply one in consecutive. apply sameRefs_spec in same.
      now rewrite consecutive, same.
  - assert (text : isEmptyOrWhitespace (textAfterDef doc lastDef) = false).
    { unfold getExistingDefinitionBlock in located.
      rewrite split, last_snoc in located.
      now destruct (isEmptyOrWhitespace (textAfterDef doc lastDef)). }
    unfold getOrganizeLinkDefinitionEdits. fold definitions. fold kept.
    rewrite running, located.
    destruct (length definitions =? 0)%nat eqn:empty.
    { apply Nat.eqb_eq in empty. rewrite shape in empty. discriminate. }
    rewrite split.
    destruct (getLastNonWhitespaceLine_snoc doc before lastDef) as (line & -> & _).
    split.
    + intros none. symmetry in none. now apply app_cons_not_nil in none.
    + intros [stopped|[isNil|(blank & _)]]; [discriminate|congruence|].
      rewrite (blank lastDef) in text; [discriminate|]. apply last_snoc.
Qed.

End OrganizerWithBlock.

(** ** The line after which the block is inserted *)

Section LastTextLine.
Import OrganizeLinkDefs.

Lemma getLine_nth doc line x :
  0 <= line -> nth_error (lines doc) (Z.to_nat line) = Some x -> getLine doc line = x.
Proof.
  intros nonNegative held. unfold getLine.
  assert (inside : (Z.to_nat line < length (lines doc))%nat).
  { apply List.nth_error_Some. now rewrite held. }
  unfold lineCount.
  destruct (Z.ltb_spec line 0); [lia|].
  destruct (Z.leb_spec (Z.of_nat (length (lines doc))) line); [lia|]. simpl.
  now apply List.nth_error_nth.
Qed.

(** The last line that is not blank among the lines from [first] on, or all
    of them blank. *)
Lemma findLastIndex_following doc first :
  match findLastIndex (fun l => negb (isEmptyOrWhitespace l)) (skipn first (lines doc)) with
  | Some i =>
      Z.of_nat (first + i) < lineCount doc
      /\ isBlankLine doc (Z.of_nat (first + i)) = false
      /\ forall l, Z.of_nat (first + i) < l < lineCount doc -> isBlankLine doc l = true
  | None =>
      forall l, Z.of_nat first <= l < lineCount doc -> isBlankLine doc l = true
  end.
Proof.
  assert (blankAt : forall (from : nat) l,
             Z.of_nat from <= l < lineCount doc ->
             (forall x, nth_error (skipn first (lines doc)) (Z.to_nat l - first) = Some x ->
                        negb (isEmptyOrWhitespace x) = false) ->
             (first <= from)%nat ->
             isBlankLine doc l = true).
  { intros from l [after inside] test le. unfold lineCount in inside.
    destruct (nth_error (lines doc) (Z.to_nat l)) as [y|] eqn:held.
    - unfold isBlankLine. rewrite (getLine_nth doc l y) by (lia || assumption).
      apply negb_false_iff, test.
      rewrite List.nth_error_skipn, <- held. f_equal. lia.
    - apply List.nth_error_None in held. lia. }
  destruct (findLastIndex _ _) as [i|] eqn:found.
  - destruct (findLastIndex_Some _ _ _ found) as (bound & (x & held & notBlank) & later).
    rewrite length_skipn in bound. rewrite List.nth_error_skipn in held.
    apply negb_true_iff in notBlank. unfold lineCount in *.
    split; [lia|]. split.
    + unfold isBlankLine. rewrite (getLine_nth doc _ x); [assumption|lia|].
      now rewrite Nat2Z.id.
    + intros l within. apply (blankAt (first + i)%nat); [lia| |lia].
      intros y heldY. apply (later (Z.to_nat l - first)%nat); [lia|assumption].
  - intros l within. apply (blankAt first); [assumption| |lia].
    intros y heldY. apply findLastIndex_None in found.
    rewrite forallb_forall in found.
    specialize (found y (nth_error_In _ _ heldY)).
    rewrite negb_involutive in found. now rewrite found.
Qed.

(** X5. The line that [#getLastNonWhitespaceLine] returns for a document
    whose lines hold no line terminator: when some line after the last line
    of the last definition is not blank, the number of the last such line,
    less the number of lines by which the last definition extends beyond its
    first line; when all the lines after the last definition are blank, the
    start line of the last definition. *)
Theorem getLastNonWhitespaceLine_offset doc before lastDef :
  wellFormedDocument doc ->
  0 <= endLineOf lastDef ->
  (exists lastText,
      endLineOf lastDef < lastText < lineCount doc
      /\ isBlankLine doc lastText = false
      /\ (forall l, lastText < l < lineCount doc -> isBlankLine doc l = true)
      /\ getLastNonWhitespaceLine doc (before ++ [lastDef])
         = Some (lastText - (endLineOf lastDef - startLineOf lastDef)))
  \/ ((forall l, endLineOf lastDef < l < lineCount doc -> isBlankLine doc l = true)
      /\ getLastNonWhitespaceLine doc (before ++ [lastDef]) = Some (startLineOf lastDef)).
Proof.
  intros wellFormed nonNegative.
  rewrite (getLastNonWhitespaceLine_following doc before lastDef wellFormed nonNegative).
  pose proof (findLastIndex_following doc (Z.to_nat (endLineOf lastDef + 1))) as facts.
  destruct (findLastIndex _ _) as [i|].
  - left. destruct facts as (inside & notBlank & later).
    exists (Z.of_nat (Z.to_nat (endLineOf lastDef + 1) + i)).
    split; [lia|]. split; [assumption|]. split; [assumption|].
    f_equal. lia.
  - right. split; [|reflexivity]. intros l within. apply facts. lia.
Qed.

End LastTextLine.

(** ** What the organizer returns when no block exists *)

Section OrganizerWithoutBlock.
Import OrganizeLinkDefs.

Variable localeCompare : string -> string -> Z.

Lemma deletionEdits_all doc definitions :
  deletionEdits doc definitions None
  = map (groupDeletion doc) (getDefinitionBlockGroups definitions).
Proof.
  unfold deletionEdits. f_equal. now apply filter_all.
Qed.

(** X6. What the organizer returns when no trailing block exists, for a
    document whose lines hold no line terminator: some line after the last
    line of the last definition is not blank, and the edits are one deletion
    for each group, in the order of the groups, and then one edit that
    replaces everything from the start of line [line + 1] to the end of the
    document by the rendered block, where [line] is the number of the last
    line that is not blank, less the number of lines by which the last
    definition extends beyond its first line; the block comes behind two
    line feeds when [line] is the last line of the document, and behind one
    otherwise. *)
Theorem organizer_edits_without_block doc options token links before lastDef :
  let definitions := List.filter isDefinition links in
  let kept := newDefs localeCompare options links definitions in
  lsp.isCancellationRequested token = false ->
  definitions = (before ++ [lastDef])%list ->
  wellFormedDocument doc ->
  0 <= endLineOf lastDef ->
  getExistingDefinitionBlock doc definitions = None ->
  exists lastText,
    endLineOf lastDef < lastText < lineCount doc
    /\ isBlankLine doc lastText = false
    /\ (forall l, lastText < l < lineCount doc -> isBlankLine doc l = true)
    /\ let line := lastText - (endLineOf lastDef - startLineOf lastDef) in
       getOrganizeLinkDefinitionEdits localeCompare doc options token links
       = (map (groupDeletion doc) (getDefinitionBlockGroups definitions)
          ++ [ {| lsp.newText :=
                    (if line =? lineCount doc - 1 then newline ++ newline else newline)
                    ++ defBlock kept;
                  lsp.range := lsp.Range.create (line + 1) 0 (lineCount doc) 0 |} ])%list.
Proof.
  intros definitions kept running isDefs wellFormed nonNegative noBlock.
  assert (text : isEmptyOrWhitespace (textAfterDef doc lastDef) = false).
  { unfold getExistingDefinitionBlock in noBlock.
    rewrite isDefs, last_snoc in noBlock.
    now destruct (isEmptyOrWhitespace (textAfterDef doc lastDef)). }
  pose proof (getLastNonWhitespaceLine_following doc before lastDef wellFormed nonNegative)
    as returned.
  pose proof (findLastIndex_following doc (Z.to_nat (endLineOf lastDef + 1))) as facts.
  unfold textAfterDef in text. destruct wellFormed as [plain small].
  rewrite getText_from_line, isEmptyOrWhitespace_concat in text by lia.
  destruct (findLastIndex _ _) as [i|] eqn:found.
  2: { apply findLastIndex_None in found. exfalso. revert text found. clear.
       induction (skipn _ (lines doc)) as [|x l IH]; simpl; [discriminate|].
       rewrite negb_involutive. destruct (isEmptyOrWhitespace x); simpl.
       - assumption.
       - discriminate. }
  destruct facts as (inside & notBlank & later).
  exists (Z.of_nat (Z.to_nat (endLineOf lastDef + 1) + i)).
  split; [lia|]. split; [assumption|]. split; [assumption|].
  intros line.
  assert (same : startLineOf lastDef + 1 + Z.of_nat i = line) by (unfold line; lia).
  rewrite same in returned.
  unfold getOrganizeLinkDefinitionEdits. fold definitions. fold kept.
  rewrite running, noBlock, deletionEdits_all.
  destruct (length definitions =? 0)%nat eqn:empty.
  { rewrite isDefs, length_app in empty. simpl in empty.
    apply Nat.eqb_eq in empty. lia. }
  rewrite isDefs at 1. now rewrite returned.
Qed.

Hypothesis localeCompare_total :
  forall a b, localeCompare a b <= 0 \/ localeCompare b a <= 0.

Hypothesis localeCompare_trans :
  forall a b c, localeCompare a b <= 0 -> localeCompare b c <= 0 -> localeCompare a c <= 0.

Lemma filter_filter_comm {A : Type} (p q : A -> bool) l :
  List.filter p (List.filter q l) = List.filter q (List.filter p l).
Proof.
  induction l as [|x l IH]; simpl; [reflexivity|].
  destruct (p x) eqn:px, (q x) eqn:qx; simpl; rewrite ?px, ?qx, IH; reflexivity.
Qed.

(** X7. The sort of the organizer does not reorder definitions whose labels
    the collation takes for equal: among the kept definitions, those whose
    labels compare equal to a given label stand in the order they have in
    the document's list of definitions. *)
Theorem organizer_keeps_order_of_equal_labels options links label :
  let definitions := List.filter isDefinition links in
  let kept := newDefs localeCompare options links definitions in
  let sameLabel := fun def => comparesEqual localeCompare label (labelOf def) in
  let isKept := fun def => if negb (removeUnusedSet options) then true
                           else isReferenced links def in
  List.filter sameLabel kept = List.filter sameLabel (List.filter isKept definitions).
Proof.
  intros definitions kept sameLabel isKept. unfold kept, newDefs, sortedDefs.
  fold isKept. rewrite (filter_filter_comm sameLabel isKept).
  rewrite (filter_filter_comm sameLabel isKept definitions). f_equal.
  set (byLabel := fun a b : MdLink => localeCompare (text (ref a)) (text (ref b))).
  assert (total : forall x y, byLabel x y <= 0 \/ byLabel y x <= 0)
    by (intros x y; apply localeCompare_total).
  assert (trans : forall x y z, byLabel x y <= 0 -> byLabel y z <= 0 -> byLabel x z <= 0)
    by (intros x y z; apply localeCompare_trans).
  destruct (sort_stable byLabel total trans definitions) as [_ classes].
  set (probe := {| kind := MdLinkKind.Definition_;
                   href := ReferenceHref label;
                   source := {| range := lsp.Range.create 0 0 0 0;
                                targetRange := lsp.Range.create 0 0 0 0;
                                hrefText := "" |};
                   ref := {| text := label; ref_range := lsp.Range.create 0 0 0 0 |} |}).
  exact (classes probe).
Qed.

End OrganizerWithoutBlock.

(** * Further properties of the extractor *)

Section ExtractorAgain.
Import ExtractLinkDef.

Variable rangeIntersects : lsp.Range -> lsp.Range -> bool.
Variable isSameResource : string -> string -> bool.
Variable codeActionKindContains : string -> string -> bool.

(** X8. [getActions] returns at most one action, however many links the
    range touches, and it returns none exactly when the context does not ask
    for refactorings or the request was cancelled. *)
Theorem getActions_at_most_one_action doc range0 context token linkInfo :
  exists actions,
    getActions rangeIntersects isSameResource codeActionKindContains
      doc range0 context token linkInfo = Some actions
    /\ (length actions <= 1)%nat
    /\ (actions = [] <->
        isEnabled codeActionKindContains context = false
        \/ lsp.isCancellationRequested token = true).
Proof.
  unfold getActions.
  destruct (isEnabled codeActionKindContains context).
  2: { exists []. simpl. split; [reflexivity|]. split; [lia|]. tauto. }
  destruct (lsp.isCancellationRequested token).
  { exists []. simpl. split; [reflexivity|]. split; [lia|]. tauto. }
  simpl.
  assert (one : forall action : lsp.CodeAction,
             (length [action] <= 1)%nat
             /\ ([action] = [] <-> true = false \/ false = true)).
  { intros action. split; [simpl; lia|]. split; [intros [=]|].
    intros [|]; discriminate. }
  destruct (length _ =? 0)%nat.
  { eexists. split; [reflexivity|]. apply one. }
  destruct (find isExtractable _) as [targetLink|].
  - destruct (getExtractLinkAction_total isSameResource doc linkInfo targetLink)
      as [action ->].
    eexists. split; [reflexivity|]. apply one.
  - eexists. split; [reflexivity|]. apply one.
Qed.

(** The result of [getActions] on a call that is enabled and not cancelled,
    when some link in range can be extracted. *)
Lemma getActions_extracts doc range0 context token linkInfo candidate :
  isEnabled codeActionKindContains context = true ->
  lsp.isCancellationRequested token = false ->
  In candidate (links linkInfo) ->
  isInRange rangeIntersects range0 candidate = true ->
  isExtractable candidate = true ->
  exists targetLink placeholder,
    find isExtractable
      (sort byStartDescending
         (List.filter (isInRange rangeIntersects range0) (links linkInfo)))
    = Some targetLink
    /\ getPlaceholder (definitions linkInfo) = Some placeholder
    /\ In targetLink (links linkInfo)
    /\ isInRange rangeIntersects range0 targetLink = true
    /\ isExtractable targetLink = true
    /\ getExtractLinkAction isSameResource doc linkInfo targetLink
       = Some (extractLinkActionWith isSameResource doc linkInfo targetLink placeholder)
    /\ getActions rangeIntersects isSameResource codeActionKindContains
         doc range0 context token linkInfo
       = Some [extractLinkActionWith isSameResource doc linkInfo targetLink placeholder].
Proof.
  intros enabled running inLinks inRange can.
  unfold getActions. rewrite enabled, running. simpl.
  set (linksInRange := List.filter (isInRange rangeIntersects range0) (links linkInfo)).
  assert (held : In candidate linksInRange) by now apply List.filter_In.
  destruct (length linksInRange =? 0)%nat eqn:empty.
  { apply Nat.eqb_eq in empty. destruct linksInRange; [destruct held|discriminate]. }
  destruct (find isExtractable (sort byStartDescending linksInRange))
    as [targetLink|] eqn:found.
  2: { apply (sort_In byStartDescending) in held.
       apply (find_none _ _ found) in held. congruence. }
  destruct (chosen_target _ _ found) as (inT & canT & _).
  apply List.filter_In in inT as [inT rangeT].
  destruct (searchPlaceholder_enough (definitions linkInfo) 1) as [placeholder search].
  exists targetLink, placeholder.
  unfold getExtractLinkAction, getPlaceholder. rewrite search.
  split; [reflexivity|]. split; [reflexivity|]. split; [assumption|].
  split; [assumption|]. split; [assumption|]. split; reflexivity.
Qed.

(** X9. The action that [getActions] returns for a link rewrites that link
    itself, when every resource is the same resource as itself: on a call
    that is enabled and not cancelled, with a link in range that can be
    extracted, the result is the one action that [#getExtractLinkAction]
    gives for the chosen link, the first extractable link in range in the
    order of descending starts; the edits of that action for the document
    are the replacements by [[placeholder]] of the links that match the
    chosen link, in the order of the snapshot, followed by one insertion;
    and the replacement of the chosen link's own target is among them. *)
Theorem getActions_rewrites_target doc range0 context token linkInfo candidate :
  (forall resource, isSameResource resource resource = true) ->
  isEnabled codeActionKindContains context = true ->
  lsp.isCancellationRequested token = false ->
  In candidate (links linkInfo) ->
  isInRange rangeIntersects range0 candidate = true ->
  isExtractable candidate = true ->
  exists targetLink placeholder action changes insertion,
    let rewrites :=
      map (rewriteEdit placeholder)
        (List.filter (isOccurrence isSameResource targetLink) (links linkInfo)) in
    find isExtractable
      (sort byStartDescending
         (List.filter (isInRange rangeIntersects range0) (links linkInfo)))
    = Some targetLink
    /\ getPlaceholder (definitions linkInfo) = Some placeholder
    /\ getExtractLinkAction isSameResource doc linkInfo targetLink = Some action
    /\ getActions rangeIntersects isSameResource codeActionKindContains
         doc range0 context token linkInfo = Some [action]
    /\ In targetLink (links linkInfo)
    /\ isInRange rangeIntersects range0 targetLink = true
    /\ isExtractable targetLink = true
    /\ lsp.edit action = Some changes
    /\ changes !! getDocUri doc = Some (rewrites ++ [insertion])%list
    /\ In (rewriteEdit placeholder targetLink) rewrites
    /\ lsp.start (lsp.range insertion) = lsp.end_ (lsp.range insertion).
Proof.
  intros reflexive enabled running inLinks inRange can.
  destruct (getActions_extracts doc range0 context token linkInfo candidate
              enabled running inLinks inRange can)
    as (targetLink & placeholder & chosen & search & inT & rangeT & canT
        & extracted & result).
  destruct (extractLinkActionWith_edits isSameResource doc linkInfo targetLink placeholder)
    as (changes & insertion & edits & held & _ & pure & _).
  exists targetLink, placeholder,
    (extractLinkActionWith isSameResource doc linkInfo targetLink placeholder),
    changes, insertion.
  intros rewrites.
  split; [exact chosen|]. split; [exact search|]. split; [exact extracted|].
  split; [exact result|]. split; [assumption|]. split; [assumption|].
  split; [assumption|]. split; [exact edits|]. split; [exact held|].
  split; [|assumption].
  apply in_map, List.filter_In. split; [assumption|].
  apply isOccurrence_spec. split.
  - unfold isInRange in rangeT. apply andb_true_iff in rangeT as [notDef _].
    destruct (kind targetLink); auto; discriminate.
  - unfold isExtractable in canT. unfold sameDestination.
    destruct (href targetLink); simpl in canT; try discriminate; auto.
Qed.

(** Two links of which one matches the other have the same occurrences,
    when being the same resource is symmetric and transitive. *)
Lemma matchesHref_shared first second link :
  (forall x y, isSameResource x y = isSameResource y x) ->
  (forall x y z, isSameResource x y = true -> isSameResource y z = true ->
                 isSameResource x z = true) ->
  matchesHref isSameResource (href first) second = true ->
  matchesHref isSameResource (href first) link
  = matchesHref isSameResource (href second) link.
Proof.
  intros symmetric transitive.
  assert (same : forall a b c, isSameResource b a = true ->
                   isSameResource c a = isSameResource c b).
  { intros a b c ba.
    destruct (isSameResource c a) eqn:ca, (isSameResource c b) eqn:cb; try reflexivity.
    - rewrite symmetric in ba. rewrite <- cb. symmetry.
      now apply (transitive c a b).
    - rewrite <- ca. now apply (transitive c b a). }
  unfold matchesHref.
  destruct (href first) as [ua|pa fa|ra], (href second) as [ub|pb fb|rb];
    try discriminate; intros matches.
  - destruct (href link); try reflexivity. now apply same.
  - apply andb_true_iff in matches as [paths fragments].
    apply String.eqb_eq in fragments as ->.
    destruct (href link); try reflexivity. f_equal. now apply same.
Qed.

(** X10. Extraction triggered on either of two links with one destination
    rewrites the same links: when being the same resource is symmetric and
    transitive and the second link matches the href of the first, the
    actions extracted for the two links carry the same replacements, in the
    same order, each followed by one insertion at the same position. *)
Theorem extraction_on_either_link_rewrites_the_same doc linkInfo first second :
  (forall x y, isSameResource x y = isSameResource y x) ->
  (forall x y z, isSameResource x y = true -> isSameResource y z = true ->
                 isSameResource x z = true) ->
  matchesHref isSameResource (href first) second = true ->
  exists actionOfFirst actionOfSecond changesOfFirst changesOfSecond
         rewrites insertionOfFirst insertionOfSecond,
    getExtractLinkAction isSameResource doc linkInfo first = Some actionOfFirst
    /\ getExtractLinkAction isSameResource doc linkInfo second = Some actionOfSecond
    /\ lsp.edit actionOfFirst = Some changesOfFirst
    /\ lsp.edit actionOfSecond = Some changesOfSecond
    /\ changesOfFirst !! getDocUri doc = Some (rewrites ++ [insertionOfFirst])%list
    /\ changesOfSecond !! getDocUri doc = Some (rewrites ++ [insertionOfSecond])%list
    /\ lsp.range insertionOfFirst = lsp.range insertionOfSecond.
Proof.
  intros symmetric transitive matches.
  destruct (searchPlaceholder_enough (definitions linkInfo) 1) as [placeholder search].
  destruct (extractLinkActionWith_edits isSameResource doc linkInfo first placeholder)
    as (changes1 & insertion1 & edits1 & held1 & _ & pure1 & at1 & _).
  destruct (extractLinkActionWith_edits isSameResource doc linkInfo second placeholder)
    as (changes2 & insertion2 & edits2 & held2 & _ & pure2 & at2 & _).
  eexists _, _, changes1, changes2, _, insertion1, insertion2.
  unfold getExtractLinkAction, getPlaceholder. rewrite search.
  split; [reflexivity|]. split; [reflexivity|].
  split; [exact edits1|]. split; [exact edits2|].
  split; [exact held1|]. split.
  - rewrite held2. do 2 f_equal. f_equal. apply List.filter_ext. intros link.
    unfold isOccurrence. f_equal. symmetry.
    now apply matchesHref_shared.
  - destruct (lsp.range insertion1) as [s1 e1], (lsp.range insertion2) as [s2 e2].
    simpl in *. congruence.
Qed.

End ExtractorAgain.

(** ** The placeholder, as the set of definitions grows *)

Section PlaceholderAgain.
Import ExtractLinkDef.

(** X11. The placeholder never moves back as definitions are added: when
    every name that one set of definitions holds is held by a second, the
    counter of the placeholder chosen against the second is no smaller than
    the counter chosen against the first, and it is greater once the second
    set holds the placeholder chosen against the first. *)
Theorem getPlaceholder_monotone (definitions definitions' : gmap string MdLinkDefinition) :
  (forall name, is_Some (LinkDefinitionSet.lookup name definitions) ->
                is_Some (LinkDefinitionSet.lookup name definitions')) ->
  exists i j,
    getPlaceholder definitions = Some (placeholderName i)
    /\ getPlaceholder definitions' = Some (placeholderName j)
    /\ (1 <= i <= j)%nat
    /\ (is_Some (LinkDefinitionSet.lookup (placeholderName i) definitions') -> (i < j)%nat).
Proof.
  intros included. unfold getPlaceholder.
  destruct (searchPlaceholder_enough definitions 1) as [name search].
  destruct (searchPlaceholder_enough definitions' 1) as [name' search'].
  rewrite search, search'.
  apply searchPlaceholder_Some in search as (i & bounds & -> & free & before).
  apply searchPlaceholder_Some in search' as (j & bounds' & -> & free' & before').
  exists i, j. split; [reflexivity|]. split; [reflexivity|].
  assert (le : (i <= j)%nat).
  { destruct (Nat.le_gt_cases i j) as [|gt]; [assumption|].
    destruct (included _ (before j ltac:(lia))) as [def held].
    rewrite free' in held. discriminate. }
  split; [lia|]. intros [def held].
  destruct (Nat.eq_dec i j) as [->|]; [|lia].
  rewrite free' in held. discriminate.
Qed.

End PlaceholderAgain.

(** ** The text of the inserter and the text of a target *)

Section InserterText.
Import OrganizeLinkDefs ExtractLinkDef.

Lemma noLineBreak_app a b :
  noLineBreak (a ++ b) = noLineBreak a && noLineBreak b.
Proof. apply allChars_app. Qed.

Lemma splitLines_newline t : splitLines (newline ++ t) = "" :: splitLines t.
Proof. exact (splitLines_line "" t eq_refl). Qed.

(** X12. The text that [createAddDefinitionEdit] inserts for new definitions
    whose placeholders and texts hold no line terminator: it ends the line of
    the insertion, leaves one blank line when there is no block, and then
    holds one line [[placeholder]: text] for each new definition, in their
    order. *)
Theorem createAddDefinitionEdit_lines doc existingDefinitions newDefs :
  newDefs <> [] ->
  Forall (fun d => noLineBreak (placeholder d) = true
                   /\ noLineBreak (definitionText d) = true) newDefs ->
  splitLines (lsp.newText (createAddDefinitionEdit doc existingDefinitions newDefs))
  = List.app
      (match getExistingDefinitionBlock doc existingDefinitions with
       | Some _ => [""]
       | None => [""; ""]
       end)
      (map (fun d => "[" ++ placeholder d ++ "]: " ++ definitionText d) newDefs).
Proof.
  intros nonEmpty plain.
  set (rendered := map (fun d => "[" ++ placeholder d ++ "]: " ++ definitionText d) newDefs).
  assert (lines : splitLines (String.concat newline rendered) = rendered).
  { apply splitLines_concat.
    - unfold rendered. destruct newDefs; [congruence|discriminate].
    - unfold rendered. apply List.Forall_forall. intros l inl.
      apply in_map_iff in inl as (d & <- & ind).
      rewrite List.Forall_forall in plain. destruct (plain d ind) as [name text].
      rewrite !noLineBreak_app, name, text. reflexivity. }
  unfold createAddDefinitionEdit. fold rendered.
  destruct (getExistingDefinitionBlock doc existingDefinitions); simpl lsp.newText.
  - rewrite splitLines_newline. now rewrite lines.
  - rewrite !splitLines_newline. now rewrite lines.
Qed.

Lemma substring_prefix a b x y :
  (a + b <= String.length x)%nat -> substring a b (x ++ y) = substring a b x.
Proof.
  revert a b; induction x as [|c x IH]; intros a b; simpl.
  - intros short. assert (a = O) by lia. assert (b = O) by lia. subst.
    now destruct y.
  - intros short. destruct a as [|a].
    + destruct b as [|b]; [reflexivity|].
      change (String c x ++ y) with (String c (x ++ y)). simpl.
      f_equal. apply (IH O b). lia.
    + change (String c x ++ y) with (String c (x ++ y)). simpl.
      apply IH. lia.
Qed.

(** A piece of one line, read off the text of the document. *)
Lemma substring_in_line ls n a b :
  (n < length ls)%nat ->
  (a + b <= String.length (nth n ls ""))%nat ->
  substring (lineOffset ls n + a) b (String.concat newline ls)
  = substring a b (nth n ls "").
Proof.
  revert ls; induction n as [|n IH]; intros ls inside short.
  - destruct ls as [|x [|y rest]]; simpl in inside; [lia|reflexivity|].
    rewrite concat_cons. simpl lineOffset. simpl nth in *.
    now apply substring_prefix.
  - destruct ls as [|x [|y rest]]; simpl in inside; [lia|lia|].
    rewrite concat_cons.
    change (lineOffset (x :: y :: rest) (S n))
      with (String.length x + 1 + lineOffset (y :: rest) n)%nat.
    replace (String.length x + 1 + lineOffset (y :: rest) n + a)%nat
      with (String.length x + (1 + (lineOffset (y :: rest) n + a)))%nat by lia.
    rewrite substring_skip.
    change (substring (lineOffset (y :: rest) n + a) b
              (String.concat newline (y :: rest))
            = substring a b (nth n (y :: rest) "")).
    apply IH; [simpl; lia|exact short].
Qed.

Lemma getText_in_line doc l c1 c2 :
  0 <= l < lineCount doc ->
  0 <= c1 <= c2 ->
  c2 <= Z.of_nat (String.length (getLine doc l)) ->
  getText doc (lsp.Range.create l c1 l c2)
  = substring (Z.to_nat c1) (Z.to_nat (c2 - c1)) (getLine doc l).
Proof.
  intros [nonNegative inside] ordered short.
  unfold getText, offsetAt, getLine in *. simpl.
  destruct (Z.leb_spec (lineCount doc) l); [lia|].
  destruct (Z.ltb_spec l 0); [lia|]. simpl in *.
  set (text := nth (Z.to_nat l) (lines doc) "") in *.
  rewrite !Nat.min_l by lia.
  replace (lineOffset (lines doc) (Z.to_nat l) + Z.to_nat c2
           - (lineOffset (lines doc) (Z.to_nat l) + Z.to_nat c1))%nat
    with (Z.to_nat (c2 - c1)) by lia.
  apply substring_in_line; unfold lineCount in *; fold text; lia.
Qed.

(** X13. The text of a target that lies within one line:
    [getLinkTargetText] returns the characters of the line in the target
    range, all of them for an autolink, and all but the first and the last,
    the delimiters, for any other link. *)
Theorem getLinkTargetText_within_line doc link l c1 c2 :
  targetRange (source link) = lsp.Range.create l c1 l c2 ->
  0 <= l < lineCount doc ->
  0 <= c1 ->
  c1 + 2 <= c2 <= Z.of_nat (String.length (getLine doc l)) ->
  getLinkTargetText doc link
  = if MdLinkKind.eqb (kind link) MdLinkKind.AutoLink
    then substring (Z.to_nat c1) (Z.to_nat (c2 - c1)) (getLine doc l)
    else substring (Z.to_nat c1 + 1) (Z.to_nat (c2 - c1) - 2) (getLine doc l).
Proof.
  intros target inside nonNegative bounds. unfold getLinkTargetText. rewrite target.
  destruct (MdLinkKind.eqb (kind link) MdLinkKind.AutoLink).
  - apply getText_in_line; lia.
  - unfold translatePosition. simpl.
    change {| lsp.start := {| lsp.line := l; lsp.character := c1 + 1 |};
              lsp.end_ := {| lsp.line := l; lsp.character := c2 + -1 |} |}
      with (lsp.Range.create l (c1 + 1) l (c2 + -1)).
    rewrite getText_in_line by lia. f_equal; lia.
Qed.

End InserterText.

(** ** What the organizer reads of a snapshot *)

Section OrganizerReads.
Import OrganizeLinkDefs.

Variable localeCompare : string -> string -> Z.

Lemma filter_same {A : Type} (p q : A -> bool) l :
  (forall x, In x l -> p x = q x) -> List.filter p l = List.filter q l.
Proof.
  induction l as [|x l IH]; intros same; simpl; [reflexivity|].
  rewrite (same x) by now left.
  rewrite IH; [reflexivity|]. intros y iny. apply same. now right.
Qed.

(** X15. The organizer reads of a snapshot its definitions and, when unused
    definitions are to be removed, which of their labels reference links
    use, and nothing else: two snapshots with the same definitions, whose
    links of kind Link refer to the same labels of definitions, get the same
    edits. *)
Theorem organizer_reads_definitions_and_references doc options token links links' :
  List.filter isDefinition links = List.filter isDefinition links' ->
  (removeUnusedSet options = true ->
   forall def, In def (List.filter isDefinition links) ->
     (referencedExactly links def <-> referencedExactly links' def)) ->
  getOrganizeLinkDefinitionEdits localeCompare doc options token links
  = getOrganizeLinkDefinitionEdits localeCompare doc options token links'.
Proof.
  intros sameDefs sameRefs. unfold getOrganizeLinkDefinitionEdits.
  rewrite <- sameDefs.
  set (definitions := List.filter isDefinition links) in *.
  assert (kept : newDefs localeCompare options links definitions
                 = newDefs localeCompare options links' definitions).
  { unfold newDefs. apply filter_same. intros def ind.
    destruct (removeUnusedSet options) eqn:set; [|reflexivity]. simpl.
    unfold sortedDefs in ind. apply sort_In in ind.
    specialize (sameRefs eq_refl def ind).
    rewrite <- !isReferenced_spec in sameRefs.
    destruct (isReferenced links def), (isReferenced links' def);
      try reflexivity; intuition discriminate. }
  now rewrite kept.
Qed.

End OrganizerReads.

(** * The block that the organizer writes *)

Section OrganizerOutput.
Import OrganizeLinkDefs.

Variable localeCompare : string -> string -> Z.

(** The organizer is silent exactly when the definitions are in place. *)
Lemma organizer_silent doc options token links :
  let definitions := List.filter isDefinition links in
  let kept := newDefs localeCompare options links definitions in
  lsp.isCancellationRequested token = false ->
  definitions <> [] ->
  getOrganizeLinkDefinitionEdits localeCompare doc options token links = []
  <-> alreadyInPlace doc definitions kept.
Proof.
  intros definitions kept running nonEmpty.
  unfold getOrganizeLinkDefinitionEdits, alreadyInPlace.
  fold definitions. fold kept. rewrite running.
  destruct (length definitions =? 0)%nat eqn:empty.
  { apply Nat.eqb_eq in empty. destruct definitions; [congruence|discriminate]. }
  destruct (getExistingDefinitionBlock doc definitions) as [block|] eqn:located.
  - rewrite <- andb_assoc.
    pose proof (sameRefs_spec definitions kept) as same.
    destruct ((length kept =? length definitions)%nat && sameRefs definitions kept).
    + destruct (deletionEdits doc definitions (Some block)) as [|e l]; simpl.
      * split; [|reflexivity]. intros _.
        split; [now eexists|]. split; [reflexivity|]. now apply same.
      * split; [discriminate|]. intros (_ & none & _). discriminate.
    + rewrite andb_false_r. split.
      * intros none. symmetry in none. now apply app_cons_not_nil in none.
      * intros (_ & _ & labels). apply same in labels. discriminate.
  - destruct (exists_last nonEmpty) as (before & lastDef & ->).
    destruct (getLastNonWhitespaceLine_snoc doc before lastDef) as (line & -> & _).
    split.
    + intros none. symmetry in none. now apply app_cons_not_nil in none.
    + intros ([block found] & _). discriminate.
Qed.

(** What is kept when nothing is written: every definition. *)
Lemma alreadyInPlace_keeps_all doc options links :
  let definitions := List.filter isDefinition links in
  let kept := newDefs localeCompare options links definitions in
  alreadyInPlace doc definitions kept ->
  forall def, In def definitions -> In def kept.
Proof.
  intros definitions kept (_ & _ & labels) def ind.
  assert (len : length kept = length definitions).
  { rewrite <- (length_map ref kept), labels. apply length_map. }
  assert (all : kept = sortedDefs localeCompare definitions).
  { apply filter_length_eq. fold (newDefs localeCompare options links definitions).
    fold kept. rewrite len. unfold sortedDefs. now rewrite sort_length. }
  rewrite all. unfold sortedDefs. now apply sort_In.
Qed.

(** C3, with labels matched as the code matches them. Unused-removal
    soundness: when the organizer is called with [removeUnused] set, on a
    snapshot with definitions and without cancellation, the kept definitions
    are exactly the definitions of the snapshot for which some link of kind
    Link has a reference href whose label is, character for character, the
    text of the definition's label; the organizer returns no edit only when
    every definition is referenced in that sense, so a definition that is
    not makes it return edits; and the edits it returns are deletions of
    groups followed by one edit whose text is, behind at most two line feeds,
    the block of the kept definitions, the renderings [[label]: hrefText] of
    those definitions and of no other joined by line feeds. *)
Theorem removeUnused_keeps_exactly_referenced doc options token links :
  let definitions := List.filter isDefinition links in
  let kept := newDefs localeCompare options links definitions in
  let edits := getOrganizeLinkDefinitionEdits localeCompare doc options token links in
  removeUnusedSet options = true ->
  lsp.isCancellationRequested token = false ->
  definitions <> [] ->
  (forall def, In def kept <-> In def definitions /\ referencedExactly links def)
  /\ (edits = [] -> forall def, In def definitions -> referencedExactly links def)
  /\ ((exists def, In def definitions /\ ~ referencedExactly links def) -> edits <> [])
  /\ (edits <> [] ->
      exists deletions prefix r,
        edits
        = (deletions
           ++ [ {| lsp.newText :=
                     prefix ++ String.concat newline (map renderDefinition kept);
                   lsp.range := r |} ])%list
        /\ Forall (fun e => lsp.newText e = "") deletions
        /\ (prefix = "" \/ prefix = newline \/ prefix = newline ++ newline)).
Proof.
  intros definitions kept edits set running nonEmpty.
  assert (membership : forall def,
             In def kept <-> In def definitions /\ referencedExactly links def).
  { intros def. now apply newDefs_removeUnused. }
  assert (silent : edits = [] ->
                   forall def, In def definitions -> referencedExactly links def).
  { intros none def ind.
    apply (organizer_silent doc options token links running nonEmpty) in none.
    apply (alreadyInPlace_keeps_all doc options links none) in ind.
    now apply membership in ind. }
  split; [exact membership|]. split; [exact silent|]. split.
  - intros (def & ind & unused) none. apply unused. now apply silent.
  - intros some.
    destruct (organizer_edits_shape localeCompare doc options token links)
      as [none|shape]; [now apply some in none|exact shape].
Qed.

Hypothesis localeCompare_total :
  forall a b, localeCompare a b <= 0 \/ localeCompare b a <= 0.
Hypothesis localeCompare_trans :
  forall a b c, localeCompare a b <= 0 -> localeCompare b c <= 0 -> localeCompare a c <= 0.


End OrganizerOutput.

(** * When the edits of one call overlap *)

Section EditOverlap.
Import OrganizeLinkDefs ExtractLinkDef.

Variable localeCompare : string -> string -> Z.
Variable isSameResource : string -> string -> bool.




End EditOverlap.

(** * The further properties on sample documents *)

Section OnMoreSamples.
Import OrganizeLinkDefs ExtractLinkDef Samples.

(** The groups of the grouped sample. *)
Example groups_of_grouped_sample :
  getDefinitionBlockGroups (List.filter isDefinition groupedLinks)
  = [ {| startLine := 0; endLine := 1 |}; {| startLine := 3; endLine := 3 |};
      {| startLine := 5; endLine := 6 |} ].
Proof. vm_compute. reflexivity. Qed.

(** Witness of X1, on the grouped sample. *)
Lemma getDefinitionBlockGroups_maximal_runs_witness :
  let definitions := List.filter isDefinition groupedLinks in
  let groups := getDefinitionBlockGroups definitions in
  inDocumentOrder definitions
  /\ StronglySorted spanApart groups
  /\ (forall line,
        isDefinitionLine definitions line
        <-> exists g, In g groups /\ spanHolds g line).
Proof.
  intros definitions groups.
  assert (ordered : inDocumentOrder definitions) by repeat constructor.
  split; [exact ordered|].
  destruct (getDefinitionBlockGroups_maximal_runs definitions ordered)
    as (apart & _ & held & _).
  split; [exact apart|exact held].
Defined.

(** Witness of X2: the block of the grouped sample is its last group. *)
Lemma getExistingDefinitionBlock_is_last_group_witness :
  let definitions := List.filter isDefinition groupedLinks in
  (inDocumentOrder definitions
   /\ getExistingDefinitionBlock groupedDoc definitions
      = Some {| startLine := 5; endLine := 6 |})
  /\ last (getDefinitionBlockGroups definitions)
     = Some {| startLine := 5; endLine := 6 |}.
Proof.
  intros definitions.
  assert (ordered : inDocumentOrder definitions) by repeat constructor.
  assert (located : getExistingDefinitionBlock groupedDoc definitions
                    = Some {| startLine := 5; endLine := 6 |})
    by (vm_compute; reflexivity).
  split; [split; [exact ordered|exact located]|].
  exact (getExistingDefinitionBlock_is_last_group groupedDoc definitions _ ordered located).
Defined.

(** The edits of the organizer on the grouped sample. *)
Example organize_grouped :
  getOrganizeLinkDefinitionEdits codeUnitCompare groupedDoc
    {| removeUnused := None |} notCancelled groupedLinks
  = [ {| lsp.newText := ""; lsp.range := lsp.Range.create 0 0 1 7 |};
      {| lsp.newText := ""; lsp.range := lsp.Range.create 3 0 3 7 |};
      {| lsp.newText := "[a]: /a" ++ newline ++ "[b]: /b" ++ newline ++ "[c]: /c"
                          ++ newline ++ "[d]: /d" ++ newline ++ "[e]: /e";
         lsp.range := lsp.Range.create 5 0 6 7 |} ].
Proof. vm_compute. reflexivity. Qed.

(** Witness of X3, on the grouped sample. *)
Lemma organizer_edits_with_block_witness :
  let options := {| removeUnused := None |} in
  let definitions := List.filter isDefinition groupedLinks in
  let kept := newDefs codeUnitCompare options groupedLinks definitions in
  let block := {| startLine := 5; endLine := 6 |} in
  getOrganizeLinkDefinitionEdits codeUnitCompare groupedDoc options notCancelled groupedLinks
  = (map (groupDeletion groupedDoc) (removelast (getDefinitionBlockGroups definitions))
     ++ [ {| lsp.newText :=
               (if (startLine block <=? 0) || isBlankLine groupedDoc (startLine block - 1)
                then "" else newline) ++ defBlock kept;
             lsp.range :=
               lsp.Range.create (startLine block) 0 (endLine block)
                 (Z.of_nat (String.length (getLine groupedDoc (endLine block)))) |} ])%list.
Proof.
  intros options definitions kept block.
  apply (organizer_edits_with_block codeUnitCompare groupedDoc options notCancelled
           groupedLinks block).
  - repeat constructor.
  - vm_compute. reflexivity.
  - vm_compute. discriminate.
Defined.

(** Witness of X4, on the organized sample. *)
Lemma organizer_no_edits_iff_witness :
  let options := {| removeUnused := Some true |} in
  let definitions := List.filter isDefinition organizedLinks in
  let kept := newDefs codeUnitCompare options organizedLinks definitions in
  inDocumentOrder definitions
  /\ (getOrganizeLinkDefinitionEdits codeUnitCompare organizedDoc options
        notCancelled organizedLinks = []
      <-> lsp.isCancellationRequested notCancelled = true
          \/ definitions = []
          \/ (blankAfterLast organizedDoc definitions
              /\ onConsecutiveLines definitions
              /\ map ref kept = map ref definitions)).
Proof.
  intros options definitions kept.
  assert (ordered : inDocumentOrder definitions) by repeat constructor.
  split; [exact ordered|].
  exact (organizer_no_edits_iff codeUnitCompare organizedDoc options notCancelled
           organizedLinks ordered).
Defined.

(** Witness of X5: in the multi-line sample the last line that is not blank
    is line 3, and the definition extends over one more line than its
    first. *)
Lemma getLastNonWhitespaceLine_offset_witness :
  let lastDef := definitionAt "a" "/url" 0 1 in
  (wellFormedDocument multiLineDoc /\ 0 <= endLineOf lastDef)
  /\ ((exists lastText,
         endLineOf lastDef < lastText < lineCount multiLineDoc
         /\ isBlankLine multiLineDoc lastText = false
         /\ (forall l, lastText < l < lineCount multiLineDoc ->
                       isBlankLine multiLineDoc l = true)
         /\ getLastNonWhitespaceLine multiLineDoc ([] ++ [lastDef])
            = Some (lastText - (endLineOf lastDef - startLineOf lastDef)))
      \/ ((forall l, endLineOf lastDef < l < lineCount multiLineDoc ->
                     isBlankLine multiLineDoc l = true)
          /\ getLastNonWhitespaceLine multiLineDoc ([] ++ [lastDef])
             = Some (startLineOf lastDef))).
Proof.
  intros lastDef.
  assert (wellFormed : wellFormedDocument multiLineDoc).
  { split; [repeat constructor|]. vm_compute. discriminate. }
  assert (nonNegative : 0 <= endLineOf lastDef) by (vm_compute; discriminate).
  split; [split; [exact wellFormed|exact nonNegative]|].
  exact (getLastNonWhitespaceLine_offset multiLineDoc [] lastDef wellFormed nonNegative).
Defined.

(** Witness of X6, on the multi-line sample. *)
Lemma organizer_edits_without_block_witness :
  let options := {| removeUnused := None |} in
  let lastDef := definitionAt "a" "/url" 0 1 in
  let definitions := List.filter isDefinition multiLineLinks in
  let kept := newDefs codeUnitCompare options multiLineLinks definitions in
  exists lastText,
    endLineOf lastDef < lastText < lineCount multiLineDoc
    /\ isBlankLine multiLineDoc lastText = false
    /\ (forall l, lastText < l < lineCount multiLineDoc ->
                  isBlankLine multiLineDoc l = true)
    /\ let line := lastText - (endLineOf lastDef - startLineOf lastDef) in
       getOrganizeLinkDefinitionEdits codeUnitCompare multiLineDoc options
         notCancelled multiLineLinks
       = (map (groupDeletion multiLineDoc) (getDefinitionBlockGroups definitions)
          ++ [ {| lsp.newText :=
                    (if line =? lineCount multiLineDoc - 1
                     then newline ++ newline else newline)
                    ++ defBlock kept;
                  lsp.range :=
                    lsp.Range.create (line + 1) 0 (lineCount multiLineDoc) 0 |} ])%list.
Proof.
  intros options lastDef definitions kept.
  apply (organizer_edits_without_block codeUnitCompare multiLineDoc options notCancelled
           multiLineLinks [] lastDef).
  - reflexivity.
  - reflexivity.
  - split; [repeat constructor|]. vm_compute. discriminate.
  - vm_compute. discriminate.
  - vm_compute. reflexivity.
Defined.

(** Witness of X7: the two definitions of [a] stay in their order. *)
Lemma organizer_keeps_order_of_equal_labels_witness :
  let options := {| removeUnused := None |} in
  let definitions := List.filter isDefinition repeatedLabelLinks in
  let kept := newDefs codeUnitCompare options repeatedLabelLinks definitions in
  let sameLabel := fun def => comparesEqual codeUnitCompare "a" (labelOf def) in
  let isKept := fun def => if negb (removeUnusedSet options) then true
                           else isReferenced repeatedLabelLinks def in
  List.filter sameLabel kept = List.filter sameLabel (List.filter isKept definitions).
Proof.
  exact (organizer_keeps_order_of_equal_labels codeUnitCompare codeUnitCompare_total
           codeUnitCompare_trans {| removeUnused := None |} repeatedLabelLinks "a").
Defined.

(** What the organizer keeps there. *)
Example organize_repeated_label :
  map (fun def => hrefText (source def))
    (newDefs codeUnitCompare {| removeUnused := None |} repeatedLabelLinks
       (List.filter isDefinition repeatedLabelLinks))
  = ["/first"; "/second"; "/other"].
Proof. vm_compute. reflexivity. Qed.

(** Witness of X9: the action for the cursor in the first of the two links
    is the one extracted for that link, and rewrites it. *)
Lemma getActions_rewrites_target_witness :
  exists placeholder action changes insertion,
    let rewrites :=
      map (rewriteEdit placeholder)
        (List.filter (isOccurrence String.eqb firstLink) (links twoLinks)) in
    getExtractLinkAction String.eqb twoLinksDoc twoLinks firstLink = Some action
    /\ getActions rangeIntersects String.eqb codeActionKindContains
         twoLinksDoc cursor anyKind notCancelled twoLinks = Some [action]
    /\ lsp.edit action = Some changes
    /\ changes !! getDocUri twoLinksDoc = Some (rewrites ++ [insertion])%list
    /\ In (rewriteEdit placeholder firstLink) rewrites.
Proof.
  destruct (getActions_rewrites_target rangeIntersects String.eqb codeActionKindContains
              twoLinksDoc cursor anyKind notCancelled twoLinks firstLink
              String.eqb_refl eq_refl eq_refl (or_introl eq_refl) eq_refl eq_refl)
    as (targetLink & placeholder & action & changes & insertion & chosen & _
        & extracted & result & _ & _ & _ & edits & held & rewritten & _).
  vm_compute in chosen. injection chosen as <-.
  exists placeholder, action, changes, insertion.
  split; [exact extracted|]. split; [exact result|]. split; [exact edits|].
  split; [exact held|exact rewritten].
Defined.

(** Witness of X10, on the two links of the sample. *)
Lemma extraction_on_either_link_rewrites_the_same_witness :
  exists actionOfFirst actionOfSecond changesOfFirst changesOfSecond
         rewrites insertionOfFirst insertionOfSecond,
    getExtractLinkAction String.eqb twoLinksDoc twoLinks firstLink = Some actionOfFirst
    /\ getExtractLinkAction String.eqb twoLinksDoc twoLinks secondLink
       = Some actionOfSecond
    /\ lsp.edit actionOfFirst = Some changesOfFirst
    /\ lsp.edit actionOfSecond = Some changesOfSecond
    /\ changesOfFirst !! getDocUri twoLinksDoc
       = Some (rewrites ++ [insertionOfFirst])%list
    /\ changesOfSecond !! getDocUri twoLinksDoc
       = Some (rewrites ++ [insertionOfSecond])%list
    /\ lsp.range insertionOfFirst = lsp.range insertionOfSecond.
Proof.
  apply (extraction_on_either_link_rewrites_the_same String.eqb twoLinksDoc twoLinks
           firstLink secondLink).
  - apply String.eqb_sym.
  - intros x y z xy yz. apply String.eqb_eq in xy, yz. subst. apply String.eqb_refl.
  - reflexivity.
Defined.

(** Witness of X11: from no definition to the set that holds [def] and
    [def2]. *)
Lemma getPlaceholder_monotone_witness :
  exists i j,
    getPlaceholder ∅ = Some (placeholderName i)
    /\ getPlaceholder takenNames = Some (placeholderName j)
    /\ (1 <= i <= j)%nat
    /\ (is_Some (LinkDefinitionSet.lookup (placeholderName i) takenNames) -> (i < j)%nat).
Proof.
  apply (getPlaceholder_monotone ∅ takenNames).
  intros name [def held]. unfold LinkDefinitionSet.lookup in held.
  rewrite lookup_empty in held. discriminate.
Defined.

(** Witness of X12: two definitions added to the block of the organized
    sample. *)
Lemma createAddDefinitionEdit_lines_witness :
  let definitions := List.filter isDefinition organizedLinks in
  splitLines (lsp.newText (createAddDefinitionEdit organizedDoc definitions twoNewDefs))
  = List.app
      (match getExistingDefinitionBlock organizedDoc definitions with
       | Some _ => [""]
       | None => [""; ""]
       end)
      (map (fun d => "[" ++ placeholder d ++ "]: " ++ definitionText d) twoNewDefs).
Proof.
  intros definitions.
  apply (createAddDefinitionEdit_lines organizedDoc definitions twoNewDefs).
  - discriminate.
  - repeat constructor.
Defined.

(** The lines that are added there. *)
Example lines_added_to_organized_sample :
  splitLines (lsp.newText (createAddDefinitionEdit organizedDoc
                             (List.filter isDefinition organizedLinks) twoNewDefs))
  = [""; "[def]: /one"; "[def2]: /two"].
Proof. vm_compute. reflexivity. Qed.

(** Witness of X13: the target of the first of the two links, without its
    parentheses. *)
Lemma getLinkTargetText_within_line_witness :
  getLinkTargetText twoLinksDoc firstLink = substring 4 8 (getLine twoLinksDoc 0).
Proof.
  apply (getLinkTargetText_within_line twoLinksDoc firstLink 0 3 13).
  - reflexivity.
  - split; [discriminate|reflexivity].
  - discriminate.
  - split; vm_compute; discriminate.
Defined.

Example target_text_of_first_link : getLinkTargetText twoLinksDoc firstLink = "http://x".
Proof. vm_compute. reflexivity. Qed.

(** Witness of X14: the scattered sample, and the document that the edits of
    the first run leave. *)
Lemma organizer_second_run_no_edits_witness :
  let options := {| removeUnused := None |} in
  let kept := newDefs codeUnitCompare options scatteredLinks
                (List.filter isDefinition scatteredLinks) in
  let definitions2 := List.filter isDefinition reorganizedLinks in
  (map labelOf definitions2 = map labelOf kept
   /\ onConsecutiveLines definitions2)
  /\ getOrganizeLinkDefinitionEdits codeUnitCompare reorganizedDoc options
       notCancelled reorganizedLinks = [].
Proof.
  intros options kept definitions2.
  assert (labels : map labelOf definitions2 = map labelOf kept).
  { vm_compute. reflexivity. }
  assert (consecutive : onConsecutiveLines definitions2).
  { vm_compute. tauto. }
  split; [split; [exact labels|exact consecutive]|].
  apply (organizer_second_run_no_edits codeUnitCompare codeUnitCompare_total
           codeUnitCompare_trans reorganizedDoc options notCancelled
           scatteredLinks reorganizedLinks labels consecutive).
  - intros lastDef isLast. injection isLast as <-. vm_compute. reflexivity.
  - intros label. split; intros (link & inLinks & isLink & refers).
    + destruct inLinks as [<-|[<-|[<-|[]]]]; try discriminate isLink.
      injection refers as <-. exists (referenceAt "a" 1 5 11).
      split; [now left|]. split; reflexivity.
    + destruct inLinks as [<-|[<-|[<-|[]]]]; try discriminate isLink.
      injection refers as <-. exists (referenceAt "a" 1 5 11).
      split; [right; now left|]. split; reflexivity.
Defined.

(** Witness of X15: an inline link more in the snapshot changes nothing. *)
Lemma organizer_reads_definitions_and_references_witness :
  let options := {| removeUnused := Some true |} in
  getOrganizeLinkDefinitionEdits codeUnitCompare scatteredDoc options notCancelled
    scatteredLinks
  = getOrganizeLinkDefinitionEdits codeUnitCompare scatteredDoc options notCancelled
      (scatteredLinks ++ [firstLink]).
Proof.
  intros options.
  apply (organizer_reads_definitions_and_references codeUnitCompare scatteredDoc options
           notCancelled scatteredLinks (scatteredLinks ++ [firstLink])).
  - reflexivity.
  - intros _ def _. split; intros (link & inLinks & isLink & refers);
      exists link; (split; [|split; assumption]).
    + apply in_or_app. now left.
    + apply in_app_or in inLinks as [inLinks|[<-|[]]]; [assumption|discriminate refers].
Defined.

(** C1 at a last definition of two lines.  The first run finds the block
    of lines 0 and 1, the start lines of the two definitions, and replaces
    it by the sorted block; the second line of [a] stays behind.  In the
    document that the edit leaves, that line follows the definitions, so the
    second run finds no block, and returns two edits. *)
Lemma organizer_second_run_after_multiline_definition :
  let options := {| removeUnused := None |} in
  let firstRun :=
    getOrganizeLinkDefinitionEdits codeUnitCompare staleTailDoc options
      notCancelled staleTailLinks in
  let changed := applyEdits staleTailDoc firstRun in
  firstRun
  = [ {| lsp.newText := "[a]: /a" ++ newline ++ "[b]: /b";
         lsp.range := lsp.Range.create 0 0 1 4 |} ]
  /\ lines changed = ["[a]: /a"; "[b]: /b"; "  /a"]
  /\ getExistingDefinitionBlock changed (List.filter isDefinition staleTailLinksAfter)
     = None
  /\ getOrganizeLinkDefinitionEdits codeUnitCompare changed options
       notCancelled staleTailLinksAfter
     = [ {| lsp.newText := ""; lsp.range := lsp.Range.create 0 0 1 7 |};
         {| lsp.newText := newline ++ newline ++ "[a]: /a" ++ newline ++ "[b]: /b";
            lsp.range := lsp.Range.create 3 0 3 0 |} ].
Proof. intros options firstRun changed. repeat split; vm_compute; reflexivity. Qed.

(** With the two definitions on one line each, the second run is silent. *)
Example organizer_second_run_after_one_line_definitions :
  let options := {| removeUnused := None |} in
  let doc := {| uri := "file:///tail.md"; lines := ["[b]: /b"; "[a]: /a"] |} in
  let firstRun :=
    getOrganizeLinkDefinitionEdits codeUnitCompare doc options notCancelled
      [ definitionAt "b" "/b" 0 0; definitionAt "a" "/a" 1 1 ] in
  lines (applyEdits doc firstRun) = ["[a]: /a"; "[b]: /b"]
  /\ getOrganizeLinkDefinitionEdits codeUnitCompare (applyEdits doc firstRun) options
       notCancelled staleTailLinksAfter = [].
Proof. intros options doc firstRun. split; vm_compute; reflexivity. Qed.


(** Counterexample to C3 as stated: the definition [Foo] is referenced by
    [foo], which has the same normal form, and the organizer removes it all
    the same: the block it writes is empty. *)
Lemma removeUnused_drops_label_in_other_case :
  let options := {| removeUnused := Some true |} in
  let definitions := List.filter isDefinition mixedCaseLinks in
  let kept := newDefs codeUnitCompare options mixedCaseLinks definitions in
  In mixedCaseDefinition definitions
  /\ referencedNormalized mixedCaseLinks mixedCaseDefinition
  /\ getOrganizeLinkDefinitionEdits codeUnitCompare mixedCaseDoc options
       notCancelled mixedCaseLinks
     = [ {| lsp.newText := ""; lsp.range := lsp.Range.create 2 0 2 25 |} ]
  /\ defBlock kept = ""
  /\ ~ (In mixedCaseDefinition kept
        <-> referencedNormalized mixedCaseLinks mixedCaseDefinition).
Proof.
  intros options definitions kept.
  assert (referenced : referencedNormalized mixedCaseLinks mixedCaseDefinition).
  { exists (referenceAt "foo" 0 4 15), "foo".
    split; [now left|]. split; [discriminate|]. split; reflexivity. }
  assert (none : kept = []) by (vm_compute; reflexivity).
  split; [apply List.filter_In; split; [right; now left|reflexivity]|].
  split; [assumption|]. split; [vm_compute; reflexivity|].
  split; [now rewrite none|].
  intros [_ back]. apply back in referenced. now rewrite none in referenced.
Qed.

(** The organizer on the scattered sample when unused definitions are
    removed: [b], which no link refers to, is deleted and not written
    again. *)
Example organize_scattered_unused :
  getOrganizeLinkDefinitionEdits codeUnitCompare scatteredDoc
    {| removeUnused := Some true |} notCancelled scatteredLinks
  = [ {| lsp.newText := ""; lsp.range := lsp.Range.create 0 0 0 21 |};
      {| lsp.newText := newline ++ "[a]: http://a.example";
         lsp.range := lsp.Range.create 2 0 2 21 |} ].
Proof. vm_compute. reflexivity. Qed.

(** Witness of C3 as amended, on the scattered sample: [b] is not
    referenced, so the organizer returns edits, and their last carries the
    block of what is kept. *)
Lemma removeUnused_keeps_exactly_referenced_witness :
  let options := {| removeUnused := Some true |} in
  let unused := definitionAt "b" "http://b.example" 0 0 in
  let definitions := List.filter isDefinition scatteredLinks in
  let kept := newDefs codeUnitCompare options scatteredLinks definitions in
  let edits :=
    getOrganizeLinkDefinitionEdits codeUnitCompare scatteredDoc options
      notCancelled scatteredLinks in
  (removeUnusedSet options = true /\ definitions <> []
   /\ In unused definitions /\ ~ referencedExactly scatteredLinks unused)
  /\ (forall def, In def kept <-> In def definitions /\ referencedExactly scatteredLinks def)
  /\ ~ In unused kept
  /\ exists deletions prefix r,
       edits
       = (deletions
          ++ [ {| lsp.newText :=
                    prefix ++ String.concat newline (map renderDefinition kept);
                  lsp.range := r |} ])%list
       /\ Forall (fun e => lsp.newText e = "") deletions
       /\ (prefix = "" \/ prefix = newline \/ prefix = newline ++ newline).
Proof.
  intros options unused definitions kept edits.
  assert (some : definitions <> []) by discriminate.
  assert (held : In unused definitions) by now left.
  assert (notUsed : ~ referencedExactly scatteredLinks unused).
  { intros (link & inLinks & isLink & refers).
    destruct inLinks as [<-|[<-|[<-|[]]]]; discriminate. }
  destruct (removeUnused_keeps_exactly_referenced codeUnitCompare scatteredDoc options
              notCancelled scatteredLinks eq_refl eq_refl some)
    as (membership & _ & forced & written).
  split; [split; [reflexivity|split; [exact some|split; [exact held|exact notUsed]]]|].
  split; [exact membership|]. split.
  - intros inKept. apply membership in inKept as [_ used]. now apply notUsed.
  - apply written, forced. now exists unused.
Defined.


(** The bundle of the extraction of the first of the two links of the
    linked sample. *)
Example extract_first_of_linked_sample :
  match getExtractLinkAction String.eqb linkedDoc linkedLinks linkOne with
  | Some action =>
      match lsp.edit action with
      | Some changes => changes !! getDocUri linkedDoc
      | None => None
      end
  | None => None
  end
  = Some [ {| lsp.newText := "[def]"; lsp.range := lsp.Range.create 1 5 1 15 |};
           {| lsp.newText := "[def]"; lsp.range := lsp.Range.create 1 25 1 35 |};
           {| lsp.newText := newline ++ "[def]: http://x";
              lsp.range := lsp.Range.create 2 21 2 21 |} ].
Proof. vm_compute. reflexivity. Qed.


End OnMoreSamples.
